(** * Weyra: the AI orchestration core of src/utils/WeryaAI.ts

    A shallow embedding of the class [WeyraAI]: the tool dispatcher and its
    eight handlers, the reply pacer with its cooldown map, the history and
    memory tables behind [Database.query], and the model-invocation loop
    [generateResponse].

    The asynchronous methods run to completion one after the other inside a
    task, so every method is a state transformer over a [World] (the
    in-process cooldown map, the two tables, and the trace of every request
    the process makes to the outside) that either returns a value or throws.
    Whatever lives outside the repository (the JavaScript runtime's built-ins,
    the chat platform, the OpenAI client, the Postgres server, wttr.in) is an
    [Env]: a record of answers, indexed by the position of the request in the
    trace.  No theorem assumes anything about an [Env] beyond the hypotheses
    it states. *)

From stdpp Require Import base strings gmap list sorting pretty.
From Stdlib Require Import ZArith Lia Ascii.

Open Scope Z_scope.

#[local] Set Warnings "-register-all".

(** ** JavaScript values *)

(** What [JSON.parse] produces.  Numbers are the integers: the numeric
    fields of this program are millisecond counts. *)
Inductive Json : Type :=
| JNull
| JBool (b : bool)
| JNum (n : Z)
| JStr (s : string)
| JArr (items : list Json)
| JObj (fields : list (string * Json)).

(** A JavaScript value that may be [undefined] ([None]). *)
Abbreviation JsValue := (option Json).

(** The [name] and [message] of a thrown error object. *)
Record Exn := mkExn { exn_name : string; exn_message : string }.

Definition Error (msg : string) : Exn := mkExn "Error" msg.
Definition TypeError (msg : string) : Exn := mkExn "TypeError" msg.

(** [Error.prototype.toString], which a template literal applies to a
    caught error. *)
Definition exn_to_string (e : Exn) : string :=
  if decide (exn_name e = "") then exn_message e
  else if decide (exn_message e = "") then exn_name e
  else exn_name e +:+ ": " +:+ exn_message e.

(** A call either returns or throws. *)
Inductive Outcome (A : Type) : Type :=
| Ok (a : A)
| Thrown (e : Exn).
Arguments Ok {A} a.
Arguments Thrown {A} e.

Definition is_ok {A} (o : Outcome A) : bool :=
  match o with Ok _ => true | Thrown _ => false end.

(** [obj.key] for a key that is not on any prototype this program meets:
    the first field of that name on an object, [undefined] on any other
    value. Reading a property of [null] throws; the callers check for that
    first with [object_coercible] or [destructurable]. *)
Fixpoint assoc (key : string) (fields : list (string * Json)) : JsValue :=
  match fields with
  | [] => None
  | (k, v) :: rest => if decide (k = key) then Some v else assoc key rest
  end.

Definition get_prop (v : Json) (key : string) : JsValue :=
  match v with
  | JObj fields => assoc key fields
  | _ => None
  end.

(** The read [v.key] throws a TypeError on [null]. *)
Definition object_coercible (key : string) (v : Json) : Outcome unit :=
  match v with
  | JNull => Thrown (TypeError ("Cannot read properties of null (reading '" +:+ key +:+ "')"))
  | _ => Ok tt
  end.

(** So does the destructuring [const { key, ... } = args], with [key] the
    first property of the pattern. *)
Definition destructurable (key : string) (args : Json) : Outcome unit :=
  match args with
  | JNull =>
      Thrown (TypeError ("Cannot destructure property '" +:+ key +:+
                         "' of 'args' as it is null."))
  | _ => Ok tt
  end.

(** Truthiness, as [!x] and [x || y] test it. *)
Definition truthy (v : JsValue) : bool :=
  match v with
  | None | Some JNull => false
  | Some (JBool b) => b
  | Some (JNum n) => negb (n =? 0)
  | Some (JStr s) => negb (String.eqb s "")
  | Some (JArr _) | Some (JObj _) => true
  end.

(** [typeof v === 'string'] and [Array.isArray(v)] are read off the
    constructor where they are used. *)

(** ** Percent-encoding: [encodeURIComponent] on a string of UTF-8 bytes *)

Definition unreserved (c : Ascii.ascii) : bool :=
  let n := Ascii.N_of_ascii c in
  (((65 <=? n) && (n <=? 90)) || ((97 <=? n) && (n <=? 122))
   || ((48 <=? n) && (n <=? 57))
   || bool_decide (c ∈ ["-"; "_"; "."; "!"; "~"; "*"; "'"; "("; ")"]%char))%N.

Definition hex_digit (n : N) : Ascii.ascii :=
  (if n <? 10 then Ascii.ascii_of_N (48 + n) else Ascii.ascii_of_N (55 + n))%N.

Fixpoint encodeURIComponent (s : string) : string :=
  match s with
  | EmptyString => EmptyString
  | String c rest =>
      if unreserved c then String c (encodeURIComponent rest)
      else
        let n := Ascii.N_of_ascii c in
        String "%" (String (hex_digit (n / 16)) (String (hex_digit (n mod 16))
          (encodeURIComponent rest)))
  end.

(** ** The records of the program *)

(** [interface CooldownEntry] *)
Record CooldownEntry := mkCooldownEntry { userId : string; lastUsed : Z }.

Inductive Role := user_role | assistant_role | system_role.

#[global] Instance Role_eq_dec : EqDecision Role.
Proof. solve_decision. Defined.

Definition role_name (r : Role) : string :=
  match r with
  | user_role => "user"
  | assistant_role => "assistant"
  | system_role => "system"
  end.

(** One entry of the [messages] array sent to the model. *)
Record Turn := mkTurn { role : Role; content : string }.

(** [interface MessageHistory]: a row of table [message_history]. *)
Record MessageHistory := mkMessageHistory {
  id : Z;
  user_id : string;
  channel_id : string;
  row_role : Role;
  row_content : string;
  created_at : Z
}.

(** A row of table [memories]. *)
Record Memory := mkMemory {
  memory_id : Z;
  memory_user_id : string;
  keywords : string;
  memory_content : string;
  memory_created_at : Z
}.

(** The fields of a platform user and guild that the handlers read. *)
Record User := mkUser {
  user_ident : string;
  username : string;
  discriminator : string;
  avatar : JsValue;
  bot : bool
}.

Record Guild := mkGuild {
  guild_id : string;
  guild_name : string;
  guild_description : JsValue;
  memberCount : Z;
  ownerId : string;
  verificationLevel : Z;
  premiumTier : Z;
  premiumSubscriptionCount : Z
}.

(** [interface ToolExecutionContext]: the author of the inbound message and
    the channel it came from.  The methods of [message] and [client]
    ([reply], [guild], [users.fetch]) are requests to the platform. *)
Record ToolExecutionContext := mkContext {
  user : User;
  channelId : string
}.

(** [toolCall.function]: the name and the argument text the model sent. *)
Record ToolCall := mkToolCall { name : string; arguments : string }.

(** The message of [response.choices[0]]. *)
Record ChatMessage := mkChatMessage {
  message_content : option string;
  tool_calls : option (list ToolCall)
}.

(** [choices[i]]: its [message] may be missing. *)
Record Choice := mkChoice { message : option ChatMessage }.

Record ChatResponse := mkChatResponse { choices : list Choice }.

(** The argument of [chat.completions.create]: [with_tools] says that the
    [tools] catalog and [tool_choice: 'auto'] are attached. *)
Record ChatRequest := mkChatRequest {
  model : string;
  request_messages : list Turn;
  with_tools : bool
}.

(** What [fetch] resolves to: [ok], [status], and the result of [json()]. *)
Record HttpResponse := mkHttpResponse {
  http_ok : bool;
  http_status : Z;
  http_json : Outcome Json
}.

(** The statements the program sends to [Database.query]. *)
Inductive Statement :=
| INSERT_INTO_memories
| SELECT_FROM_memories
| INSERT_INTO_message_history
| SELECT_FROM_message_history
| DELETE_old_message_history
| DELETE_FROM_message_history.

(** Every request the process makes to the outside, in order. *)
Inductive Event :=
| EvLog (line : string) (detail : option Exn)
| EvNow
| EvSleep (ms : JsValue)
| EvReply (body : JsValue) (delivered : bool)
| EvGuild
| EvUsersFetch (who : JsValue)
| EvFetch (url : string)
| EvQuery (stmt : Statement) (params : list (option string))
| EvChat (req : ChatRequest).

(** The relational store: the two tables and their SERIAL sequences. *)
Record Tables := mkTables {
  message_history : list MessageHistory;
  memories : list Memory;
  message_history_id_seq : Z;
  memories_id_seq : Z
}.

(** The state a task can observe or change. *)
Record World := mkWorld {
  cooldowns : gmap string CooldownEntry;
  tables : Tables;
  trace : list Event
}.

(** The collaborators.  A field that takes a [nat] answers the request made
    when the trace has that length. *)
Record Env := mkEnv {
  (* the JavaScript runtime *)
  JSON_parse : string → Outcome Json;
  JSON_stringify : Json → string;
  ToString_object : Json → string;
  ToNumber_other : Json → option Z;
  Date_now : nat → Z;
  Intl_DateTimeFormat : JsValue → Z → Outcome string;
  toISOString : Z → string;
  snowflake_toISOString : JsValue → Outcome string;
  OPENAI_MODEL : option string;
  (* the OpenAI client *)
  chat_completions_create : nat → ChatRequest → Outcome ChatResponse;
  (* the chat platform *)
  message_reply : nat → JsValue → option Exn;
  message_guild : nat → option Guild;
  users_fetch : nat → JsValue → Outcome User;
  (* wttr.in *)
  fetch : nat → string → Outcome HttpResponse;
  (* the Postgres server and the pg driver *)
  pool_connect : nat → option Exn;
  client_query : nat → option Exn;
  CURRENT_TIMESTAMP : nat → Z;
  prepareValue : Json → string;
  ts_rank : string → string → option Z
}.

(** ** Throwing computations over the world *)

#[global] Instance Outcome_ret : MRet Outcome := λ A a, Ok a.
#[global] Instance Outcome_bind : MBind Outcome := λ A B f o,
  match o with
  | Ok a => f a
  | Thrown e => Thrown e
  end.

Definition M (A : Type) : Type := World → Outcome A * World.

#[global] Instance M_ret : MRet M := λ A a w, (Ok a, w).
#[global] Instance M_bind : MBind M := λ A B f m w,
  match m w with
  | (Ok a, w') => f a w'
  | (Thrown e, w') => (Thrown e, w')
  end.

Definition throw {A} (e : Exn) : M A := λ w, (Thrown e, w).

Definition lift {A} (o : Outcome A) : M A := λ w, (o, w).

(** [try { body } catch (e) { handler }]: what [body] did to the world
    before it threw stays done. *)
Definition try_catch {A} (body : M A) (handler : Exn → M A) : M A := λ w,
  match body w with
  | (Ok a, w') => (Ok a, w')
  | (Thrown e, w') => handler e w'
  end.

(** The world after one more request. *)
Definition with_event (w : World) (e : Event) : World :=
  mkWorld (cooldowns w) (tables w) (trace w ++ [e]).

Definition emit (e : Event) : M unit := λ w, (Ok tt, with_event w e).

(** The position of the next request. *)
Definition tick : M nat := λ w, (Ok (length (trace w)), w).

Definition get_cooldown (key : string) : M (option CooldownEntry) := λ w,
  (Ok (cooldowns w !! key), w).

Definition set_cooldown (key : string) (entry : CooldownEntry) : M unit := λ w,
  (Ok tt, mkWorld (<[key := entry]> (cooldowns w)) (tables w) (trace w)).

(** The server runs a statement on the tables. *)
Definition on_tables {A} (run : Tables → Outcome A * Tables) : M A := λ w,
  let '(result, t) := run (tables w) in
  (result, mkWorld (cooldowns w) t (trace w)).

(** The contents the platform accepted, in the order they were sent. *)
Definition sent (events : list Event) : list JsValue :=
  omap (λ e, match e with EvReply body true => Some body | _ => None end) events.

(** An object literal; a property whose value is [undefined] is left out,
    as [JSON.stringify] leaves it out. *)
Definition object (fields : list (string * JsValue)) : Json :=
  JObj (omap (λ kv, (λ v, (kv.1, v)) <$> kv.2) fields).

(** ** The statements, over the tables

    A statement runs against the tables at the server's CURRENT_TIMESTAMP
    and either answers or is rejected. A parameter is SQL text or NULL. *)

Definition Sql (A : Type) : Type := Z → Tables → Outcome A * Tables.

Definition not_null_violation (column : string) : Exn :=
  mkExn "error" ("null value in column " +:+ column +:+ " violates not-null constraint").

(** [WHERE user_id = $1 AND channel_id = $2] *)
Definition same_pair (u c : string) (r : MessageHistory) : Prop :=
  user_id r = u ∧ channel_id r = c.

#[global] Instance same_pair_dec u c r : Decision (same_pair u c r).
Proof. unfold same_pair. apply _. Defined.

(** [ORDER BY created_at DESC]: [a] may come before [b]. SQL leaves the
    order of rows with equal keys to the server; the model takes the one
    merge sort produces. *)
Definition newer (a b : MessageHistory) : Prop := created_at b ≤ created_at a.

#[global] Instance newer_dec a b : Decision (newer a b).
Proof. unfold newer. apply _. Defined.

(** [SELECT ... WHERE user_id = $1 AND channel_id = $2
     ORDER BY created_at DESC LIMIT $3], on the rows of the table. *)
Definition most_recent (u c : string) (limit : nat) (rows : list MessageHistory)
  : list MessageHistory :=
  take limit (merge_sort newer (filter (same_pair u c) rows)).

Definition set_message_history (t : Tables) (rows : list MessageHistory) (seq : Z) : Tables :=
  mkTables rows (memories t) seq (memories_id_seq t).

(** [INSERT INTO message_history (user_id, channel_id, role, content)
     VALUES ($1, $2, $3, $4)]: [id] from the sequence, [created_at] from
    the server's clock; [content TEXT NOT NULL]. The sequence value a
    rejected INSERT uses up is not modelled. *)
Definition insert_message_history (u c : string) (r : Role) (text : option string)
  : Sql unit := λ timestamp t,
  match text with
  | None => (Thrown (not_null_violation "content"), t)
  | Some text =>
      (Ok tt,
       set_message_history t
         (message_history t ++
            [mkMessageHistory (message_history_id_seq t) u c r text timestamp])
         (message_history_id_seq t + 1))
  end.

Definition select_message_history (u c : string) (limit : nat)
  : Sql (list MessageHistory) := λ _ t,
  (Ok (most_recent u c limit (message_history t)), t).

(** [DELETE FROM message_history WHERE user_id = $1 AND channel_id = $2
     AND id NOT IN (SELECT id ... ORDER BY created_at DESC LIMIT $3)] *)
Definition delete_old_message_history (u c : string) (keepLast : nat)
  : Sql unit := λ _ t,
  let kept := id <$> most_recent u c keepLast (message_history t) in
  (Ok tt,
   set_message_history t
     (filter (λ r, ¬ (same_pair u c r ∧ id r ∉ kept)) (message_history t))
     (message_history_id_seq t)).

(** [DELETE FROM message_history WHERE user_id = $1 AND channel_id = $2];
    the answer is [rowCount]. *)
Definition delete_message_history (u c : string) : Sql Z := λ _ t,
  (Ok (Z.of_nat (length (filter (same_pair u c) (message_history t)))),
   set_message_history t
     (filter (λ r, ¬ same_pair u c r) (message_history t))
     (message_history_id_seq t)).

(** [INSERT INTO memories (user_id, keywords, content) VALUES ($1, $2, $3)
     RETURNING id]; all three columns are NOT NULL. *)
Definition insert_memory (u kw text : option string) : Sql Z := λ timestamp t,
  match u, kw, text with
  | None, _, _ => (Thrown (not_null_violation "user_id"), t)
  | _, None, _ => (Thrown (not_null_violation "keywords"), t)
  | _, _, None => (Thrown (not_null_violation "content"), t)
  | Some u, Some kw, Some text =>
      (Ok (memories_id_seq t),
       mkTables (message_history t)
         (memories t ++ [mkMemory (memories_id_seq t) u kw text timestamp])
         (message_history_id_seq t) (memories_id_seq t + 1))
  end.

(** [ORDER BY ts_rank(...) DESC] on rows paired with their rank. *)
Definition better_rank (a b : Z * Memory) : Prop := b.1 ≤ a.1.

#[global] Instance better_rank_dec a b : Decision (better_rank a b).
Proof. unfold better_rank. apply _. Defined.

(** [SELECT * FROM memories WHERE user_id = $1 AND to_tsvector(keywords) @@
     plainto_tsquery($2) ORDER BY ts_rank(...) DESC LIMIT 5]. [rank] is the
    server's text search: the rank of a row's keywords against the query, or
    [None] when they do not match. A NULL parameter matches no row. *)
Definition select_memories (rank : string → string → option Z) (u q : option string)
  : Sql (list Memory) := λ _ t,
  match u, q with
  | Some u, Some q =>
      let matching :=
        omap (λ m, if decide (memory_user_id m = u)
                   then (λ r, (r, m)) <$> rank (keywords m) q else None)
             (memories t) in
      (Ok (snd <$> take 5 (merge_sort better_rank matching)), t)
  | _, _ => (Ok [], t)
  end.

(** ** The methods of [WeyraAI] and [Database] *)

Section Program.
Context (env : Env).

Definition logger_error (line : string) (error : Exn) : M unit :=
  emit (EvLog line (Some error)).

(** [Date.now()] *)
Definition now : M Z :=
  n ← tick; emit EvNow;; mret (Date_now env n).

(** [await new Promise(resolve => setTimeout(resolve, ms))] *)
Definition setTimeout (ms : Json) : M unit := emit (EvSleep (Some ms)).

(** [await context.message.reply({ content })] *)
Definition reply (body : JsValue) : M unit :=
  n ← tick;
  match message_reply env n body with
  | None => emit (EvReply body true)
  | Some error => emit (EvReply body false);; throw error
  end.

(** How the pg driver passes a parameter: [undefined] and [null] as NULL,
    a string as itself, a number or a boolean by its [toString()], an array
    or an object as the driver serializes it. *)
Definition pg_param (v : JsValue) : option string :=
  match v with
  | None | Some JNull => None
  | Some (JStr s) => Some s
  | Some (JNum n) => Some (pretty n)
  | Some (JBool b) => Some (if b then "true" else "false")
  | Some j => Some (prepareValue env j)
  end.

(** [Database.query(text, params)]: take a client from the pool, run the
    statement, log and rethrow what the statement throws. *)
Definition Database_query {A} (stmt : Statement) (params : list (option string))
    (run : Sql A) : M A :=
  n ← tick;
  emit (EvQuery stmt params);;
  match pool_connect env n with
  | Some error => throw error
  | None =>
      try_catch
        (match client_query env n with
         | Some error => throw error
         | None => on_tables (run (CURRENT_TIMESTAMP env n))
         end)
        (λ error, logger_error "Database query error:" error;; throw error)
  end.

Definition saveMessageToHistory (userId channelId : string) (r : Role)
    (text : JsValue) : M unit :=
  try_catch
    (Database_query INSERT_INTO_message_history
       [Some userId; Some channelId; Some (role_name r); pg_param text]
       (insert_message_history userId channelId r (pg_param text)))
    (λ error, logger_error "Save message to history error:" error).

Definition getMessageHistory (userId channelId : string) (limit : nat)
    : M (list MessageHistory) :=
  try_catch
    (rows ← Database_query SELECT_FROM_message_history
              [Some userId; Some channelId; Some (pretty limit)]
              (select_message_history userId channelId limit);
     mret (reverse rows))
    (λ error, logger_error "Get message history error:" error;; mret []).

Definition cleanOldHistory (userId channelId : string) (keepLast : nat) : M unit :=
  try_catch
    (Database_query DELETE_old_message_history
       [Some userId; Some channelId; Some (pretty keepLast)]
       (delete_old_message_history userId channelId keepLast))
    (λ error, logger_error "Clean old history error:" error).

(** *** Conversions the handlers rely on *)

(** [String(v)], as a template literal applies it. *)
Definition ToString (v : JsValue) : string :=
  match v with
  | None => "undefined"
  | Some JNull => "null"
  | Some (JBool true) => "true"
  | Some (JBool false) => "false"
  | Some (JNum n) => pretty n
  | Some (JStr s) => s
  | Some j => ToString_object env j
  end.

(** [Number(v)]; [None] is NaN. *)
Definition ToNumber (v : JsValue) : option Z :=
  match v with
  | None => None
  | Some JNull => Some 0
  | Some (JBool b) => Some (if b then 1 else 0)
  | Some (JNum n) => Some n
  | Some j => ToNumber_other env j
  end.

(** [v > 0] *)
Definition gt_zero (v : JsValue) : bool :=
  match ToNumber v with
  | Some n => bool_decide (0 < n)
  | None => false
  end.

(** [a || b] *)
Definition js_or (a : JsValue) (b : Json) : Json :=
  match a with
  | Some j => if truthy a then j else b
  | None => b
  end.

(** [Math.ceil(a / 1000)] on integers: the quotient of two integers is
    within rounding of the exact one, far less than its distance to the
    next integer. *)
Definition ceil_div_1000 (a : Z) : Z := - ((- a) / 1000).

(** *** reply_to_user *)

Record NormalizedMessage := mkNormalized { msg_content : JsValue; cooldown : Json }.

(** [index > 0 ? 1000 : 0] *)
Definition default_cooldown (index : nat) : Z :=
  if decide (0 < index)%nat then 1000 else 0.

(** The callback of [messages.map] (lines 369-378). *)
Definition normalize_entry (msg : Json) (index : nat) : Outcome NormalizedMessage :=
  match msg with
  | JStr _ => Ok (mkNormalized (Some msg) (JNum (default_cooldown index)))
  | _ =>
      object_coercible "content" msg;;
      mret (mkNormalized (get_prop msg "content")
              (js_or (get_prop msg "cooldown") (JNum (default_cooldown index))))
  end.

Fixpoint normalize_from (index : nat) (items : list Json)
    : Outcome (list NormalizedMessage) :=
  match items with
  | [] => mret []
  | msg :: rest =>
      entry ← normalize_entry msg index;
      entries ← normalize_from (S index) rest;
      mret (entry :: entries)
  end.

(** Lines 361-381: a string, an array, or an error. *)
Definition normalize (messages : JsValue) : Outcome (list NormalizedMessage) :=
  match messages with
  | Some (JStr s) => Ok [mkNormalized (Some (JStr s)) (JNum 0)]
  | Some (JArr items) => normalize_from 0 items
  | _ => Thrown (Error "Messages must be a string or array of message objects")
  end.

Definition globalCooldown : Z := 2000.

Definition cooldownKey (uid : string) : string := "reply_" +:+ uid.

Definition wait_message (seconds : Z) : string :=
  "Please wait " +:+ pretty seconds +:+
  " seconds before sending multiple messages again.".

(** Lines 383-394: the gate on replies of more than one message. *)
Definition check_cooldown (uid : string) (normalizedMessages : list NormalizedMessage)
    : M unit :=
  if decide (1 < length normalizedMessages)%nat then
    last ← get_cooldown (cooldownKey uid);
    match last with
    | Some entry =>
        t ← now;
        if decide (t - lastUsed entry < globalCooldown) then
          t' ← now;
          throw (Error (wait_message
                   (ceil_div_1000 (globalCooldown - (t' - lastUsed entry)))))
        else mret tt
    | None => mret tt
    end;;
    t ← now;
    set_cooldown (cooldownKey uid) (mkCooldownEntry uid t)
  else mret tt.

Definition sent_status (i : nat) (c : Json) : Json :=
  JStr ("Message " +:+ pretty (i + 1)%nat +:+ " sent successfully (cooldown: "
        +:+ ToString (Some c) +:+ "ms)").

(** Lines 403-415: the loop from index [i] on, [results] so far. *)
Fixpoint send_from (context : ToolExecutionContext) (i : nat)
    (normalizedMessages : list NormalizedMessage) (results : list Json)
    : M (list Json) :=
  match normalizedMessages with
  | [] => mret results
  | entry :: rest =>
      (if bool_decide (0 < i)%nat && gt_zero (Some (cooldown entry))
       then setTimeout (cooldown entry) else mret tt);;
      reply (msg_content entry);;
      saveMessageToHistory (user_ident (user context)) (channelId context)
        assistant_role (msg_content entry);;
      send_from context (S i) rest (results ++ [sent_status i (cooldown entry)])
  end.

(** Lines 396-421. *)
Definition deliver (timeout : Json) (normalizedMessages : list NormalizedMessage)
    (context : ToolExecutionContext) : M Json :=
  try_catch
    ((if gt_zero (Some timeout) then setTimeout timeout else mret tt);;
     results ← send_from context 0 normalizedMessages [];
     mret (object [("success", Some (JBool true));
                   ("messages_sent", Some (JNum (Z.of_nat (length normalizedMessages))));
                   ("results", Some (JArr results))]))
    (λ error, logger_error "Reply error:" error;; throw error).

Definition replyToUser (args : Json) (context : ToolExecutionContext) : M Json :=
  lift (destructurable "messages" args);;
  let messages := get_prop args "messages" in
  let timeout := default (JNum 0) (get_prop args "timeout") in
  normalizedMessages ← lift (normalize messages);
  check_cooldown (user_ident (user context)) normalizedMessages;;
  deliver timeout normalizedMessages context.

(** *** get_memory and save_memory *)

Definition memory_row (m : Memory) : Json :=
  object [("id", Some (JNum (memory_id m)));
          ("user_id", Some (JStr (memory_user_id m)));
          ("keywords", Some (JStr (keywords m)));
          ("content", Some (JStr (memory_content m)));
          ("created_at", Some (JStr (toISOString env (memory_created_at m))))].

(** [user_id = context.user.id] in a destructuring pattern: the default
    applies to [undefined] only. *)
Definition user_id_or_current (args : Json) (context : ToolExecutionContext) : JsValue :=
  match get_prop args "user_id" with
  | None => Some (JStr (user_ident (user context)))
  | given => given
  end.

Definition getMemory (args : Json) (context : ToolExecutionContext) : M Json :=
  lift (destructurable "keywords" args);;
  let kw := get_prop args "keywords" in
  let uid := user_id_or_current args context in
  try_catch
    (rows ← Database_query SELECT_FROM_memories [pg_param uid; pg_param kw]
              (select_memories (ts_rank env) (pg_param uid) (pg_param kw));
     mret (object [("found", Some (JBool (bool_decide (0 < length rows)%nat)));
                   ("memories", Some (JArr (memory_row <$> rows)));
                   ("search_keywords", kw)]))
    (λ error, logger_error "Get memory error:" error;; throw error).

(** [content.length]: the length of a string (in bytes here) or of an
    array, [undefined] on other values, a TypeError on [null] and
    [undefined]. *)
Definition length_of (v : JsValue) : Outcome JsValue :=
  match v with
  | None => Thrown (TypeError "Cannot read properties of undefined (reading 'length')")
  | Some JNull => Thrown (TypeError "Cannot read properties of null (reading 'length')")
  | Some (JStr s) => Ok (Some (JNum (Z.of_nat (String.length s))))
  | Some (JArr items) => Ok (Some (JNum (Z.of_nat (length items))))
  | Some _ => Ok None
  end.

Definition saveMemory (args : Json) (context : ToolExecutionContext) : M Json :=
  lift (destructurable "keywords" args);;
  let kw := get_prop args "keywords" in
  let text := get_prop args "content" in
  let uid := user_id_or_current args context in
  try_catch
    (new_id ← Database_query INSERT_INTO_memories
                [pg_param uid; pg_param kw; pg_param text]
                (insert_memory (pg_param uid) (pg_param kw) (pg_param text));
     content_length ← lift (length_of text);
     mret (object [("success", Some (JBool true));
                   ("memory_id", Some (JNum new_id));
                   ("keywords", kw);
                   ("content_length", content_length)]))
    (λ error, logger_error "Save memory error:" error;; throw error).

(** *** get_user_info and get_server_info *)

(** [v === s] for a string [s] *)
Definition is_string (v : JsValue) (s : string) : bool :=
  match v with
  | Some (JStr s') => bool_decide (s' = s)
  | _ => false
  end.

Definition getUserInfo (args : Json) (context : ToolExecutionContext) : M Json :=
  lift (destructurable "user_id" args);;
  let uid := user_id_or_current args context in
  try_catch
    (who ← (if is_string uid (user_ident (user context))
            then mret (user context)
            else n ← tick; emit (EvUsersFetch uid);; lift (users_fetch env n uid));
     born ← lift (snowflake_toISOString env (Some (JStr (user_ident who))));
     mret (object [("id", Some (JStr (user_ident who)));
                   ("username", Some (JStr (username who)));
                   ("discriminator", Some (JStr (discriminator who)));
                   ("avatar", avatar who);
                   ("bot", Some (JBool (bot who)));
                   ("created_at", Some (JStr born))]))
    (λ error, logger_error "Get user info error:" error;; throw error).

Definition getServerInfo (context : ToolExecutionContext) : M Json :=
  try_catch
    (n ← tick;
     emit EvGuild;;
     match message_guild env n with
     | None => throw (Error "This command can only be used in a server")
     | Some guild =>
         born ← lift (snowflake_toISOString env (Some (JStr (guild_id guild))));
         mret (object [("id", Some (JStr (guild_id guild)));
                       ("name", Some (JStr (guild_name guild)));
                       ("description", guild_description guild);
                       ("member_count", Some (JNum (memberCount guild)));
                       ("created_at", Some (JStr born));
                       ("owner_id", Some (JStr (ownerId guild)));
                       ("verification_level", Some (JNum (verificationLevel guild)));
                       ("boost_level", Some (JNum (premiumTier guild)));
                       ("boost_count", Some (JNum (premiumSubscriptionCount guild)))])
     end)
    (λ error, logger_error "Get server info error:" error;; throw error).

(** *** get_time and get_weather *)

Definition getTime (args : Json) : M Json :=
  lift (destructurable "timezone" args);;
  let timezone := get_prop args "timezone" in
  try_catch
    (t ← now;
     timeInTimezone ← lift (Intl_DateTimeFormat env timezone t);
     mret (object [("timezone", timezone);
                   ("current_time", Some (JStr timeInTimezone));
                   ("utc_time", Some (JStr (toISOString env t)));
                   ("timestamp", Some (JNum t))]))
    (λ error, logger_error "Get time error:" error;; throw error).

Definition wttr_url (city : JsValue) : string :=
  "https://wttr.in/" +:+ encodeURIComponent (ToString city) +:+ "?format=j1".

(** [data.key[0]] *)
Definition first_of (data : Json) (key : string) : Outcome JsValue :=
  object_coercible key data;;
  match get_prop data key with
  | None => Thrown (TypeError "Cannot read properties of undefined (reading '0')")
  | Some JNull => Thrown (TypeError "Cannot read properties of null (reading '0')")
  | Some (JArr items) => Ok (head items)
  | Some (JStr (String c _)) => Ok (Some (JStr (String c EmptyString)))
  | Some _ => Ok None
  end.

Definition getWeather (args : Json) : M Json :=
  lift (destructurable "city" args);;
  let city := get_prop args "city" in
  try_catch
    (n ← tick;
     emit (EvFetch (wttr_url city));;
     response ← lift (fetch env n (wttr_url city));
     if negb (http_ok response)
     then throw (Error ("wttr.in error: " +:+ pretty (http_status response)))
     else
       data ← lift (http_json response);
       current_condition ← lift (first_of data "current_condition");
       weather ← lift (first_of data "weather");
       nearest_area ← lift (first_of data "nearest_area");
       mret (object [("city", city);
                     ("current_condition", current_condition);
                     ("weather", weather);
                     ("nearest_area", nearest_area)]))
    (λ error, logger_error "weather error:" error;; throw error).

(** *** clear_history *)

Definition clearHistory (args : Json) (context : ToolExecutionContext) : M Json :=
  lift (destructurable "confirm" args);;
  let confirm := get_prop args "confirm" in
  let uid := user_ident (user context) in
  let cid := channelId context in
  if negb (truthy confirm)
  then throw (Error "History clearing requires confirmation")
  else
    try_catch
      (rowCount ← Database_query DELETE_FROM_message_history [Some uid; Some cid]
                    (delete_message_history uid cid);
       mret (object [("success", Some (JBool true));
                     ("messages_deleted",
                      Some (JNum (if decide (rowCount = 0) then 0 else rowCount)));
                     ("user_id", Some (JStr uid));
                     ("channel_id", Some (JStr cid))]))
      (λ error, logger_error "Clear history error:" error;; throw error).

(** *** The dispatcher *)

Definition executeTool (toolCall : ToolCall) (context : ToolExecutionContext) : M Json :=
  parsedArgs ← lift (JSON_parse env (arguments toolCall));
  if decide (name toolCall = "reply_to_user") then replyToUser parsedArgs context
  else if decide (name toolCall = "get_memory") then getMemory parsedArgs context
  else if decide (name toolCall = "save_memory") then saveMemory parsedArgs context
  else if decide (name toolCall = "get_user_info") then getUserInfo parsedArgs context
  else if decide (name toolCall = "get_time") then getTime parsedArgs
  else if decide (name toolCall = "get_weather") then getWeather parsedArgs
  else if decide (name toolCall = "get_server_info") then getServerInfo context
  else if decide (name toolCall = "clear_history") then clearHistory parsedArgs context
  else throw (Error ("Unknown tool: " +:+ name toolCall)).

(** *** The model-invocation loop *)

(** [s || ''] *)
Definition or_empty (s : option string) : string := default "" s.

Definition executed_turn (toolCall : ToolCall) (result : Json) : Turn :=
  mkTurn system_role
    ("Tool " +:+ name toolCall +:+ " executed with result: " +:+ JSON_stringify env result).

Definition failed_turn (toolCall : ToolCall) (toolError : Exn) : Turn :=
  mkTurn system_role
    ("Tool " +:+ name toolCall +:+ " failed: " +:+ exn_to_string toolError).

(** The body of the loop over [tool_calls] (lines 290-307); [messages] is
    the array the loop pushes onto. *)
Definition tool_step (original : ChatMessage) (context : ToolExecutionContext)
    (messages : list Turn) (toolCall : ToolCall) : M (list Turn) :=
  try_catch
    (result ← executeTool toolCall context;
     mret (messages ++ [mkTurn assistant_role (or_empty (message_content original));
                        executed_turn toolCall result]))
    (λ toolError,
       logger_error ("Tool execution error for " +:+ name toolCall +:+ ":") toolError;;
       mret (messages ++ [failed_turn toolCall toolError])).

Fixpoint tool_loop (original : ChatMessage) (context : ToolExecutionContext)
    (messages : list Turn) (calls : list ToolCall) : M (list Turn) :=
  match calls with
  | [] => mret messages
  | toolCall :: rest =>
      messages' ← tool_step original context messages toolCall;
      tool_loop original context messages' rest
  end.

Definition model_name : string := default "gpt-4o-mini" (OPENAI_MODEL env).

(** [await this.client.chat.completions.create(request)] *)
Definition create (request : ChatRequest) : M ChatResponse :=
  n ← tick;
  emit (EvChat request);;
  lift (chat_completions_create env n request).

(** [response.choices[0]?.message] *)
Definition first_message (response : ChatResponse) : option ChatMessage :=
  head (choices response) ≫= message.

Definition generateResponse (messages : list Turn)
    (context : option ToolExecutionContext) : M string :=
  try_catch
    (response ← create (mkChatRequest model_name messages true);
     match first_message response with
     | None => throw (Error "No response from OpenAI")
     | Some original =>
         match tool_calls original, context with
         | Some calls, Some ctx =>
             messages' ← tool_loop original ctx messages calls;
             finalResponse ← create (mkChatRequest model_name messages' false);
             mret (or_empty (first_message finalResponse ≫= message_content))
         | _, _ => mret (or_empty (message_content original))
         end
     end)
    (λ error, logger_error "generateResponse error:" error;; throw error).

End Program.

(** ** The catalog and a concrete environment *)

(** The eight names of [initializeTools], in the order of the switch in
    [executeTool]. *)
Definition catalog : list string :=
  ["reply_to_user"; "get_memory"; "save_memory"; "get_user_info";
   "get_time"; "get_weather"; "get_server_info"; "clear_history"].

Definition is_chat (e : Event) : Prop :=
  match e with EvChat _ => True | _ => False end.

#[global] Instance is_chat_dec e : Decision (is_chat e).
Proof. destruct e; simpl; apply _. Defined.



(** A run of [saveMessageToHistory] per turn, in order. *)
Fixpoint append_all (env : Env) (userId channelId : string)
    (turns : list Turn) : M unit :=
  match turns with
  | [] => mret tt
  | turn :: rest =>
      saveMessageToHistory env userId channelId (role turn) (Some (JStr (content turn)));;
      append_all env userId channelId rest
  end.

(** PRIMARY KEY (id): no two rows of [message_history] share an [id]. *)
Definition primary_key (t : Tables) : Prop := NoDup (id <$> message_history t).

Module Sample.

Definition dq : string := String "034"%char EmptyString.

Definition quoted (s : string) : string := dq +:+ s +:+ dq.

(** A printer for results; it does not escape. *)
Fixpoint stringify (j : Json) : string :=
  match j with
  | JNull => "null"
  | JBool true => "true"
  | JBool false => "false"
  | JNum n => pretty n
  | JStr s => quoted s
  | JArr items =>
      "[" +:+ String.concat "," (map stringify items) +:+ "]"
  | JObj fields =>
      "{" +:+ String.concat ","
                (map (λ kv, quoted (fst kv) +:+ ":" +:+ stringify (snd kv)) fields)
          +:+ "}"
  end.

(** The argument texts the examples use, and what they parse to. *)
Definition empty_object : string := "{}".

Definition field (key value : string) : string :=
  "{" +:+ quoted key +:+ ":" +:+ value +:+ "}".

Definition confirm_true : string := field "confirm" "true".

Definition confirm_false : string := field "confirm" "false".

Definition messages_abc : string :=
  field "messages" ("[" +:+ quoted "a" +:+ "," +:+ quoted "b" +:+ "," +:+ quoted "c" +:+ "]").

Definition messages_zero_cooldown : string :=
  field "messages"
    ("[" +:+ field "content" (quoted "a") +:+ ",{" +:+ quoted "content" +:+ ":"
     +:+ quoted "b" +:+ "," +:+ quoted "cooldown" +:+ ":0}]").

Definition payloads : list (string * Json) :=
  [(empty_object, JObj []);
   (confirm_true, JObj [("confirm", JBool true)]);
   (confirm_false, JObj [("confirm", JBool false)]);
   (messages_abc, JObj [("messages", JArr [JStr "a"; JStr "b"; JStr "c"])]);
   (messages_zero_cooldown,
    JObj [("messages",
           JArr [JObj [("content", JStr "a")];
                 JObj [("content", JStr "b"); ("cooldown", JNum 0)]])])].

Definition parse (text : string) : Outcome Json :=
  match assoc text payloads with
  | Some j => Ok j
  | None => Thrown (mkExn "SyntaxError" "Unexpected token in JSON")
  end.

(** Everything answers; the clocks advance by one per request; the model
    is [script]; the platform refuses the sends numbered in [refused]. *)
Definition env (script : ChatRequest → Outcome ChatResponse)
    (refused : list nat) : Env :=
  {| JSON_parse := parse;
     JSON_stringify := stringify;
     ToString_object := stringify;
     ToNumber_other := λ _, None;
     Date_now := λ n, 1700000000000 + Z.of_nat n;
     Intl_DateTimeFormat := λ _ t, Ok (pretty t);
     toISOString := pretty;
     snowflake_toISOString := λ v, Ok "2020-01-01T00:00:00.000Z";
     OPENAI_MODEL := None;
     chat_completions_create := λ _, script;
     message_reply := λ n _,
       if bool_decide (n ∈ refused) then Some (Error "Missing Access") else None;
     message_guild := λ _, None;
     users_fetch := λ _ _, Thrown (Error "Unknown User");
     fetch := λ _ _, Ok (mkHttpResponse false 404 (Thrown (Error "no body")));
     pool_connect := λ _, None;
     client_query := λ _, None;
     CURRENT_TIMESTAMP := λ n, 1700000000000 + Z.of_nat n;
     prepareValue := stringify;
     ts_rank := λ kw q, if decide (kw = q) then Some 1 else None |}.

Definition says (text : string) (calls : option (list ToolCall)) : ChatResponse :=
  mkChatResponse [mkChoice (Some (mkChatMessage (Some text) calls))].

(** A model that asks for [calls] when given the tools and says "done"
    when not. *)
Definition asks (calls : option (list ToolCall)) (request : ChatRequest)
    : Outcome ChatResponse :=
  if with_tools request then Ok (says "thinking" calls) else Ok (says "done" None).

Definition alice : ToolExecutionContext :=
  mkContext (mkUser "42" "alice" "0001" None false) "general".

Definition empty_tables : Tables := mkTables [] [] 1 1.

Definition start : World := mkWorld ∅ empty_tables [].

Definition hello : list Turn := [mkTurn user_role "hello"].

Definition ten_turns : list Turn :=
  (λ n, mkTurn user_role ("turn " +:+ pretty n)) <$> seq 1 10.

End Sample.

(** ** What the properties speak of *)

(** [R] relates the world before a step to the world after it. A frame is
    a preorder that holds across every request other than a model request
    and across every change of the tables. *)
Class Frame (R : relation World) : Prop := {
  frame_preorder :: PreOrder R;
  frame_emit : ∀ e w, ¬ is_chat e → R w (emit e w).2;
  frame_tables : ∀ w t, R w (mkWorld (cooldowns w) t (trace w))
}.

(** A frame that also allows writing the cooldown map. *)
Class CooldownFrame (R : relation World) : Prop := {
  cooldown_frame :: Frame R;
  frame_cooldowns : ∀ w c, R w (mkWorld c (tables w) (trace w))
}.

(** [m] keeps [R], whether it returns or throws. *)
Definition respects (R : relation World) {A} (m : M A) : Prop :=
  ∀ w, R w (m w).2.

(** No request to the model is made. *)
Definition no_chat (w w' : World) : Prop :=
  filter is_chat (trace w') = filter is_chat (trace w).

(** The cooldown map is left as it was. *)
Definition same_cooldowns (w w' : World) : Prop := cooldowns w' = cooldowns w.

(** The time the gate records when it admits a reply, and the world it
    leaves: the last of its clock reads, which are all it does besides the
    write to the map. *)
Definition admitted_at (env : Env) (uid : string) (w : World) : Z :=
  match cooldowns w !! cooldownKey uid with
  | Some _ => Date_now env (S (length (trace w)))
  | None => Date_now env (length (trace w))
  end.

Definition admitted (env : Env) (uid : string) (w : World) : World :=
  mkWorld
    (<[cooldownKey uid := mkCooldownEntry uid (admitted_at env uid w)]> (cooldowns w))
    (tables w)
    (trace w ++ match cooldowns w !! cooldownKey uid with
                | Some _ => [EvNow; EvNow]
                | None => [EvNow]
                end).

(** The pool hands out a client and the server answers the request made at
    this position of the trace. *)
Definition store_answers (env : Env) (n : nat) : Prop :=
  pool_connect env n = None ∧ client_query env n = None.

(** Ascending by [created_at]: the order [getMessageHistory] returns. *)
Definition older_first (a b : MessageHistory) : Prop := created_at a ≤ created_at b.

(** The rows that a run of [append_all] from [w] adds when the store
    answers: ids from the sequence, timestamps from the server's clock at
    the successive requests. *)
Definition appended (env : Env) (u c : string) (turns : list Turn) (w : World)
    : list MessageHistory :=
  imap (λ i turn,
          mkMessageHistory (message_history_id_seq (tables w) + Z.of_nat i) u c
            (role turn) (content turn)
            (CURRENT_TIMESTAMP env (length (trace w) + i)))
       turns.

Definition insert_event (u c : string) (turn : Turn) : Event :=
  EvQuery INSERT_INTO_message_history
    [Some u; Some c; Some (role_name (role turn)); Some (content turn)].

(** SERIAL: the sequence is ahead of every id it has handed out. With the
    primary key this is what every statement of the program keeps. *)
Definition key_invariant (t : Tables) : Prop :=
  primary_key t ∧
  Forall (λ r, id r < message_history_id_seq t) (message_history t).

(** The trace only grows. *)
Definition extends (w w' : World) : Prop := ∃ rest, trace w' = trace w ++ rest.

(** A reply, delivered or refused. *)
Definition is_reply (e : Event) : Prop :=
  match e with EvReply _ _ => True | _ => False end.

(** Neither a reply nor a model request. *)
Definition quiet (e : Event) : Prop := ¬ is_reply e ∧ ¬ is_chat e.

(** What a step may do to the world: the tables change by [T], the
    cooldown map by [C], the trace grows, and each request made is one
    that [E] allows. *)
Definition within (T : relation Tables) (C : relation (gmap string CooldownEntry))
    (E : Event → Prop) (w w' : World) : Prop :=
  T (tables w) (tables w') ∧ C (cooldowns w) (cooldowns w') ∧
  ∃ rest, trace w' = trace w ++ rest ∧ Forall E rest.

(** The history of every other (user, channel) pair is as it was. *)
Definition other_pairs_kept (u c : string) (t t' : Tables) : Prop :=
  ∀ u' c', (u', c') ≠ (u, c) →
    filter (same_pair u' c') (message_history t') =
    filter (same_pair u' c') (message_history t).

(** The memories are all there, in place; new ones come after them. *)
Definition memories_grow (t t' : Tables) : Prop :=
  memories t `prefix_of` memories t'.

(** SERIAL PRIMARY KEY on [memories]. *)
Definition memories_key_invariant (t : Tables) : Prop :=
  NoDup (memory_id <$> memories t) ∧
  Forall (λ m, memory_id m < memories_id_seq t) (memories t).

Definition keeps_keys (t t' : Tables) : Prop :=
  (key_invariant t → key_invariant t') ∧
  (memories_key_invariant t → memories_key_invariant t').

(** Every entry of the map under another key is as it was. *)
Definition other_keys_kept (key : string) (m m' : gmap string CooldownEntry) : Prop :=
  ∀ k, k ≠ key → m' !! k = m !! k.

(** The tools that write: to the platform and the cooldown map, to the
    memories, to the history. *)
Definition same_history (t t' : Tables) : Prop :=
  message_history t' = message_history t ∧
  message_history_id_seq t' = message_history_id_seq t.

Definition same_memories (t t' : Tables) : Prop :=
  memories t' = memories t ∧ memories_id_seq t' = memories_id_seq t.

(** A world for the examples: bob and alice have both talked in the
    channel, alice has a memory and bob has just sent a multi-message
    reply. *)
Definition two_conversations : World :=
  mkWorld
    {[ cooldownKey "7" := mkCooldownEntry "7" 1699999990000 ]}
    (mkTables
       [mkMessageHistory 1 "7" "general" user_role "hi" 1699999990000;
        mkMessageHistory 2 "42" "general" user_role "hello" 1699999995000]
       [mkMemory 1 "42" "birthday" "March 3rd" 1699999996000]
       3 2)
    [].

(** [a] ranks no worse than [b] against the query. *)
Definition no_worse (rank : string → string → option Z) (q : string) (a b : Memory) : Prop :=
  ∀ ra rb, rank (keywords a) q = Some ra → rank (keywords b) q = Some rb → rb ≤ ra.

(** ** The message handler and the [messageCreate] event

    What the handler needs beyond the tools: the regular expressions and
    [trim] of the runtime, the awaited guild of the message, the typing
    indicator, [Math.random], the console, and the table of active
    channels. A field that takes a [nat] answers the request made when that
    many requests have been made. *)

(** A compiled regular expression: [test(s)], and [s.replace(re, by)],
    which without the [g] flag replaces the first match. *)
Record RegExp := mkRegExp {
  regex_test : string → bool;
  regex_replace : string → string → string
}.

(** What the program reads of an inbound message: [content], [author],
    [channelId], [channel?.name], [referencedMessage?.author.id] and the
    ids of [mentions.users] (none when [mentions] is missing). *)
Record Message := mkMessage {
  inbound_content : string;
  author : User;
  message_channelId : string;
  channel_name : option string;
  referenced_author : option string;
  mentioned : list string
}.

Inductive ChannelStatement :=
| CREATE_TABLE_active_channels
| UPSERT_active_channels
| SELECT_FROM_active_channels.

(** The requests of the handler that are not requests of the tools. *)
Inductive HostEvent :=
| HvTyping (channel : string)
| HvRandom
| HvConsoleError (line : string) (detail : Exn)
| HvChannelQuery (stmt : ChannelStatement) (params : list string).

Record Host := mkHost {
  botId : string;
  aiPrompt : string;
  new_RegExp : string → string → Outcome RegExp;
  String_trim : string → string;
  awaited_guild : nat → Outcome (option Guild);
  channels_typing : nat → option Exn;
  (* [Math.random()], as V8 draws it: the numerator of the double, over 2^53 *)
  Math_random : nat → Z;
  channels_pool_connect : nat → option Exn;
  channels_client_query : nat → option Exn;
  NOW : nat → Z;
  (* the server's cast to VARCHAR(20) of a text of more than 20 bytes *)
  VARCHAR_20 : string → Outcome string
}.

(** The process: the world of the tools, the [active_channels] table
    ([None] until it is created; [channel_id] and [last_interaction]), and
    the handler's own requests, each with the length of the world's trace
    when it was made. *)
Record Process := mkProcess {
  world : World;
  active_channels : option (list (string * Z));
  host_trace : list (nat * HostEvent)
}.

Definition Handler (A : Type) : Type := Process → Outcome A * Process.

#[global] Instance Handler_ret : MRet Handler := λ A a p, (Ok a, p).
#[global] Instance Handler_bind : MBind Handler := λ A B f m p,
  match m p with
  | (Ok a, p') => f a p'
  | (Thrown e, p') => (Thrown e, p')
  end.

Definition raise {A} (e : Exn) : Handler A := λ p, (Thrown e, p).

Definition of_outcome {A} (o : Outcome A) : Handler A := λ p, (o, p).

Definition attempt {A} (body : Handler A) (handler : Exn → Handler A) : Handler A := λ p,
  match body p with
  | (Ok a, p') => (Ok a, p')
  | (Thrown e, p') => handler e p'
  end.

(** A method of the tools' layer, run on the world of the process. *)
Definition inner {A} (m : M A) : Handler A := λ p,
  let '(o, w) := m (world p) in
  (o, mkProcess w (active_channels p) (host_trace p)).

Definition host_emit (e : HostEvent) : Handler unit := λ p,
  (Ok tt,
   mkProcess (world p) (active_channels p)
     (host_trace p ++ [(length (trace (world p)), e)])).

(** The number of requests made so far. *)
Definition position : Handler nat := λ p,
  (Ok (length (trace (world p)) + length (host_trace p))%nat, p).

Definition ChannelSql (A : Type) : Type :=
  Z → option (list (string * Z)) → Outcome A * option (list (string * Z)).

Definition on_channels {A} (run : option (list (string * Z)) → Outcome A * option (list (string * Z)))
    : Handler A := λ p,
  let '(result, t) := run (active_channels p) in
  (result, mkProcess (world p) t (host_trace p)).

Definition double_quote : string := String "034"%char EmptyString.

Definition undefined_table : Exn :=
  mkExn "error" ("relation " +:+ double_quote +:+ "active_channels" +:+ double_quote
                 +:+ " does not exist").

(** [CREATE TABLE IF NOT EXISTS active_channels (channel_id VARCHAR(20)
     PRIMARY KEY, last_interaction TIMESTAMP DEFAULT NOW())] *)
Definition create_active_channels : ChannelSql unit := λ _ t,
  (Ok tt, Some (default [] t)).

(** [INSERT INTO active_channels (channel_id, last_interaction)
     VALUES ($1, NOW()) ON CONFLICT (channel_id)
     DO UPDATE SET last_interaction = NOW()] *)
Definition upsert_active_channel (varchar_20 : string → Outcome string)
    (channel : string) : ChannelSql unit := λ now t,
  match t with
  | None => (Thrown undefined_table, t)
  | Some rows =>
      match (if decide (String.length channel ≤ 20)%nat then Ok channel
             else varchar_20 channel) with
      | Thrown error => (Thrown error, t)
      | Ok key =>
          if decide (key ∈ rows.*1)
          then (Ok tt, Some ((λ row, if decide (row.1 = key) then (key, now) else row)
                               <$> rows))
          else (Ok tt, Some (rows ++ [(key, now)]))
      end
  end.

(** [SELECT 1 FROM active_channels WHERE channel_id = $1]; the answer is
    [rows.length]. *)
Definition select_active_channel (channel : string) : ChannelSql nat := λ _ t,
  match t with
  | None => (Thrown undefined_table, t)
  | Some rows => (Ok (length (filter (λ row, row.1 = channel) rows)), t)
  end.

(** [a || b] on strings *)
Definition string_or (a b : string) : string := if decide (a = "") then b else a.

(** [U+200B], in UTF-8 *)
Definition zero_width_space : string :=
  String "226"%char (String "128"%char (String "139"%char EmptyString)).

Definition newline : string := String "010"%char EmptyString.

(** [Math.random() < 0.1]: the double nearest to 0.1 is
    3602879701896397 / 2^55. *)
Definition below_a_tenth (numerator : Z) : bool := 4 * numerator <? 3602879701896397.

Section Handlers.
Context (env : Env) (host : Host).

(** [Database.query], on the table of active channels. *)
Definition Database_query_channels {A} (stmt : ChannelStatement) (params : list string)
    (run : ChannelSql A) : Handler A :=
  n ← position;
  host_emit (HvChannelQuery stmt params);;
  match channels_pool_connect host n with
  | Some error => raise error
  | None =>
      attempt
        (match channels_client_query host n with
         | Some error => raise error
         | None => on_channels (run (NOW host n))
         end)
        (λ error, inner (logger_error "Database query error:" error);; raise error)
  end.

Definition markChannelActive (channel : string) : Handler unit :=
  Database_query_channels CREATE_TABLE_active_channels [] create_active_channels;;
  Database_query_channels UPSERT_active_channels [channel]
    (upsert_active_channel (VARCHAR_20 host) channel).

Definition isChannelActive (channel : string) : Handler bool :=
  Database_query_channels CREATE_TABLE_active_channels [] create_active_channels;;
  rows ← Database_query_channels SELECT_FROM_active_channels [channel]
            (select_active_channel channel);
  mret (bool_decide (0 < rows)%nat).

(** [`^<@!?${client.botId}>`] *)
Definition mention_pattern : string := "^<@!?" +:+ botId host +:+ ">".

Definition cleanMessageContent (message : Message) : Outcome string :=
  mentionPattern ← new_RegExp host (mention_pattern +:+ "\s*") "i";
  mret (String_trim host (regex_replace mentionPattern (inbound_content message) "")).

(** The system turn of [handleMessage] (lines 664-682); [server] is
    [guild?.name || 'DM'] and [channel] is [message.channel?.name ||
    'Unknown']. *)
Definition system_prompt (user : User) (server channel : string) : string :=
  String.concat newline
    [aiPrompt host;
     "          ";
     "          Current context:";
     "          - User: " +:+ username user +:+ " (" +:+ user_ident user +:+ ")";
     "          - Server: " +:+ server;
     "          - Channel: " +:+ channel;
     "          ";
     "          Available tools:";
     "          - reply_to_user: Send multiple messages with individual cooldowns to simulate natural human conversation. Break long responses into shorter, natural chunks like a real person would type. Use format: [{ content: " +:+ double_quote +:+ "message" +:+ double_quote +:+ ", cooldown: 1000 }, ...]";
     "          - get_memory/save_memory: Store and retrieve user memories";
     "          - get_user_info: Get Discord user information  ";
     "          - get_time: Get time in any timezone";
     "          - get_weather: Get weather for any city";
     "          - get_server_info: Get Discord server information";
     "          - clear_history: Clear conversation history for current user/channel";
     "          ";
     "          IMPORTANT: When responding with longer information (like weather, explanations, etc), break it into multiple natural messages like a real person would type. Example:";
     "          Instead of: " +:+ double_quote +:+ "It's cloudy and 23°C, but feels warmer, around 25°C. Very calm, no rain." +:+ double_quote;
     "          Use: [{ content: " +:+ double_quote +:+ "ta nublado com 23°" +:+ double_quote +:+ ", cooldown: 1500 }, { content: " +:+ double_quote +:+ "mas parece mais quente tipo 25°" +:+ double_quote +:+ ", cooldown: 2000 }, { content: " +:+ double_quote +:+ "bem tranquilo sem chuva" +:+ double_quote +:+ ", cooldown: 1000 }]"].

Definition turn_of (row : MessageHistory) : Turn :=
  mkTurn (row_role row) (row_content row).

(** Lines 660-694: the conversation sent to the model. *)
Definition conversation (message : Message) (user : User) (guild : option Guild)
    (text : string) (history : list MessageHistory) : list Turn :=
  [mkTurn system_role
     (system_prompt user
        (string_or (default "" (guild_name <$> guild)) "DM")
        (string_or (default "" (channel_name message)) "Unknown"))]
  ++ (turn_of <$> history)
  ++ (if decide (history = [] ∨ row_content <$> last history ≠ Some text)
      then [mkTurn user_role text] else []).

(** Lines 698-708: the reply with the model's text, and the occasional
    pruning. *)
Definition respond (message : Message) (user : User) (response : string)
    : Handler unit :=
  let channelId := message_channelId message in
  let userId := user_ident user in
  (if decide (response = "") then mret tt
   else
     inner (reply env (Some (JStr (response +:+ zero_width_space))));;
     inner (saveMessageToHistory env userId channelId assistant_role
              (Some (JStr response))));;
  n ← position;
  host_emit HvRandom;;
  if below_a_tenth (Math_random host n)
  then inner (cleanOldHistory env userId channelId 20)
  else mret tt.

Definition handleMessage (message : Message) (user : User) : Handler unit :=
  let context := mkContext user (message_channelId message) in
  attempt
    (n ← position;
     inner (emit EvGuild);;
     guild ← of_outcome (awaited_guild host n);
     cleanContent ← of_outcome (cleanMessageContent message);
     let channelId := message_channelId message in
     let userId := user_ident user in
     n ← position;
     host_emit (HvTyping channelId);;
     match channels_typing host n with Some error => raise error | None => mret tt end;;
     let text := string_or cleanContent (inbound_content message) in
     inner (saveMessageToHistory env userId channelId user_role (Some (JStr text)));;
     history ← inner (getMessageHistory env userId channelId 8);
     response ← inner (generateResponse env (conversation message user guild text history)
                         (Some context));
     respond message user response)
    (λ error,
       inner (logger_error "Handle message error:" error);;
       inner (reply env (Some (JStr "my head hurts")))).

(** [isToBot] of [messageCreate.ts] *)
Definition isToBot (message : Message) : Outcome bool :=
  mentionPattern ← new_RegExp host mention_pattern "i";
  mret (regex_test mentionPattern (inbound_content message)
        || bool_decide (referenced_author message = Some (botId host))
        || bool_decide (botId host ∈ mentioned message)).

(** The [run] of the [messageCreate] event. *)
Definition messageCreate (message : Message) : Handler unit :=
  if bot (author message) then mret tt
  else
    of_outcome (isToBot message) ≫= λ toBot : bool,
    if toBot then
      attempt
        (markChannelActive (message_channelId message);;
         handleMessage message (author message))
        (λ error,
           host_emit (HvConsoleError "AI error:" error);;
           inner (reply env (Some (JStr "my head hurts"))))
    else
      attempt
        (isActive ← isChannelActive (message_channelId message);
         mret tt)
        (λ error, host_emit (HvConsoleError "Error checking channel activity:" error)).

End Handlers.

(** [m] keeps [R] on the world of the process, whether it returns or
    throws. *)
Definition handles (R : relation World) {A} (m : Handler A) : Prop :=
  ∀ p, R (world p) (world (m p).2).

(** What the handling of a message from [u] in [c] may do to the tables. *)
Definition own_conversation (u c : string) (t t' : Tables) : Prop :=
  other_pairs_kept u c t t' ∧ memories_grow t t' ∧ keeps_keys t t'.

(** A host for the examples: the bot is user 99, a mention at the start is
    matched literally, [trim] drops leading spaces, the guild is missing,
    everything answers and the draws are 0. *)
Fixpoint strip_prefix (prefix s : string) : option string :=
  match prefix, s with
  | EmptyString, _ => Some s
  | String a prefix', String b s' =>
      if decide (a = b) then strip_prefix prefix' s' else None
  | _, _ => None
  end.

Fixpoint trim_left (s : string) : string :=
  match s with
  | String " " rest => trim_left rest
  | _ => s
  end.

Definition sample_regex : RegExp :=
  mkRegExp (λ s, bool_decide (is_Some (strip_prefix "<@99>" s)))
           (λ s replacement, default s ((λ rest, replacement +:+ rest) <$>
                                          strip_prefix "<@99>" s)).

Definition sample_host : Host :=
  {| botId := "99";
     aiPrompt := "Be kind.";
     new_RegExp := λ _ _, Ok sample_regex;
     String_trim := trim_left;
     awaited_guild := λ _, Ok None;
     channels_typing := λ _, None;
     Math_random := λ _, 0;
     channels_pool_connect := λ _, None;
     channels_client_query := λ _, None;
     NOW := λ n, 1700000000000 + Z.of_nat n;
     VARCHAR_20 := λ _, Thrown (mkExn "error" "value too long for type character varying(20)") |}.

Definition sample_message : Message :=
  mkMessage "<@99> hello" (user Sample.alice) "general" None None [].

Definition sample_process : Process := mkProcess two_conversations None [].


(** The pool hands out a client and the server answers the channel query
    made after [n] requests. *)
Definition channels_answer (host : Host) (n : nat) : Prop :=
  channels_pool_connect host n = None ∧ channels_client_query host n = None.

(** The channels marked active. *)
Definition marked (p : Process) : list string := (default [] (active_channels p)).*1.

Definition requests (p : Process) : nat :=
  (length (trace (world p)) + length (host_trace p))%nat.

(** The history only gets longer, and keeps its key. *)
Definition history_grows (t t' : Tables) : Prop :=
  message_history t `prefix_of` message_history t' ∧
  (key_invariant t → key_invariant t').

(** The suspensions asked for, in order. *)
Definition slept (events : list Event) : list JsValue :=
  omap (λ e, match e with EvSleep ms => Some ms | _ => None end) events.

(** The suspensions a reply is due: the leading [timeout], then the delay
    of every message but the first; each only if it is more than 0. *)
Definition schedule (env : Env) (timeout : Json) (entries : list NormalizedMessage)
    : list JsValue :=
  (if gt_zero env (Some timeout) then [Some timeout] else []) ++
  omap (λ e, if gt_zero env (Some (cooldown e)) then Some (Some (cooldown e)) else None)
       (tail entries).

(** The same host with draws of one half. *)
Definition steady_host : Host :=
  mkHost (botId sample_host) (aiPrompt sample_host) (new_RegExp sample_host)
    (String_trim sample_host) (awaited_guild sample_host) (channels_typing sample_host)
    (λ _, 2 ^ 52) (channels_pool_connect sample_host) (channels_client_query sample_host)
    (NOW sample_host) (VARCHAR_20 sample_host).

(** * Properties *)

(** ** Running a computation *)

Lemma run_bind {A B} (m : M A) (f : A → M B) (w : World) :
  (m ≫= f) w =
  match m w with
  | (Ok a, w') => f a w'
  | (Thrown e, w') => (Thrown e, w')
  end.
Proof. reflexivity. Qed.

Lemma run_lift_bind {A B} (o : Outcome A) (f : A → M B) (w : World) :
  (lift o ≫= f) w =
  match o with
  | Ok a => f a w
  | Thrown e => (Thrown e, w)
  end.
Proof. unfold mbind, M_bind, lift. by destruct o. Qed.

Lemma run_try_catch {A} (body : M A) (handler : Exn → M A) (w : World) :
  try_catch body handler w =
  match body w with
  | (Ok a, w') => (Ok a, w')
  | (Thrown e, w') => handler e w'
  end.
Proof. reflexivity. Qed.

(** ** The dispatcher *)

Lemma not_in_catalog (n : string) :
  n ∉ catalog →
  n ≠ "reply_to_user" ∧ n ≠ "get_memory" ∧ n ≠ "save_memory" ∧
  n ≠ "get_user_info" ∧ n ≠ "get_time" ∧ n ≠ "get_weather" ∧
  n ≠ "get_server_info" ∧ n ≠ "clear_history".
Proof. unfold catalog. set_solver. Qed.

(** C6, as the code has it: a tool call whose name is outside the catalog
    fails and leaves the world as it was: nothing is written, sent,
    requested or logged. The arguments are parsed before the name is looked
    at, so the error is the parser's when the argument text is not JSON,
    and [Unknown tool: <name>] when it is. *)
Theorem unknown_tool_fails_without_effect
    (env : Env) (toolCall : ToolCall) (context : ToolExecutionContext) (w : World) :
  name toolCall ∉ catalog →
  executeTool env toolCall context w =
  (Thrown (match JSON_parse env (arguments toolCall) with
           | Ok _ => Error ("Unknown tool: " +:+ name toolCall)
           | Thrown syntaxError => syntaxError
           end), w).
Proof.
  intros Hname. apply not_in_catalog in Hname.
  destruct Hname as (?&?&?&?&?&?&?&?).
  unfold executeTool. rewrite run_lift_bind.
  destruct (JSON_parse env (arguments toolCall)); [|done].
  by repeat (rewrite decide_False by done).
Qed.

Lemma unknown_tool_fails_without_effect_witness :
  ("send_email" ∉ catalog) ∧
  executeTool (Sample.env (Sample.asks None) []) (mkToolCall "send_email" "{}")
    Sample.alice Sample.start =
  (Thrown (Error "Unknown tool: send_email"), Sample.start).
Proof.
  assert (Hname : "send_email" ∉ catalog)
    by (apply (bool_decide_unpack _); vm_compute; exact I).
  split; [exact Hname|].
  exact (unknown_tool_fails_without_effect
           (Sample.env (Sample.asks None) []) (mkToolCall "send_email" "{}")
           Sample.alice Sample.start Hname).
Defined.

(** C6 as stated fails: with an argument text that is not JSON, a call to
    an unknown tool fails with the parser's SyntaxError, not with
    [Unknown tool]. *)
Lemma unknown_tool_with_malformed_arguments :
  ("send_email" ∉ catalog) ∧
  executeTool (Sample.env (Sample.asks None) []) (mkToolCall "send_email" "{oops")
    Sample.alice Sample.start =
  (Thrown (mkExn "SyntaxError" "Unexpected token in JSON"), Sample.start) ∧
  executeTool (Sample.env (Sample.asks None) []) (mkToolCall "send_email" "{oops")
    Sample.alice Sample.start ≠
  (Thrown (Error "Unknown tool: send_email"), Sample.start).
Proof.
  split; [apply (bool_decide_unpack _); vm_compute; exact I|].
  split; [reflexivity|]. vm_compute. discriminate.
Qed.

(** ** What a computation may do to the world

    A relation that every primitive step respects is respected by every
    method built from those steps. *)

Section Frame.
Context (R : relation World) `{!Frame R}.

Lemma respects_ret {A} (a : A) : respects R (mret a).
Proof. intros w. simpl. reflexivity. Qed.

Lemma respects_throw {A} (e : Exn) : respects R (@throw A e).
Proof. intros w. simpl. reflexivity. Qed.

Lemma respects_lift {A} (o : Outcome A) : respects R (lift o).
Proof. intros w. simpl. reflexivity. Qed.

Lemma respects_tick : respects R tick.
Proof. intros w. simpl. reflexivity. Qed.

Lemma respects_get_cooldown key : respects R (get_cooldown key).
Proof. intros w. simpl. reflexivity. Qed.

Lemma respects_set_cooldown `{!CooldownFrame R} key entry :
  respects R (set_cooldown key entry).
Proof. intros w. apply frame_cooldowns. Qed.

Lemma respects_emit (e : Event) : ¬ is_chat e → respects R (emit e).
Proof. intros He w. by apply frame_emit. Qed.

Lemma respects_on_tables {A} (run : Tables → Outcome A * Tables) :
  respects R (on_tables run).
Proof.
  intros w. unfold on_tables. destruct (run (tables w)) as [result t].
  apply frame_tables.
Qed.

Lemma respects_bind {A B} (m : M A) (f : A → M B) :
  respects R m → (∀ a, respects R (f a)) → respects R (m ≫= f).
Proof.
  intros Hm Hf w. rewrite run_bind. specialize (Hm w).
  destruct (m w) as [[a|e] w']; simpl in *; [|done].
  etransitivity; [exact Hm|apply Hf].
Qed.

Lemma respects_try_catch {A} (body : M A) (handler : Exn → M A) :
  respects R body → (∀ e, respects R (handler e)) →
  respects R (try_catch body handler).
Proof.
  intros Hm Hf w. rewrite run_try_catch. specialize (Hm w).
  destruct (body w) as [[a|e] w']; simpl in *; [done|].
  etransitivity; [exact Hm|apply Hf].
Qed.

End Frame.

(** Splits a method into its steps. *)
Ltac frame_step :=
  first
    [ match goal with
      | |- Frame _ => exact _
      | |- CooldownFrame _ => exact _
      | |- ¬ is_chat _ => simpl; tauto
      end
    | apply respects_ret | apply respects_throw | apply respects_lift
    | apply respects_tick | apply respects_get_cooldown
    | apply respects_set_cooldown
    | apply respects_on_tables
    | apply respects_emit
    | apply respects_bind
    | apply respects_try_catch
    | match goal with
      | |- respects _ (if ?b then _ else _) => destruct b
      | |- respects _ (match ?x with _ => _ end) => destruct x
      | |- ∀ _, _ => intro
      end ].

Ltac frame := repeat frame_step.

Section FrameOfMethods.
Context (env : Env) (R : relation World) `{!Frame R}.

Lemma Database_query_respects {A} stmt params (run : Sql A) :
  respects R (Database_query env stmt params run).
Proof. unfold Database_query, logger_error. frame. Qed.

Lemma saveMessageToHistory_respects u c r text :
  respects R (saveMessageToHistory env u c r text).
Proof.
  unfold saveMessageToHistory, logger_error.
  frame; apply Database_query_respects.
Qed.

Lemma reply_respects body : respects R (reply env body).
Proof. unfold reply. frame. Qed.

Lemma send_from_respects context normalizedMessages :
  ∀ i results, respects R (send_from env context i normalizedMessages results).
Proof.
  induction normalizedMessages as [|entry rest IH]; intros i results; simpl.
  - frame.
  - unfold setTimeout. frame;
      first [apply reply_respects | apply saveMessageToHistory_respects | apply IH].
Qed.

Lemma deliver_respects timeout normalizedMessages context :
  respects R (deliver env timeout normalizedMessages context).
Proof.
  unfold deliver, setTimeout, logger_error. frame; apply send_from_respects.
Qed.











End FrameOfMethods.

(** ** Two frames *)

#[global] Instance no_chat_frame : Frame no_chat.
Proof.
  split.
  - split; [by intros w|]. intros w1 w2 w3 H12 H23. unfold no_chat in *. congruence.
  - intros e w He. unfold no_chat. simpl. rewrite filter_app.
    rewrite (filter_cons_False _ _ _ He). by rewrite filter_nil, app_nil_r.
  - by intros w t.
Qed.

#[global] Instance no_chat_cooldown_frame : CooldownFrame no_chat.
Proof. split; [apply _|]. by intros w c. Qed.

#[global] Instance same_cooldowns_frame : Frame same_cooldowns.
Proof.
  split.
  - split; [by intros w|]. intros w1 w2 w3 H12 H23. unfold same_cooldowns in *. congruence.
  - by intros e w He.
  - by intros w t.
Qed.

(** ** The model-invocation loop *)

Lemma run_create (env : Env) (request : ChatRequest) (w : World) :
  create env request w =
  (chat_completions_create env (length (trace w)) request,
   with_event w (EvChat request)).
Proof.
  unfold create, tick, emit, lift, mbind, M_bind. reflexivity.
Qed.




(** C5, as the code has it: when the [tool_calls] of the model's message are
    absent (or no execution context was passed), [generateResponse] returns
    the content of that message (the empty string for a null content) and
    the request it made is the only thing it did: there is no second model
    call. *)
Theorem no_tool_calls_returns_content
    (env : Env) (messages : list Turn) (context : option ToolExecutionContext)
    (w : World) (response : ChatResponse) (original : ChatMessage) :
  let request := mkChatRequest (model_name env) messages true in
  chat_completions_create env (length (trace w)) request = Ok response →
  first_message response = Some original →
  tool_calls original = None ∨ context = None →
  generateResponse env messages context w =
  (Ok (or_empty (message_content original)), with_event w (EvChat request)).
Proof.
  intros request Hchat Hfirst Hnone.
  unfold generateResponse. rewrite run_try_catch, run_bind, run_create.
  fold request. rewrite Hchat, Hfirst.
  destruct Hnone as [-> | ->]; [done|].
  by destruct (tool_calls original).
Qed.

Lemma no_tool_calls_returns_content_witness :
  let env := Sample.env (Sample.asks None) [] in
  let request := mkChatRequest "gpt-4o-mini" Sample.hello true in
  chat_completions_create env 0 request = Ok (Sample.says "thinking" None) ∧
  generateResponse env Sample.hello (Some Sample.alice) Sample.start =
  (Ok "thinking", with_event Sample.start (EvChat request)).
Proof.
  split; [reflexivity|].
  exact (no_tool_calls_returns_content
           (Sample.env (Sample.asks None) []) Sample.hello (Some Sample.alice)
           Sample.start (Sample.says "thinking" None)
           (mkChatMessage (Some "thinking") None)
           eq_refl eq_refl (or_introl eq_refl)).
Defined.

(** C5 as stated fails: a message whose [tool_calls] is the empty array
    carries no tool call, yet the array is truthy, so the second request is
    made and it is the second answer that is returned. *)
Lemma empty_tool_calls_make_a_second_call :
  let env := Sample.env (Sample.asks (Some [])) [] in
  let first := mkChatRequest "gpt-4o-mini" Sample.hello true in
  let second := mkChatRequest "gpt-4o-mini" Sample.hello false in
  chat_completions_create env 0 first = Ok (Sample.says "thinking" (Some [])) ∧
  generateResponse env Sample.hello (Some Sample.alice) Sample.start =
  (Ok "done", with_event (with_event Sample.start (EvChat first)) (EvChat second)) ∧
  generateResponse env Sample.hello (Some Sample.alice) Sample.start ≠
  (Ok "thinking", with_event Sample.start (EvChat first)).
Proof.
  split; [reflexivity|]. split; [reflexivity|].
  vm_compute. discriminate.
Qed.



(** ** The reply pacer *)

Lemma run_now (env : Env) (w : World) :
  now env w = (Ok (Date_now env (length (trace w))), with_event w EvNow).
Proof. reflexivity. Qed.

Lemma length_with_event (w : World) (e : Event) :
  length (trace (with_event w e)) = S (length (trace w)).
Proof. simpl. rewrite length_app. simpl. lia. Qed.

(** [ceil_div_1000 a] is the least number of whole seconds that covers [a]
    milliseconds. *)
Lemma ceil_div_1000_spec (a : Z) :
  1000 * (ceil_div_1000 a - 1) < a ≤ 1000 * ceil_div_1000 a.
Proof.
  unfold ceil_div_1000.
  pose proof (Z.div_mod (- a) 1000 ltac:(lia)).
  pose proof (Z.mod_pos_bound (- a) 1000 ltac:(lia)).
  lia.
Qed.

(** A reply of at most one message does not touch the tracker. *)
Lemma check_cooldown_single (env : Env) (uid : string)
    (normalizedMessages : list NormalizedMessage) (w : World) :
  (length normalizedMessages ≤ 1)%nat →
  check_cooldown env uid normalizedMessages w = (Ok tt, w).
Proof.
  intros Hlen. unfold check_cooldown. by rewrite decide_False by lia.
Qed.

(** The gate refuses: two clock reads, nothing else. *)
Lemma check_cooldown_refuses (env : Env) (uid : string)
    (normalizedMessages : list NormalizedMessage) (w : World) (entry : CooldownEntry) :
  (1 < length normalizedMessages)%nat →
  cooldowns w !! cooldownKey uid = Some entry →
  Date_now env (length (trace w)) - lastUsed entry < globalCooldown →
  check_cooldown env uid normalizedMessages w =
  (Thrown (Error (wait_message
             (ceil_div_1000
                (globalCooldown -
                 (Date_now env (S (length (trace w))) - lastUsed entry))))),
   with_event (with_event w EvNow) EvNow).
Proof.
  intros Hlen Hentry Hrecent. unfold check_cooldown.
  rewrite decide_True by done.
  rewrite !run_bind. unfold get_cooldown. rewrite Hentry.
  rewrite !run_bind, run_now, decide_True by done.
  by rewrite run_bind, run_now, length_with_event.
Qed.

Lemma check_cooldown_admits (env : Env) (uid : string)
    (normalizedMessages : list NormalizedMessage) (w : World) :
  (1 < length normalizedMessages)%nat →
  (∀ entry, cooldowns w !! cooldownKey uid = Some entry →
            globalCooldown ≤ Date_now env (length (trace w)) - lastUsed entry) →
  check_cooldown env uid normalizedMessages w = (Ok tt, admitted env uid w).
Proof.
  intros Hlen Hold. unfold check_cooldown, admitted, admitted_at.
  rewrite decide_True by done.
  rewrite !run_bind. unfold get_cooldown.
  destruct (cooldowns w !! cooldownKey uid) as [entry|] eqn:Hentry.
  - specialize (Hold entry eq_refl).
    rewrite !run_bind, run_now, decide_False by lia.
    simpl. rewrite run_bind, run_now, length_with_event.
    unfold set_cooldown. simpl. by rewrite <- app_assoc.
  - simpl. done.
Qed.

Lemma run_replyToUser (env : Env) (args : Json) (context : ToolExecutionContext)
    (normalizedMessages : list NormalizedMessage) (w : World) :
  normalize (get_prop args "messages") = Ok normalizedMessages →
  replyToUser env args context w =
  match check_cooldown env (user_ident (user context)) normalizedMessages w with
  | (Ok _, w') =>
      deliver env (default (JNum 0) (get_prop args "timeout"))
        normalizedMessages context w'
  | (Thrown e, w') => (Thrown e, w')
  end.
Proof.
  intros Hnormal. unfold replyToUser. rewrite run_lift_bind.
  assert (destructurable "messages" args = Ok tt) as ->
    by (by destruct args).
  rewrite run_lift_bind, Hnormal, run_bind.
  by destruct (check_cooldown env _ normalizedMessages w) as [[[]|e] w'].
Qed.

Lemma sent_with_clock_reads (w : World) :
  sent (trace (with_event (with_event w EvNow) EvNow)) = sent (trace w).
Proof.
  unfold sent. simpl. rewrite !omap_app. simpl. by rewrite !app_nil_r.
Qed.

Lemma sent_admitted (env : Env) (uid : string) (w : World) :
  sent (trace (admitted env uid w)) = sent (trace w).
Proof.
  unfold sent, admitted. simpl. rewrite omap_app.
  destruct (cooldowns w !! cooldownKey uid); simpl; by rewrite app_nil_r.
Qed.

(** C2: a reply whose normalized list has more than one entry is refused
    when the first clock read of the gate is less than 2000ms after the
    last use recorded under the user's key: the error carries the wait left
    at the second clock read, rounded up to whole seconds, and nothing is
    sent, stored or recorded. Otherwise the gate records the time it reads
    under the key and the sending starts. A reply of exactly one entry goes
    to the sending as the world is. *)
Theorem multi_message_replies_are_gated
    (env : Env) (args : Json) (context : ToolExecutionContext) (w : World)
    (normalizedMessages : list NormalizedMessage) :
  let uid := user_ident (user context) in
  let timeout := default (JNum 0) (get_prop args "timeout") in
  let first_read := Date_now env (length (trace w)) in
  let second_read := Date_now env (S (length (trace w))) in
  normalize (get_prop args "messages") = Ok normalizedMessages →
  (∀ entry,
     (1 < length normalizedMessages)%nat →
     cooldowns w !! cooldownKey uid = Some entry →
     first_read - lastUsed entry < 2000 →
     let remaining := 2000 - (second_read - lastUsed entry) in
     let seconds := ceil_div_1000 remaining in
     let w' := with_event (with_event w EvNow) EvNow in
     replyToUser env args context w = (Thrown (Error (wait_message seconds)), w') ∧
     1000 * (seconds - 1) < remaining ≤ 1000 * seconds ∧
     sent (trace w') = sent (trace w) ∧
     cooldowns w' = cooldowns w ∧ tables w' = tables w) ∧
  ((1 < length normalizedMessages)%nat →
   (∀ entry, cooldowns w !! cooldownKey uid = Some entry →
             2000 ≤ first_read - lastUsed entry) →
   replyToUser env args context w =
   deliver env timeout normalizedMessages context (admitted env uid w) ∧
   cooldowns (admitted env uid w) !! cooldownKey uid =
   Some (mkCooldownEntry uid (admitted_at env uid w))) ∧
  (length normalizedMessages = 1%nat →
   replyToUser env args context w =
   deliver env timeout normalizedMessages context w).
Proof.
  intros uid timeout first_read second_read Hnormal.
  pose proof (run_replyToUser env args context normalizedMessages w Hnormal) as Hrun.
  fold uid timeout in Hrun.
  repeat split.
  - rewrite Hrun, (check_cooldown_refuses env uid normalizedMessages w entry); done.
  - apply ceil_div_1000_spec.
  - apply ceil_div_1000_spec.
  - apply sent_with_clock_reads.
  - rewrite Hrun, check_cooldown_admits; done.
  - unfold admitted. simpl. apply lookup_insert_eq.
  - intros Hone. rewrite Hrun, check_cooldown_single; [done|lia].
Qed.

(** C10: when the gate admits a reply of more than one entry, the entry of
    the user is written, with the time the gate read, before the sending
    starts: until then the trace has gained clock reads only. The sending
    never writes the map, so whether the reply returns or throws the entry
    stays; and in the world it leaves, a reply of more than one entry whose
    first clock read is less than 2000ms after the recorded time is
    refused and sends nothing. *)
Theorem cooldown_is_consumed_before_sending
    (env : Env) (args : Json) (context : ToolExecutionContext) (w : World)
    (normalizedMessages : list NormalizedMessage) :
  let uid := user_ident (user context) in
  let timeout := default (JNum 0) (get_prop args "timeout") in
  let w1 := admitted env uid w in
  let w2 := (replyToUser env args context w).2 in
  let recorded := mkCooldownEntry uid (admitted_at env uid w) in
  normalize (get_prop args "messages") = Ok normalizedMessages →
  (1 < length normalizedMessages)%nat →
  (∀ entry, cooldowns w !! cooldownKey uid = Some entry →
            2000 ≤ Date_now env (length (trace w)) - lastUsed entry) →
  check_cooldown env uid normalizedMessages w = (Ok tt, w1) ∧
  cooldowns w1 = <[cooldownKey uid := recorded]> (cooldowns w) ∧
  (∃ reads, trace w1 = trace w ++ reads ∧ Forall (λ e, e = EvNow) reads) ∧
  replyToUser env args context w = deliver env timeout normalizedMessages context w1 ∧
  cooldowns w2 = <[cooldownKey uid := recorded]> (cooldowns w) ∧
  ∀ args' normalizedMessages',
    normalize (get_prop args' "messages") = Ok normalizedMessages' →
    (1 < length normalizedMessages')%nat →
    Date_now env (length (trace w2)) - admitted_at env uid w < 2000 →
    ∃ seconds,
      replyToUser env args' context w2 =
      (Thrown (Error (wait_message seconds)), with_event (with_event w2 EvNow) EvNow) ∧
      sent (trace (with_event (with_event w2 EvNow) EvNow)) = sent (trace w2).
Proof.
  intros uid timeout w1 w2 recorded Hnormal Hlen Hold.
  pose proof (run_replyToUser env args context normalizedMessages w Hnormal) as Hrun.
  fold uid timeout in Hrun.
  pose proof (check_cooldown_admits env uid normalizedMessages w Hlen Hold) as Hgate.
  fold w1 in Hgate. rewrite Hgate in Hrun.
  assert (Hkept : cooldowns w2 = <[cooldownKey uid := recorded]> (cooldowns w)).
  { unfold w2. rewrite Hrun.
    apply (deliver_respects env same_cooldowns timeout normalizedMessages context w1). }
  repeat split; try done.
  - unfold w1, admitted. simpl. eexists. split; [done|].
    destruct (cooldowns w !! cooldownKey uid); repeat constructor.
  - intros args' normalizedMessages' Hnormal' Hlen' Hsoon.
    assert (Hentry : cooldowns w2 !! cooldownKey uid = Some recorded)
      by (rewrite Hkept; apply lookup_insert_eq).
    eexists. split; [|apply sent_with_clock_reads].
    rewrite (run_replyToUser env args' context normalizedMessages' w2 Hnormal').
    fold uid.
    by rewrite (check_cooldown_refuses env uid normalizedMessages' w2 recorded).
Qed.

Lemma multi_message_replies_are_gated_witness :
  let env := Sample.env (Sample.asks None) [] in
  let args := JObj [("messages", JArr [JStr "a"; JStr "b"])] in
  let recent :=
    mkWorld {[ cooldownKey "42" := mkCooldownEntry "42" 1699999999500 ]}
      Sample.empty_tables [] in
  normalize (get_prop args "messages") =
  Ok [mkNormalized (Some (JStr "a")) (JNum 0);
      mkNormalized (Some (JStr "b")) (JNum 1000)] ∧
  replyToUser env args Sample.alice recent =
  (Thrown (Error "Please wait 2 seconds before sending multiple messages again."),
   with_event (with_event recent EvNow) EvNow).
Proof.
  split; [reflexivity|].
  destruct (multi_message_replies_are_gated
              (Sample.env (Sample.asks None) [])
              (JObj [("messages", JArr [JStr "a"; JStr "b"])])
              Sample.alice
              (mkWorld {[ cooldownKey "42" := mkCooldownEntry "42" 1699999999500 ]}
                 Sample.empty_tables [])
              [mkNormalized (Some (JStr "a")) (JNum 0);
               mkNormalized (Some (JStr "b")) (JNum 1000)]
              eq_refl) as (Hrefused & _ & _).
  destruct (Hrefused (mkCooldownEntry "42" 1699999999500)) as (Hthrown & _).
  - simpl. lia.
  - reflexivity.
  - simpl. lia.
  - exact Hthrown.
Defined.

Lemma cooldown_is_consumed_before_sending_witness :
  let env := Sample.env (Sample.asks None) [1%nat] in
  let args := JObj [("messages", JArr [JStr "a"; JStr "b"; JStr "c"])] in
  let w2 := (replyToUser env args Sample.alice Sample.start).2 in
  (replyToUser env args Sample.alice Sample.start).1 = Thrown (Error "Missing Access") ∧
  sent (trace w2) = [] ∧
  cooldowns w2 = {[ cooldownKey "42" := mkCooldownEntry "42" 1700000000000 ]} ∧
  (replyToUser env args Sample.alice w2).1 =
  Thrown (Error "Please wait 2 seconds before sending multiple messages again.").
Proof.
  split; [reflexivity|]. split; [reflexivity|].
  destruct (cooldown_is_consumed_before_sending
              (Sample.env (Sample.asks None) [1%nat])
              (JObj [("messages", JArr [JStr "a"; JStr "b"; JStr "c"])])
              Sample.alice Sample.start
              [mkNormalized (Some (JStr "a")) (JNum 0);
               mkNormalized (Some (JStr "b")) (JNum 1000);
               mkNormalized (Some (JStr "c")) (JNum 1000)])
    as (_ & _ & _ & _ & Hkept & Hretry).
  - reflexivity.
  - simpl. lia.
  - intros entry Hentry. discriminate Hentry.
  - split; [exact Hkept|].
    destruct (Hretry (JObj [("messages", JArr [JStr "a"; JStr "b"; JStr "c"])])
                [mkNormalized (Some (JStr "a")) (JNum 0);
                 mkNormalized (Some (JStr "b")) (JNum 1000);
                 mkNormalized (Some (JStr "c")) (JNum 1000)])
      as (seconds & Hthrown & _).
    + reflexivity.
    + simpl. lia.
    + vm_compute. reflexivity.
    + reflexivity.
Defined.

(** *** Normalization *)

(** A bare string is one message with no delay. *)
Lemma normalize_bare_string (s : string) :
  normalize (Some (JStr s)) = Ok [mkNormalized (Some (JStr s)) (JNum 0)].
Proof. reflexivity. Qed.

Lemma normalize_from_strings (texts : list string) :
  ∀ index,
    normalize_from index (JStr <$> texts) =
    Ok (imap (λ i s, mkNormalized (Some (JStr s)) (JNum (default_cooldown (index + i))))
             texts).
Proof.
  induction texts as [|s rest IH]; intros index; simpl; [done|].
  rewrite IH. unfold mbind, Outcome_bind, mret, Outcome_ret. f_equal.
  rewrite Nat.add_0_r. f_equal.
  apply imap_ext. intros i x _. simpl. do 3 f_equal. lia.
Qed.

(** A list of strings: no delay for the first, 1000ms for the others. *)
Lemma normalize_strings (texts : list string) :
  normalize (Some (JArr (JStr <$> texts))) =
  Ok (imap (λ i s, mkNormalized (Some (JStr s)) (JNum (if i is O then 0 else 1000)))
           texts).
Proof.
  simpl. rewrite normalize_from_strings. f_equal.
  apply imap_ext. intros i x _. simpl. by destruct i.
Qed.

(** An object entry keeps the delay it sets when that delay is not zero,
    and gets the default when it sets none. *)
Lemma normalize_entry_object (fields : list (string * Json)) (index : nat) :
  normalize_entry (JObj fields) index =
  Ok (mkNormalized (assoc "content" fields)
        match assoc "cooldown" fields with
        | Some (JNum delay) =>
            JNum (if decide (delay = 0) then default_cooldown index else delay)
        | Some other =>
            if truthy (Some other) then other else JNum (default_cooldown index)
        | None => JNum (default_cooldown index)
        end).
Proof.
  unfold normalize_entry. simpl. unfold mret, Outcome_ret. do 2 f_equal.
  destruct (assoc "cooldown" fields) as [[]|]; simpl; try done.
  case_decide as Hdelay; [by subst|].
  by apply Z.eqb_neq in Hdelay as ->.
Qed.

(** C3 at the input where the code departs from it: the second entry sets
    its delay to 0, and the normalized delay is 1000: [msg.cooldown ||
    default] takes an explicit 0 for a missing value. The reply then sleeps
    1000ms before the second send. *)
Theorem explicit_zero_cooldown_is_replaced :
  normalize
    (Some (JArr [JObj [("content", JStr "a")];
                 JObj [("content", JStr "b"); ("cooldown", JNum 0)]])) =
  Ok [mkNormalized (Some (JStr "a")) (JNum 0);
      mkNormalized (Some (JStr "b")) (JNum 1000)] ∧
  trace (executeTool (Sample.env (Sample.asks None) [])
           (mkToolCall "reply_to_user"
              Sample.messages_zero_cooldown)
           Sample.alice Sample.start).2 =
  [EvNow;
   EvReply (Some (JStr "a")) true;
   EvQuery INSERT_INTO_message_history
     [Some "42"; Some "general"; Some "assistant"; Some "a"];
   EvSleep (Some (JNum 1000));
   EvReply (Some (JStr "b")) true;
   EvQuery INSERT_INTO_message_history
     [Some "42"; Some "general"; Some "assistant"; Some "b"]].
Proof. split; reflexivity. Qed.

(** The rest of C3 on its example: three strings get the delays 0, 1000,
    1000, are sent in that order and leave three assistant rows in that
    order. *)
Example three_strings_are_sent_and_stored :
  let w := (executeTool (Sample.env (Sample.asks None) [])
              (mkToolCall "reply_to_user" Sample.messages_abc)
              Sample.alice Sample.start).2 in
  cooldown <$> default [] (match normalize (Some (JArr [JStr "a"; JStr "b"; JStr "c"]))
                           with Ok l => Some l | Thrown _ => None end) =
  [JNum 0; JNum 1000; JNum 1000] ∧
  sent (trace w) = [Some (JStr "a"); Some (JStr "b"); Some (JStr "c")] ∧
  (λ r, (row_role r, row_content r)) <$> message_history (tables w) =
  [(assistant_role, "a"); (assistant_role, "b"); (assistant_role, "c")].
Proof. repeat split; reflexivity. Qed.

(** ** The history store *)

Lemma sublist_of_fmap {A B} (f : A → B) (l k : list A) :
  l `sublist_of` k → f <$> l `sublist_of` f <$> k.
Proof. induction 1; simpl; by constructor. Qed.

Lemma filter_nothing {A} (P : A → Prop) `{∀ x, Decision (P x)} (l : list A) :
  Forall (λ x, ¬ P x) l → filter P l = [].
Proof.
  induction 1 as [|x l Hx _ IH]; [done|].
  by rewrite filter_cons_False.
Qed.

Lemma run_Database_query {A} (env : Env) (stmt : Statement)
    (params : list (option string)) (run : Sql A) (w : World) :
  store_answers env (length (trace w)) →
  Database_query env stmt params run w =
  match run (CURRENT_TIMESTAMP env (length (trace w))) (tables w) with
  | (Ok a, t) =>
      (Ok a, mkWorld (cooldowns w) t (trace w ++ [EvQuery stmt params]))
  | (Thrown e, t) =>
      (Thrown e,
       mkWorld (cooldowns w) t
         (trace w ++ [EvQuery stmt params; EvLog "Database query error:" (Some e)]))
  end.
Proof.
  intros [Hpool Hquery]. unfold Database_query.
  rewrite run_bind. simpl. rewrite run_bind. simpl.
  rewrite Hpool, run_try_catch, Hquery. unfold on_tables. simpl.
  destruct (run _ (tables w)) as [[a|e] t]; simpl; [done|].
  rewrite run_bind. unfold logger_error, emit, with_event, throw. simpl.
  by rewrite <- app_assoc.
Qed.

(** C7: without a truthy [confirm] (absent, or false) [clear_history] throws
    [History clearing requires confirmation] and the world is as it was.
    With [confirm: true], and the store answering, one DELETE is sent:
    every row of the (user, channel) of the context is gone, the other rows
    stay as they were, and the result carries the number of rows
    deleted. *)
Theorem clear_history_requires_confirmation
    (env : Env) (args : Json) (context : ToolExecutionContext) (w : World) :
  let uid := user_ident (user context) in
  let cid := channelId context in
  let rows := message_history (tables w) in
  args ≠ JNull →
  (get_prop args "confirm" = None ∨ get_prop args "confirm" = Some (JBool false) →
   clearHistory env args context w =
   (Thrown (Error "History clearing requires confirmation"), w)) ∧
  (get_prop args "confirm" = Some (JBool true) →
   store_answers env (length (trace w)) →
   ∃ w',
     clearHistory env args context w =
     (Ok (object [("success", Some (JBool true));
                  ("messages_deleted",
                   Some (JNum (Z.of_nat (length (filter (same_pair uid cid) rows)))));
                  ("user_id", Some (JStr uid));
                  ("channel_id", Some (JStr cid))]), w') ∧
     message_history (tables w') = filter (λ r, ¬ same_pair uid cid r) rows ∧
     filter (same_pair uid cid) (message_history (tables w')) = [] ∧
     memories (tables w') = memories (tables w) ∧
     cooldowns w' = cooldowns w ∧
     trace w' = trace w ++ [EvQuery DELETE_FROM_message_history [Some uid; Some cid]]).
Proof.
  intros uid cid rows Hargs.
  assert (Hcoercible : destructurable "confirm" args = Ok tt) by (by destruct args).
  split.
  - intros Hconfirm. unfold clearHistory.
    rewrite run_lift_bind, Hcoercible.
    by destruct Hconfirm as [-> | ->].
  - intros Hconfirm Hstore. unfold clearHistory.
    rewrite run_lift_bind, Hcoercible, Hconfirm. simpl.
    rewrite run_try_catch, run_bind, run_Database_query by done.
    fold uid cid. simpl. fold rows.
    eexists. split.
    { do 5 f_equal. by case_decide as Hzero; [rewrite Hzero|]. }
    simpl. repeat split.
    rewrite list_filter_filter. apply filter_nothing, Forall_forall.
    tauto.
Qed.

Lemma clear_history_requires_confirmation_witness :
  let env := Sample.env (Sample.asks None) [] in
  let rows := [mkMessageHistory 1 "42" "general" user_role "hi" 100;
               mkMessageHistory 2 "7" "general" user_role "yo" 101;
               mkMessageHistory 3 "42" "general" assistant_role "hello" 102] in
  let w := mkWorld ∅ (mkTables rows [] 4 1) [] in
  clearHistory env (JObj [("confirm", JBool false)]) Sample.alice w =
  (Thrown (Error "History clearing requires confirmation"), w) ∧
  ∃ w',
    clearHistory env (JObj [("confirm", JBool true)]) Sample.alice w =
    (Ok (object [("success", Some (JBool true));
                 ("messages_deleted", Some (JNum 2));
                 ("user_id", Some (JStr "42"));
                 ("channel_id", Some (JStr "general"))]), w') ∧
    message_history (tables w') =
    [mkMessageHistory 2 "7" "general" user_role "yo" 101].
Proof.
  set (rows := [mkMessageHistory 1 "42" "general" user_role "hi" 100;
                mkMessageHistory 2 "7" "general" user_role "yo" 101;
                mkMessageHistory 3 "42" "general" assistant_role "hello" 102]).
  split.
  - apply (clear_history_requires_confirmation
             (Sample.env (Sample.asks None) []) (JObj [("confirm", JBool false)])
             Sample.alice (mkWorld ∅ (mkTables rows [] 4 1) [])).
    + discriminate.
    + right. reflexivity.
  - destruct (clear_history_requires_confirmation
                (Sample.env (Sample.asks None) []) (JObj [("confirm", JBool true)])
                Sample.alice (mkWorld ∅ (mkTables rows [] 4 1) []))
      as (_ & Hconfirmed).
    + discriminate.
    + destruct Hconfirmed as (w' & Hrun & Hrows & _).
      * reflexivity.
      * split; reflexivity.
      * exists w'. split; [exact Hrun|exact Hrows].
Defined.

(** *** The primary key *)

Lemma insert_keeps_key (u c : string) (r : Role) (text : option string)
    (timestamp : Z) (t : Tables) :
  key_invariant t → key_invariant (insert_message_history u c r text timestamp t).2.
Proof.
  intros [Hkey Hahead]. unfold insert_message_history.
  destruct text as [text|]; [|done]. simpl. split.
  - unfold primary_key in *. simpl. rewrite fmap_app. simpl.
    apply NoDup_app. split; [done|]. split; [|apply NoDup_singleton].
    intros i Hi ->%list_elem_of_singleton.
    apply list_elem_of_fmap in Hi as (row & Hid & Hrow).
    rewrite Forall_forall in Hahead. specialize (Hahead row Hrow). lia.
  - simpl. apply Forall_app. split.
    + eapply Forall_impl; [exact Hahead|]. intros row Hrow. simpl in *. lia.
    + repeat constructor. simpl. lia.
Qed.

Lemma filter_keeps_key (P : MessageHistory → Prop) `{∀ r, Decision (P r)} (t : Tables) :
  key_invariant t →
  key_invariant (set_message_history t (filter P (message_history t))
                   (message_history_id_seq t)).
Proof.
  intros [Hkey Hahead]. split.
  - unfold primary_key in *. simpl.
    apply (sublist_NoDup _ (id <$> message_history t)); [done|].
    apply sublist_of_fmap, sublist_filter.
  - simpl. rewrite Forall_forall in *. intros row Hrow.
    apply list_elem_of_filter in Hrow as [_ Hrow]. by apply Hahead.
Qed.

Lemma delete_keeps_key (u c : string) (timestamp : Z) (t : Tables) :
  key_invariant t → key_invariant (delete_message_history u c timestamp t).2.
Proof. apply filter_keeps_key. Qed.

Lemma delete_old_keeps_key (u c : string) (keepLast : nat) (timestamp : Z) (t : Tables) :
  key_invariant t → key_invariant (delete_old_message_history u c keepLast timestamp t).2.
Proof. apply filter_keeps_key. Qed.

(** *** The order of the rows *)

#[global] Instance newer_transitive : Transitive newer.
Proof. intros a b c. unfold newer. lia. Qed.

#[global] Instance newer_total : Total newer.
Proof. intros a b. unfold newer. lia. Qed.

#[global] Instance older_first_transitive : Transitive older_first.
Proof. intros a b c. unfold older_first. lia. Qed.

Section MostRecent.
Context (u c : string) (limit : nat) (rows : list MessageHistory).

Let mine := filter (same_pair u c) rows.

Lemma most_recent_sorted : StronglySorted newer (most_recent u c limit rows).
Proof.
  unfold most_recent.
  pose proof (StronglySorted_merge_sort newer mine) as Hsorted.
  rewrite <- (take_drop limit (merge_sort newer mine)) in Hsorted.
  by apply StronglySorted_app_1_l in Hsorted.
Qed.

Lemma most_recent_length :
  length (most_recent u c limit rows) = (limit `min` length mine)%nat.
Proof.
  unfold most_recent. by rewrite length_take, merge_sort_Permutation.
Qed.

(** The rows of the pair split into the [limit] returned and the rest, and
    no row of the rest is newer than a returned one. *)
Lemma most_recent_split :
  ∃ rest,
    most_recent u c limit rows ++ rest ≡ₚ mine ∧
    ∀ r o, r ∈ most_recent u c limit rows → o ∈ rest →
           created_at o ≤ created_at r.
Proof.
  exists (drop limit (merge_sort newer mine)). unfold most_recent. split.
  - by rewrite take_drop, merge_sort_Permutation.
  - intros r o Hr Ho.
    pose proof (StronglySorted_merge_sort newer mine) as Hsorted.
    rewrite <- (take_drop limit (merge_sort newer mine)) in Hsorted.
    exact (StronglySorted_app_1_elem_of _ _ _ _ _ Hsorted Hr Ho).
Qed.

Lemma most_recent_elem r :
  r ∈ most_recent u c limit rows → r ∈ rows ∧ same_pair u c r.
Proof.
  unfold most_recent. intros Hr. apply subseteq_take in Hr.
  rewrite merge_sort_Permutation in Hr.
  apply list_elem_of_filter in Hr. tauto.
Qed.

Lemma most_recent_NoDup : NoDup rows → NoDup (most_recent u c limit rows).
Proof.
  intros Hrows. unfold most_recent.
  apply (sublist_NoDup _ (merge_sort newer mine)); [|apply sublist_take].
  rewrite merge_sort_Permutation. by apply NoDup_filter.
Qed.

(** When the rows of the pair sit in the table in strictly increasing
    order of [created_at], the most recent ones are the last ones. *)
Lemma most_recent_of_increasing :
  StronglySorted (λ a b, created_at a < created_at b) mine →
  reverse (most_recent u c limit rows) = drop (length mine - limit) mine.
Proof.
  intros Hincreasing. unfold most_recent. fold mine.
  assert (Hsame : merge_sort newer mine = reverse mine).
  { apply (StronglySorted_unique_strong newer).
    - intros x1 x2 Hx1 Hx2 H12 H21.
      rewrite merge_sort_Permutation in Hx1. rewrite elem_of_reverse in Hx2.
      assert (Hkey : created_at x1 = created_at x2) by (unfold newer in *; lia).
      clear -Hincreasing Hx1 Hx2 Hkey.
      induction Hincreasing as [|y l Hl IH Hy]; [by apply elem_of_nil in Hx1|].
      rewrite Forall_forall in Hy.
      apply elem_of_cons in Hx1 as [->|Hx1]; apply elem_of_cons in Hx2 as [->|Hx2];
        [done|specialize (Hy _ Hx2); lia|specialize (Hy _ Hx1); lia|by apply IH].
    - apply StronglySorted_merge_sort; apply _.
    - clear -Hincreasing.
      induction Hincreasing as [|y l Hl IH Hy]; [constructor|].
      rewrite reverse_cons. apply StronglySorted_app_2; [|done|repeat constructor].
      intros x1 x2 Hx1 Hx2. apply list_elem_of_singleton in Hx2 as ->.
      rewrite elem_of_reverse in Hx1. rewrite Forall_forall in Hy.
      specialize (Hy _ Hx1). unfold newer. lia.
    - by rewrite merge_sort_Permutation, reverse_Permutation. }
  rewrite Hsame, take_reverse, reverse_involutive. done.
Qed.

End MostRecent.

Lemma run_getMessageHistory (env : Env) (u c : string) (limit : nat) (w : World) :
  store_answers env (length (trace w)) →
  getMessageHistory env u c limit w =
  (Ok (reverse (most_recent u c limit (message_history (tables w)))),
   with_event w (EvQuery SELECT_FROM_message_history
                   [Some u; Some c; Some (pretty limit)])).
Proof.
  intros Hstore. unfold getMessageHistory.
  rewrite run_try_catch, run_bind, run_Database_query by done.
  simpl. by destruct w as [? [] ?].
Qed.

Lemma run_saveMessageToHistory (env : Env) (u c : string) (turn : Turn) (w : World) :
  store_answers env (length (trace w)) →
  saveMessageToHistory env u c (role turn) (Some (JStr (content turn))) w =
  (Ok tt,
   mkWorld (cooldowns w)
     (set_message_history (tables w)
        (message_history (tables w) ++ appended env u c [turn] w)
        (message_history_id_seq (tables w) + 1))
     (trace w ++ [insert_event u c turn])).
Proof.
  intros Hstore. unfold saveMessageToHistory.
  rewrite run_try_catch, run_Database_query by done.
  simpl. unfold appended, insert_event. simpl.
  by rewrite Z.add_0_r, Nat.add_0_r.
Qed.

Lemma run_append_all (env : Env) (u c : string) (turns : list Turn) :
  (∀ n, store_answers env n) →
  ∀ w,
    append_all env u c turns w =
    (Ok tt,
     mkWorld (cooldowns w)
       (set_message_history (tables w)
          (message_history (tables w) ++ appended env u c turns w)
          (message_history_id_seq (tables w) + Z.of_nat (length turns)))
       (trace w ++ (insert_event u c <$> turns))).
Proof.
  intros Hstore. induction turns as [|turn rest IH]; intros w.
  - simpl. rewrite Z.add_0_r, !app_nil_r. by destruct w as [? [] ?].
  - cbn [append_all]. rewrite run_bind, run_saveMessageToHistory by done.
    rewrite IH. f_equal. unfold appended, set_message_history. simpl.
    rewrite <- !app_assoc, Z.add_0_r, Nat.add_0_r, length_app. simpl.
    f_equal. f_equal; [|lia].
    do 2 f_equal. apply imap_ext. intros i turn' _. simpl.
    f_equal; [lia|f_equal; lia].
Qed.

Lemma filter_everything {A} (P : A → Prop) `{∀ x, Decision (P x)} (l : list A) :
  Forall P l → filter P l = l.
Proof.
  induction 1 as [|x l Hx _ IH]; [done|].
  by rewrite filter_cons_True, IH.
Qed.

Lemma imap_increasing {A B} (key : B → Z) (l : list A) :
  ∀ f : nat → A → B,
    (∀ i j x y, (i < j)%nat → key (f i x) < key (f j y)) →
    StronglySorted (λ a b, key a < key b) (imap f l).
Proof.
  induction l as [|x l IH]; intros f Hf; [constructor|].
  rewrite imap_cons. constructor.
  - apply IH. intros i j y z Hij. apply Hf. lia.
  - apply Forall_forall. intros b Hb.
    apply elem_of_lookup_imap in Hb as (i & y & -> & _). apply Hf. lia.
Qed.

Lemma appended_same_pair (env : Env) (u c : string) (turns : list Turn) (w : World) :
  filter (same_pair u c) (appended env u c turns w) = appended env u c turns w.
Proof.
  apply filter_everything, Forall_forall. intros r Hr.
  by apply elem_of_lookup_imap in Hr as (i & turn & -> & _).
Qed.

Lemma appended_increasing (env : Env) (u c : string) (turns : list Turn) (w : World) :
  (∀ n m, (n < m)%nat → CURRENT_TIMESTAMP env n < CURRENT_TIMESTAMP env m) →
  StronglySorted (λ a b, created_at a < created_at b) (appended env u c turns w).
Proof.
  intros Hclock. apply (imap_increasing created_at).
  intros i j x y Hij. simpl. apply Hclock. lia.
Qed.

Lemma appended_turns (env : Env) (u c : string) (turns : list Turn) (w : World) :
  (λ r, mkTurn (row_role r) (row_content r)) <$> appended env u c turns w = turns.
Proof.
  unfold appended. rewrite fmap_imap. simpl.
  rewrite <- (list_fmap_id turns) at 2. rewrite <- imap_const.
  apply imap_ext. by intros i [] _.
Qed.

Lemma getMessageHistory_spec (env : Env) (u c : string) (limit : nat) (w : World) :
  store_answers env (length (trace w)) →
  let mine := filter (same_pair u c) (message_history (tables w)) in
  ∃ result rest,
    getMessageHistory env u c limit w =
    (Ok result,
     with_event w (EvQuery SELECT_FROM_message_history
                     [Some u; Some c; Some (pretty limit)])) ∧
    StronglySorted older_first result ∧
    length result = (limit `min` length mine)%nat ∧
    result ++ rest ≡ₚ mine ∧
    (∀ r o, r ∈ result → o ∈ rest → created_at o ≤ created_at r) ∧
    (StronglySorted (λ a b, created_at a < created_at b) mine →
     result = drop (length mine - limit) mine).
Proof.
  intros Hstore mine.
  set (recent := most_recent u c limit (message_history (tables w))).
  destruct (most_recent_split u c limit (message_history (tables w)))
    as (rest & Hsplit & Hrest).
  exists (reverse recent), rest. repeat split.
  - by apply run_getMessageHistory.
  - apply (Sorted_StronglySorted older_first).
    apply (Sorted_reverse newer), StronglySorted_Sorted, most_recent_sorted.
  - rewrite length_reverse. apply most_recent_length.
  - by rewrite reverse_Permutation.
  - intros r o Hr Ho. rewrite elem_of_reverse in Hr. by apply Hrest.
  - apply most_recent_of_increasing.
Qed.

(** C8: when the store answers, [getMessageHistory] returns rows of the
    (user, channel) pair, [min limit n] of the [n] there are, in ascending
    order of [created_at], and no row of the pair that is left out is newer
    than a returned one; when the rows of the pair were stored with strictly
    increasing timestamps, these are the last [limit] of them in the order
    they were stored. In particular, after ten turns are appended, a fetch
    with limit 8 returns 8 rows in ascending order, and, if the pair had no
    row before and the server's clock increases, they are turns 3 to 10 in
    the order they were appended. *)
Theorem fetch_recent_is_most_recent_ascending (env : Env) (u c : string) :
  (∀ limit w,
     store_answers env (length (trace w)) →
     let mine := filter (same_pair u c) (message_history (tables w)) in
     ∃ result rest,
       (getMessageHistory env u c limit w).1 = Ok result ∧
       StronglySorted older_first result ∧
       length result = (limit `min` length mine)%nat ∧
       result ++ rest ≡ₚ mine ∧
       (∀ r o, r ∈ result → o ∈ rest → created_at o ≤ created_at r) ∧
       (StronglySorted (λ a b, created_at a < created_at b) mine →
        result = drop (length mine - limit) mine)) ∧
  (∀ turns w0,
     (∀ n, store_answers env n) →
     length turns = 10%nat →
     let w10 := (append_all env u c turns w0).2 in
     ∃ result,
       (getMessageHistory env u c 8 w10).1 = Ok result ∧
       length result = 8%nat ∧
       StronglySorted older_first result ∧
       ((∀ n m, (n < m)%nat → CURRENT_TIMESTAMP env n < CURRENT_TIMESTAMP env m) →
        filter (same_pair u c) (message_history (tables w0)) = [] →
        (λ r, mkTurn (row_role r) (row_content r)) <$> result = drop 2 turns)).
Proof.
  split.
  - intros limit w Hstore mine.
    destruct (getMessageHistory_spec env u c limit w Hstore)
      as (result & rest & Hrun & Hrest).
    exists result, rest. by rewrite Hrun.
  - intros turns w0 Hstore Hten w10.
    destruct (getMessageHistory_spec env u c 8 w10 (Hstore _))
      as (result & rest & Hrun & Hsorted & Hlength & _ & _ & Hlast).
    assert (Hmine : filter (same_pair u c) (message_history (tables w10)) =
                    filter (same_pair u c) (message_history (tables w0)) ++
                    appended env u c turns w0).
    { unfold w10. rewrite run_append_all by done. simpl.
      by rewrite filter_app, appended_same_pair. }
    assert (Hcount : length (appended env u c turns w0) = 10%nat)
      by (unfold appended; by rewrite length_imap).
    exists result. rewrite Hrun. repeat split; [|done|].
    + rewrite Hlength, Hmine, length_app, Hcount. lia.
    + intros Hclock Hfresh. rewrite Hfresh in Hmine. simpl in Hmine.
      rewrite Hmine in Hlast. rewrite Hlast by by apply appended_increasing.
      rewrite Hcount. simpl. by rewrite fmap_drop, appended_turns.
Qed.

Lemma fetch_recent_is_most_recent_ascending_witness :
  let env := Sample.env (Sample.asks None) [] in
  let w10 := (append_all env "42" "general" Sample.ten_turns Sample.start).2 in
  ∃ result,
    (getMessageHistory env "42" "general" 8 w10).1 = Ok result ∧
    length result = 8%nat ∧
    (λ r, mkTurn (row_role r) (row_content r)) <$> result = drop 2 Sample.ten_turns.
Proof.
  destruct (proj2 (fetch_recent_is_most_recent_ascending
                     (Sample.env (Sample.asks None) []) "42" "general")
              Sample.ten_turns Sample.start)
    as (result & Hrun & Hlength & _ & Hturns).
  - intros n. split; reflexivity.
  - reflexivity.
  - exists result. split; [exact Hrun|]. split; [exact Hlength|].
    apply Hturns.
    + intros n m Hnm. simpl. lia.
    + reflexivity.
Defined.

Lemma run_cleanOldHistory (env : Env) (u c : string) (keepLast : nat) (w : World) :
  store_answers env (length (trace w)) →
  cleanOldHistory env u c keepLast w =
  (Ok tt,
   mkWorld (cooldowns w)
     (set_message_history (tables w)
        (filter (λ r, ¬ (same_pair u c r ∧
                         id r ∉ id <$> most_recent u c keepLast (message_history (tables w))))
                (message_history (tables w)))
        (message_history_id_seq (tables w)))
     (trace w ++ [EvQuery DELETE_old_message_history
                    [Some u; Some c; Some (pretty keepLast)]])).
Proof.
  intros Hstore. unfold cleanOldHistory.
  by rewrite run_try_catch, run_Database_query by done.
Qed.

Lemma NoDup_fmap_same {A B} (f : A → B) (l : list A) (x y : A) :
  NoDup (f <$> l) → x ∈ l → y ∈ l → f x = f y → x = y.
Proof.
  induction l as [|z l IH]; [by intros _ ?%elem_of_nil|].
  rewrite fmap_cons, NoDup_cons. intros [Hz Hl] Hx Hy Hf.
  apply elem_of_cons in Hx as [->|Hx]; apply elem_of_cons in Hy as [->|Hy].
  - done.
  - exfalso. apply Hz. rewrite Hf. by apply list_elem_of_fmap_2.
  - exfalso. apply Hz. rewrite <- Hf. by apply list_elem_of_fmap_2.
  - by apply IH.
Qed.

(** Under the primary key, a row of the table has one of the kept ids
    exactly when it is one of the kept rows. *)
Lemma kept_id_kept_row (u c : string) (keepLast : nat) (rows : list MessageHistory)
    (r : MessageHistory) :
  NoDup (id <$> rows) → r ∈ rows →
  id r ∈ id <$> most_recent u c keepLast rows ↔ r ∈ most_recent u c keepLast rows.
Proof.
  intros Hkey Hr. split; [|apply list_elem_of_fmap_2].
  intros (r' & Hid & Hr')%list_elem_of_fmap.
  destruct (most_recent_elem u c keepLast rows r' Hr') as [Hin _].
  by rewrite (NoDup_fmap_same id rows r r' Hkey Hr Hin Hid).
Qed.

(** C9: when the store answers, [cleanOldHistory] leaves the rows of every
    other (user, channel) pair as they were and, of the rows of the pair,
    keeps [min keepLast n] of the [n] there are, none of them older than a
    deleted one. So at most [keepLast] rows (20 in [handleMessage]) remain
    for the pair. The primary key is what makes [id NOT IN (...)] select
    rows rather than ids. *)
Theorem prune_keeps_the_most_recent
    (env : Env) (u c : string) (keepLast : nat) (w : World) :
  let rows := message_history (tables w) in
  let rows' := message_history (tables (cleanOldHistory env u c keepLast w).2) in
  let mine := filter (same_pair u c) rows in
  let mine' := filter (same_pair u c) rows' in
  store_answers env (length (trace w)) →
  primary_key (tables w) →
  filter (λ r, ¬ same_pair u c r) rows' = filter (λ r, ¬ same_pair u c r) rows ∧
  rows' `sublist_of` rows ∧
  (∃ deleted,
     mine' ++ deleted ≡ₚ mine ∧
     ∀ r o, r ∈ mine' → o ∈ deleted → created_at o ≤ created_at r) ∧
  length mine' = (keepLast `min` length mine)%nat ∧
  (length mine' ≤ keepLast)%nat ∧
  (keepLast = 20%nat → length mine' ≤ 20)%nat ∧
  primary_key (tables (cleanOldHistory env u c keepLast w).2).
Proof.
  intros rows rows' mine mine' Hstore Hkey.
  set (recent := most_recent u c keepLast rows).
  assert (Hrows' : rows' =
            filter (λ r, ¬ (same_pair u c r ∧ id r ∉ id <$> recent)) rows)
    by (unfold rows'; by rewrite run_cleanOldHistory).
  assert (Hnodup : NoDup rows) by (by apply NoDup_fmap_1 in Hkey).
  assert (Hmine' : mine' ≡ₚ recent).
  { apply NoDup_Permutation.
    - unfold mine'. rewrite Hrows'. by do 2 apply NoDup_filter.
    - by apply most_recent_NoDup.
    - intros r. unfold mine'. rewrite Hrows', !list_elem_of_filter. split.
      + intros (Hpair & Hkeep & Hr).
        apply (kept_id_kept_row u c keepLast rows r Hkey Hr).
        destruct (decide (id r ∈ id <$> recent)); [done|tauto].
      + intros Hr. destruct (most_recent_elem u c keepLast rows r Hr) as [Hin Hpair].
        split; [done|]. split; [|done].
        intros [_ Hid]. apply Hid. by apply list_elem_of_fmap_2. }
  assert (Hlength : length mine' = (keepLast `min` length mine)%nat)
    by (rewrite Hmine'; apply most_recent_length).
  repeat split.
  - rewrite Hrows', list_filter_filter. apply list_filter_iff. tauto.
  - rewrite Hrows'. apply sublist_filter.
  - destruct (most_recent_split u c keepLast rows) as (deleted & Hsplit & Hdeleted).
    exists deleted. split; [by rewrite Hmine'|].
    intros r o Hr Ho. rewrite Hmine' in Hr. by apply Hdeleted.
  - done.
  - lia.
  - lia.
  - unfold primary_key. fold rows'. rewrite Hrows'.
    apply (sublist_NoDup _ (id <$> rows)); [done|].
    apply sublist_of_fmap, sublist_filter.
Qed.

Lemma prune_keeps_the_most_recent_witness :
  let env := Sample.env (Sample.asks None) [] in
  let w10 := (append_all env "42" "general" Sample.ten_turns Sample.start).2 in
  store_answers env (length (trace w10)) ∧
  primary_key (tables w10) ∧
  length (filter (same_pair "42" "general")
            (message_history (tables (cleanOldHistory env "42" "general" 3 w10).2))) =
  3%nat.
Proof.
  assert (Hstore : store_answers (Sample.env (Sample.asks None) [])
                     (length (trace (append_all (Sample.env (Sample.asks None) [])
                                       "42" "general" Sample.ten_turns Sample.start).2)))
    by (split; reflexivity).
  assert (Hkey : primary_key
                   (tables (append_all (Sample.env (Sample.asks None) [])
                              "42" "general" Sample.ten_turns Sample.start).2))
    by (apply (bool_decide_unpack _); vm_compute; exact I).
  split; [exact Hstore|]. split; [exact Hkey|].
  destruct (prune_keeps_the_most_recent
              (Sample.env (Sample.asks None) []) "42" "general" 3
              (append_all (Sample.env (Sample.asks None) [])
                 "42" "general" Sample.ten_turns Sample.start).2 Hstore Hkey)
    as (_ & _ & _ & Hlength & _).
  exact Hlength.
Defined.

(** ** Required fields *)

#[global] Instance extends_frame : Frame extends.
Proof.
  split.
  - split; [intros w; exists []; by rewrite app_nil_r|].
    intros w1 w2 w3 [r1 H1] [r2 H2]. exists (r1 ++ r2).
    by rewrite H2, H1, app_assoc.
  - intros e w _. by exists [e].
  - intros w t. exists []. simpl. by rewrite app_nil_r.
Qed.



(** [Database.query] in full: the pool may refuse, the server may fail, the
    statement may be rejected. *)
Lemma run_Database_query_cases {A} (env : Env) (stmt : Statement)
    (params : list (option string)) (run : Sql A) (w : World) :
  Database_query env stmt params run w =
  let n := length (trace w) in
  let w1 := with_event w (EvQuery stmt params) in
  match pool_connect env n with
  | Some error => (Thrown error, w1)
  | None =>
      match client_query env n with
      | Some error =>
          (Thrown error, with_event w1 (EvLog "Database query error:" (Some error)))
      | None =>
          match run (CURRENT_TIMESTAMP env n) (tables w) with
          | (Ok a, t) => (Ok a, mkWorld (cooldowns w) t (trace w1))
          | (Thrown error, t) =>
              (Thrown error,
               with_event (mkWorld (cooldowns w) t (trace w1))
                 (EvLog "Database query error:" (Some error)))
          end
      end
  end.
Proof.
  unfold Database_query. rewrite run_bind. simpl. rewrite run_bind. simpl.
  destruct (pool_connect env (length (trace w))); [done|].
  rewrite run_try_catch.
  destruct (client_query env (length (trace w))); [done|].
  unfold on_tables. simpl.
  by destruct (run _ (tables w)) as [[a|error] t].
Qed.





(** * More of the program *)

(** ** The history store, whatever the store does *)


(** [getMessageHistory] never throws and never changes the tables or the
    cooldown map; when the pool or the server fails it returns no row. *)
Theorem getMessageHistory_read_only
    (env : Env) (u c : string) (limit : nat) (w : World) :
  let w' := (getMessageHistory env u c limit w).2 in
  (∃ rows, (getMessageHistory env u c limit w).1 = Ok rows ∧
           (¬ store_answers env (length (trace w)) → rows = [])) ∧
  tables w' = tables w ∧
  cooldowns w' = cooldowns w ∧
  sent (trace w') = sent (trace w).
Proof.
  intros w'. unfold w', getMessageHistory.
  rewrite run_try_catch, run_bind, run_Database_query_cases.
  unfold store_answers, sent.
  destruct (pool_connect env (length (trace w))) as [e1|]; simpl.
  { rewrite !omap_app. simpl. rewrite !app_nil_r. repeat split; try done.
    by eexists. }
  destruct (client_query env (length (trace w))) as [e2|]; simpl.
  { rewrite !omap_app. simpl. rewrite !app_nil_r. repeat split; try done.
    by eexists. }
  rewrite !omap_app. simpl. rewrite !app_nil_r. repeat split; try done.
  eexists. split; [done|]. intros Hno. destruct Hno. done.
Qed.

(** [cleanOldHistory] never throws and only ever deletes rows of its own
    (user, channel) pair: the table after is a sublist of the table before,
    the rows of every other pair are the same, and memories, cooldowns and
    sent messages are untouched, whatever the store does. *)
Theorem cleanOldHistory_only_deletes_own_rows
    (env : Env) (u c : string) (keepLast : nat) (w : World) :
  let w' := (cleanOldHistory env u c keepLast w).2 in
  (cleanOldHistory env u c keepLast w).1 = Ok tt ∧
  message_history (tables w') `sublist_of` message_history (tables w) ∧
  filter (λ r, ¬ same_pair u c r) (message_history (tables w')) =
  filter (λ r, ¬ same_pair u c r) (message_history (tables w)) ∧
  memories (tables w') = memories (tables w) ∧
  cooldowns w' = cooldowns w ∧
  sent (trace w') = sent (trace w).
Proof.
  intros w'. unfold w', cleanOldHistory.
  rewrite run_try_catch, run_Database_query_cases. unfold sent.
  destruct (pool_connect env (length (trace w))) as [e1|]; simpl.
  { rewrite !omap_app. simpl. by rewrite !app_nil_r. }
  destruct (client_query env (length (trace w))) as [e2|]; simpl.
  { rewrite !omap_app. simpl. by rewrite !app_nil_r. }
  rewrite !omap_app. simpl. rewrite !app_nil_r.
  repeat split; try done.
  - apply sublist_filter.
  - rewrite list_filter_filter. apply list_filter_iff. tauto.
Qed.

Lemma cleanOldHistory_kept (env : Env) (u c : string) (keepLast : nat) (w : World) :
  store_answers env (length (trace w)) →
  primary_key (tables w) →
  filter (same_pair u c)
    (message_history (tables (cleanOldHistory env u c keepLast w).2)) ≡ₚ
  most_recent u c keepLast (message_history (tables w)).
Proof.
  intros Hstore Hkey. rewrite run_cleanOldHistory by done. simpl.
  set (rows := message_history (tables w)).
  assert (Hnodup : NoDup rows) by (by apply NoDup_fmap_1 in Hkey).
  apply NoDup_Permutation.
  - by do 2 apply NoDup_filter.
  - by apply most_recent_NoDup.
  - intros r. rewrite !list_elem_of_filter. split.
    + intros (Hpair & Hkeep & Hr).
      apply (kept_id_kept_row u c keepLast rows r Hkey Hr).
      destruct (decide (id r ∈ id <$> most_recent u c keepLast rows)); [done|tauto].
    + intros Hr. destruct (most_recent_elem u c keepLast rows r Hr) as [Hin Hpair].
      split; [done|]. split; [|done].
      intros [_ Hid]. apply Hid. by apply list_elem_of_fmap_2.
Qed.

(** Pruning twice is pruning once: a second [cleanOldHistory] with the same
    [keepLast], right after the first, deletes nothing. *)
Theorem cleanOldHistory_twice
    (env : Env) (u c : string) (keepLast : nat) (w : World) :
  let w1 := (cleanOldHistory env u c keepLast w).2 in
  let w2 := (cleanOldHistory env u c keepLast w1).2 in
  store_answers env (length (trace w)) →
  store_answers env (S (length (trace w))) →
  primary_key (tables w) →
  tables w2 = tables w1.
Proof.
  intros w1 w2 Hstore Hstore' Hkey.
  pose proof (cleanOldHistory_kept env u c keepLast w Hstore Hkey) as Hkept.
  fold w1 in Hkept.
  assert (Hlen : length (trace w1) = S (length (trace w))).
  { unfold w1. rewrite run_cleanOldHistory by done. simpl.
    rewrite length_app. simpl. lia. }
  unfold w2. rewrite run_cleanOldHistory by (by rewrite Hlen). simpl.
  set (rows1 := message_history (tables w1)) in *.
  assert (Hall : filter (λ r, ¬ (same_pair u c r ∧
                    id r ∉ id <$> most_recent u c keepLast rows1)) rows1 = rows1).
  { apply filter_everything, Forall_forall. intros r Hr [Hpair Hid].
    apply Hid, list_elem_of_fmap_2. unfold most_recent.
    rewrite take_ge.
    - rewrite merge_sort_Permutation. by apply list_elem_of_filter.
    - rewrite merge_sort_Permutation, Hkept, most_recent_length. lia. }
  rewrite Hall. unfold set_message_history, rows1.
  by destruct (tables w1).
Qed.

Lemma cleanOldHistory_twice_witness :
  let env := Sample.env (Sample.asks None) [] in
  let w10 := (append_all env "42" "general" Sample.ten_turns Sample.start).2 in
  let w1 := (cleanOldHistory env "42" "general" 3 w10).2 in
  length (message_history (tables w1)) = 3%nat ∧
  tables (cleanOldHistory env "42" "general" 3 w1).2 = tables w1.
Proof.
  split; [reflexivity|].
  apply (cleanOldHistory_twice (Sample.env (Sample.asks None) []) "42" "general" 3
           (append_all (Sample.env (Sample.asks None) []) "42" "general"
              Sample.ten_turns Sample.start).2).
  - split; reflexivity.
  - split; reflexivity.
  - apply (bool_decide_unpack _). vm_compute. exact I.
Defined.

Lemma run_clearHistory (env : Env) (args : Json) (context : ToolExecutionContext)
    (w : World) :
  truthy (get_prop args "confirm") = true →
  store_answers env (length (trace w)) →
  (clearHistory env args context w).2 =
  mkWorld (cooldowns w)
    (set_message_history (tables w)
       (filter (λ r, ¬ same_pair (user_ident (user context)) (channelId context) r)
               (message_history (tables w)))
       (message_history_id_seq (tables w)))
    (trace w ++ [EvQuery DELETE_FROM_message_history
                   [Some (user_ident (user context)); Some (channelId context)]]) ∧
  is_ok (clearHistory env args context w).1 = true.
Proof.
  intros Hconfirm Hstore. unfold clearHistory.
  assert (destructurable "confirm" args = Ok tt) as ->.
  { destruct args; try done. }
  rewrite run_lift_bind, Hconfirm. simpl.
  by rewrite run_try_catch, run_bind, run_Database_query by done.
Qed.

(** After [clear_history] with any truthy [confirm] (also a non-empty
    string such as the text false) and an answering store, a fetch for the
    (user, channel) of the context returns no row, and a fetch for any
    other pair returns what it would have returned before. *)
Theorem clear_then_fetch
    (env : Env) (args : Json) (context : ToolExecutionContext) (w : World)
    (limit : nat) :
  let uid := user_ident (user context) in
  let cid := channelId context in
  let w1 := (clearHistory env args context w).2 in
  truthy (get_prop args "confirm") = true →
  store_answers env (length (trace w)) →
  store_answers env (S (length (trace w))) →
  (getMessageHistory env uid cid limit w1).1 = Ok [] ∧
  ∀ u c, ¬ (u = uid ∧ c = cid) →
    (getMessageHistory env u c limit w1).1 = (getMessageHistory env u c limit w).1.
Proof.
  intros uid cid w1 Hconfirm Hstore Hstore'.
  destruct (run_clearHistory env args context w Hconfirm Hstore) as [Hw1 _].
  fold uid cid w1 in Hw1.
  assert (Hlen : length (trace w1) = S (length (trace w))).
  { rewrite Hw1. simpl. rewrite length_app. simpl. lia. }
  split.
  - rewrite run_getMessageHistory by (by rewrite Hlen). simpl.
    rewrite Hw1. simpl. unfold most_recent.
    rewrite list_filter_filter, filter_nothing by (apply Forall_forall; tauto).
    change (merge_sort newer []) with (@nil MessageHistory).
    by rewrite take_nil.
  - intros u c Hother.
    rewrite !run_getMessageHistory by (by rewrite ?Hlen). simpl.
    rewrite Hw1. simpl. unfold most_recent.
    rewrite list_filter_filter. do 4 f_equal.
    apply list_filter_iff. intros r. unfold same_pair. split; [tauto|].
    intros [Hu Hc]. split; [done|]. intros [Hu' Hc']. apply Hother. split; congruence.
Qed.

Lemma clear_then_fetch_witness :
  let env := Sample.env (Sample.asks None) [] in
  let rows := [mkMessageHistory 1 "42" "general" user_role "hi" 100;
               mkMessageHistory 2 "7" "general" user_role "yo" 101;
               mkMessageHistory 3 "42" "general" assistant_role "hello" 102] in
  let w := mkWorld ∅ (mkTables rows [] 4 1) [] in
  let w1 := (clearHistory env (JObj [("confirm", JStr "false")]) Sample.alice w).2 in
  truthy (get_prop (JObj [("confirm", JStr "false")]) "confirm") = true ∧
  (getMessageHistory env "42" "general" 8 w1).1 = Ok [] ∧
  (getMessageHistory env "7" "general" 8 w1).1 =
  Ok [mkMessageHistory 2 "7" "general" user_role "yo" 101].
Proof.
  split; [reflexivity|].
  destruct (clear_then_fetch (Sample.env (Sample.asks None) [])
              (JObj [("confirm", JStr "false")]) Sample.alice
              (mkWorld ∅
                 (mkTables [mkMessageHistory 1 "42" "general" user_role "hi" 100;
                            mkMessageHistory 2 "7" "general" user_role "yo" 101;
                            mkMessageHistory 3 "42" "general" assistant_role "hello" 102]
                    [] 4 1) []) 8) as [Hown Hother].
  - reflexivity.
  - split; reflexivity.
  - split; reflexivity.
  - split; [exact Hown|].
    rewrite (Hother "7" "general"); [reflexivity|].
    intros [Hu _]. discriminate Hu.
Defined.




(** ** The reply pacer, whatever the platform does *)

Lemma sent_with_event (w : World) (e : Event) :
  sent (trace (with_event w e)) =
  sent (trace w) ++ match e with EvReply body true => [body] | _ => [] end.
Proof. unfold sent. simpl. rewrite omap_app. simpl. by destruct e as [| | |? []| | | | |]. Qed.

Lemma saveMessageToHistory_quiet (env : Env) (u c : string) (r : Role)
    (text : JsValue) (w : World) :
  (saveMessageToHistory env u c r text w).1 = Ok tt ∧
  cooldowns (saveMessageToHistory env u c r text w).2 = cooldowns w ∧
  sent (trace (saveMessageToHistory env u c r text w).2) = sent (trace w).
Proof.
  unfold saveMessageToHistory.
  rewrite run_try_catch, run_Database_query_cases. cbv zeta. unfold sent.
  destruct (pool_connect env (length (trace w))); simpl.
  { rewrite !omap_app. simpl. by rewrite !app_nil_r. }
  destruct (client_query env (length (trace w))); simpl.
  { rewrite !omap_app. simpl. by rewrite !app_nil_r. }
  destruct (insert_message_history u c r (pg_param env text) _ (tables w))
    as [[[]|e] t]; simpl; rewrite !omap_app; simpl; by rewrite !app_nil_r.
Qed.

Lemma run_pause (b : bool) (ms : Json) (w : World) :
  ∃ w', (if b then setTimeout ms else mret tt) w = (Ok tt, w') ∧
        sent (trace w') = sent (trace w) ∧
        cooldowns w' = cooldowns w ∧ tables w' = tables w.
Proof.
  destruct b; eexists; (split; [reflexivity|]); [|done].
  by rewrite sent_with_event, app_nil_r.
Qed.

Lemma run_reply (env : Env) (body : JsValue) (w : World) :
  reply env body w =
  match message_reply env (length (trace w)) body with
  | None => (Ok tt, with_event w (EvReply body true))
  | Some error => (Thrown error, with_event w (EvReply body false))
  end.
Proof.
  unfold reply. rewrite run_bind. cbn [tick].
  by destruct (message_reply env (length (trace w)) body).
Qed.

Lemma send_from_prefix (env : Env) (context : ToolExecutionContext)
    (normalizedMessages : list NormalizedMessage) :
  ∀ i results w,
    ∃ k,
      (k ≤ length normalizedMessages)%nat ∧
      sent (trace (send_from env context i normalizedMessages results w).2) =
      sent (trace w) ++ (msg_content <$> take k normalizedMessages) ∧
      match (send_from env context i normalizedMessages results w).1 with
      | Ok statuses =>
          k = length normalizedMessages ∧
          statuses =
          results ++ imap (λ j e, sent_status env (i + j)%nat (cooldown e)) normalizedMessages
      | Thrown _ => (k < length normalizedMessages)%nat
      end.
Proof.
  induction normalizedMessages as [|entry rest IH]; intros i results w.
  - exists 0%nat. simpl. by rewrite !app_nil_r.
  - cbn [send_from]. rewrite run_bind.
    destruct (run_pause (bool_decide (0 < i)%nat && gt_zero env (Some (cooldown entry)))
                (cooldown entry) w) as (w0 & -> & Hw0 & _).
    rewrite run_bind, run_reply.
    destruct (message_reply env (length (trace w0)) (msg_content entry)) as [error|].
    + exists 0%nat. cbn [fst snd].
      rewrite sent_with_event, Hw0, !app_nil_r. cbn [length].
      split; [lia|]. split; [done|lia].
    + rewrite run_bind.
      destruct (saveMessageToHistory_quiet env (user_ident (user context))
                  (channelId context) assistant_role (msg_content entry)
                  (with_event w0 (EvReply (msg_content entry) true)))
        as (Hsaved & _ & Hw2).
      destruct (saveMessageToHistory env _ _ assistant_role (msg_content entry)
                  (with_event w0 (EvReply (msg_content entry) true)))
        as [saved w2]. cbn [fst snd] in Hsaved, Hw2. subst saved.
      destruct (IH (S i) (results ++ [sent_status env i (cooldown entry)]) w2)
        as (k & Hk & Hsent & Hout).
      exists (S k). cbn [length]. split; [lia|]. split.
      * rewrite Hsent, Hw2, sent_with_event, Hw0, <- app_assoc. done.
      * destruct (send_from env context (S i) rest _ w2).1; [|lia].
        destruct Hout as [-> ->]. split; [done|].
        rewrite <- app_assoc. cbn [imap app]. rewrite Nat.add_0_r. do 2 f_equal.
        apply imap_ext. intros j e _. cbn. f_equal. lia.
Qed.

Lemma check_cooldown_sends_nothing (env : Env) (uid : string)
    (normalizedMessages : list NormalizedMessage) (w : World) :
  sent (trace (check_cooldown env uid normalizedMessages w).2) = sent (trace w) ∧
  (is_ok (check_cooldown env uid normalizedMessages w).1 = false →
   (1 < length normalizedMessages)%nat).
Proof.
  unfold check_cooldown. case_decide as Hlen; [|done].
  split; [|done].
  rewrite run_bind. unfold get_cooldown. cbn beta iota. rewrite run_bind.
  destruct (cooldowns w !! cooldownKey uid) as [entry|].
  - rewrite run_bind, run_now. case_decide.
    + rewrite run_bind, run_now. cbn [throw snd].
      by rewrite !sent_with_event, !app_nil_r.
    + cbn [mret M_ret]. rewrite run_bind, run_now. cbn [set_cooldown snd trace].
      by rewrite !sent_with_event, !app_nil_r.
  - cbn [mret M_ret]. rewrite run_bind, run_now. cbn [set_cooldown snd trace].
    by rewrite !sent_with_event, !app_nil_r.
Qed.

(** What [reply_to_user] delivers is always a prefix of the normalized
    list, in order: all of it exactly when the call returns (with
    [messages_sent] the length of the list and one status line per
    message), a strict prefix when it throws. A failure to store a sent
    message in the history never stops the sending. *)
Theorem replyToUser_delivers_a_prefix
    (env : Env) (args : Json) (context : ToolExecutionContext) (w : World)
    (normalizedMessages : list NormalizedMessage) :
  normalize (get_prop args "messages") = Ok normalizedMessages →
  ∃ k,
    (k ≤ length normalizedMessages)%nat ∧
    sent (trace (replyToUser env args context w).2) =
    sent (trace w) ++ (msg_content <$> take k normalizedMessages) ∧
    match (replyToUser env args context w).1 with
    | Ok result =>
        k = length normalizedMessages ∧
        result =
        object [("success", Some (JBool true));
                ("messages_sent", Some (JNum (Z.of_nat (length normalizedMessages))));
                ("results",
                 Some (JArr (imap (λ j e, sent_status env j (cooldown e))
                                  normalizedMessages)))]
    | Thrown _ => (k < length normalizedMessages)%nat
    end.
Proof.
  intros Hnormal. rewrite (run_replyToUser env args context _ w Hnormal).
  destruct (check_cooldown_sends_nothing env (user_ident (user context))
              normalizedMessages w) as [Hquiet Hmany].
  destruct (check_cooldown env (user_ident (user context)) normalizedMessages w)
    as [[[]|error] w1]; cbn [fst snd] in *.
  2: { exists 0%nat. rewrite Hquiet, app_nil_r. specialize (Hmany eq_refl).
       split; [lia|]. split; [done|lia]. }
  unfold deliver. rewrite run_try_catch, run_bind.
  destruct (run_pause (gt_zero env (Some (default (JNum 0) (get_prop args "timeout"))))
              (default (JNum 0) (get_prop args "timeout")) w1)
    as (w2 & -> & Hw2 & _).
  rewrite run_bind.
  destruct (send_from_prefix env context normalizedMessages 0 [] w2)
    as (k & Hk & Hsent & Hout).
  exists k. split; [done|].
  destruct (send_from env context 0 normalizedMessages [] w2) as [[statuses|error] w3];
    cbn [fst snd] in *.
  - cbn [mret M_ret fst snd]. rewrite Hsent, Hw2, Hquiet. split; [done|].
    destruct Hout as [-> ->]. done.
  - rewrite run_bind. cbn [logger_error emit throw fst snd].
    by rewrite sent_with_event, app_nil_r, Hsent, Hw2, Hquiet.
Qed.

Lemma replyToUser_delivers_a_prefix_witness :
  let env := Sample.env (Sample.asks None) [4%nat] in
  let args := JObj [("messages", JArr [JStr "a"; JStr "b"; JStr "c"])] in
  let normalizedMessages :=
    [mkNormalized (Some (JStr "a")) (JNum 0);
     mkNormalized (Some (JStr "b")) (JNum 1000);
     mkNormalized (Some (JStr "c")) (JNum 1000)] in
  normalize (get_prop args "messages") = Ok normalizedMessages ∧
  ∃ k, (k ≤ 3)%nat ∧
       sent (trace (replyToUser env args Sample.alice Sample.start).2) =
       sent (trace Sample.start) ++ (msg_content <$> take k normalizedMessages) ∧
       match (replyToUser env args Sample.alice Sample.start).1 with
       | Ok result =>
           k = 3%nat ∧
           result =
           object [("success", Some (JBool true));
                   ("messages_sent", Some (JNum 3));
                   ("results",
                    Some (JArr (imap (λ j e, sent_status env j (cooldown e))
                                     normalizedMessages)))]
       | Thrown _ => (k < 3)%nat
       end.
Proof.
  split; [reflexivity|].
  exact (replyToUser_delivers_a_prefix
           (Sample.env (Sample.asks None) [4%nat])
           (JObj [("messages", JArr [JStr "a"; JStr "b"; JStr "c"])])
           Sample.alice Sample.start
           [mkNormalized (Some (JStr "a")) (JNum 0);
            mkNormalized (Some (JStr "b")) (JNum 1000);
            mkNormalized (Some (JStr "c")) (JNum 1000)] eq_refl).
Defined.

(** ** What a tool may touch

    The same argument as for frames, with the statements, the writes to
    the cooldown map and the requests each held to a relation of their
    own. *)

Section Within.
Context (T : relation Tables) (C : relation (gmap string CooldownEntry))
  (E : Event → Prop) `{!PreOrder T, !PreOrder C}.

Lemma within_refl (w : World) : within T C E w w.
Proof.
  split; [done|]. split; [done|]. exists []. by rewrite app_nil_r.
Qed.

Lemma within_trans (w1 w2 w3 : World) :
  within T C E w1 w2 → within T C E w2 w3 → within T C E w1 w3.
Proof.
  intros (HT1 & HC1 & rest1 & Htrace1 & HE1) (HT2 & HC2 & rest2 & Htrace2 & HE2).
  split; [by etransitivity|]. split; [by etransitivity|].
  exists (rest1 ++ rest2). rewrite Htrace2, Htrace1, <- app_assoc.
  split; [done|]. by apply Forall_app.
Qed.

Lemma within_ret {A} (a : A) : respects (within T C E) (mret a).
Proof. intros w. apply within_refl. Qed.

Lemma within_throw {A} (e : Exn) : respects (within T C E) (@throw A e).
Proof. intros w. apply within_refl. Qed.

Lemma within_lift {A} (o : Outcome A) : respects (within T C E) (lift o).
Proof. intros w. apply within_refl. Qed.

Lemma within_tick : respects (within T C E) tick.
Proof. intros w. apply within_refl. Qed.

Lemma within_get_cooldown key : respects (within T C E) (get_cooldown key).
Proof. intros w. apply within_refl. Qed.

Lemma within_emit (e : Event) : E e → respects (within T C E) (emit e).
Proof.
  intros He w. split; [done|]. split; [done|]. exists [e].
  split; [done|]. by constructor.
Qed.

Lemma within_set_cooldown key entry :
  (∀ m, C m (<[key := entry]> m)) →
  respects (within T C E) (set_cooldown key entry).
Proof.
  intros HC w. split; [done|]. split; [apply HC|]. exists [].
  by rewrite app_nil_r.
Qed.

Lemma within_on_tables {A} (run : Tables → Outcome A * Tables) :
  (∀ t, T t (run t).2) → respects (within T C E) (on_tables run).
Proof.
  intros HT w. unfold on_tables. specialize (HT (tables w)).
  destruct (run (tables w)) as [result t]. split; [done|]. split; [done|].
  exists []. by rewrite app_nil_r.
Qed.

Lemma within_bind {A B} (m : M A) (f : A → M B) :
  respects (within T C E) m → (∀ a, respects (within T C E) (f a)) →
  respects (within T C E) (m ≫= f).
Proof.
  intros Hm Hf w. rewrite run_bind. specialize (Hm w).
  destruct (m w) as [[a|e] w']; simpl in *; [|done].
  eapply within_trans; [exact Hm|apply Hf].
Qed.

Lemma within_try_catch {A} (body : M A) (handler : Exn → M A) :
  respects (within T C E) body → (∀ e, respects (within T C E) (handler e)) →
  respects (within T C E) (try_catch body handler).
Proof.
  intros Hm Hf w. rewrite run_try_catch. specialize (Hm w).
  destruct (body w) as [[a|e] w']; simpl in *; [done|].
  eapply within_trans; [exact Hm|apply Hf].
Qed.

End Within.

#[global] Instance within_preorder T C E `{!PreOrder T, !PreOrder C} :
  PreOrder (within T C E).
Proof.
  split; [intros w; by apply within_refl|].
  intros w1 w2 w3. by apply within_trans.
Qed.

Ltac within_step :=
  first
    [ match goal with
      | |- PreOrder _ => exact _
      end
    | apply within_ret | apply within_throw | apply within_lift
    | apply within_tick | apply within_get_cooldown
    | apply within_bind
    | apply within_try_catch
    | match goal with
      | |- respects _ (if ?b then _ else _) => destruct b
      | |- respects _ (match ?x with _ => _ end) => destruct x
      | |- ∀ _, _ => intro
      end ].

Ltac within := repeat within_step.

(** The same, with the steps already proved tried first. *)
Tactic Notation "within" "by" tactic3(known) :=
  repeat first [ known | within_step ].

Section WithinOfMethods.
Context (env : Env) (T : relation Tables) (C : relation (gmap string CooldownEntry))
  (E : Event → Prop) `{!PreOrder T, !PreOrder C}.
Context (context : ToolExecutionContext).

Hypothesis E_quiet : ∀ e, quiet e → E e.
Hypothesis E_reply : ∀ body delivered, E (EvReply body delivered).
Hypothesis E_chat : ∀ request, E (EvChat request).
Hypothesis T_append : ∀ r text timestamp t,
  T t (insert_message_history (user_ident (user context)) (channelId context)
         r text timestamp t).2.
Hypothesis T_clear : ∀ timestamp t,
  T t (delete_message_history (user_ident (user context)) (channelId context)
         timestamp t).2.
Hypothesis T_memory : ∀ uid kw text timestamp t,
  T t (insert_memory uid kw text timestamp t).2.
Hypothesis C_reply : ∀ entry m,
  C m (<[cooldownKey (user_ident (user context)) := entry]> m).

Lemma emit_quiet_within (e : Event) :
  quiet e → respects (within T C E) (emit e).
Proof. intros He. apply within_emit; try exact _. by apply E_quiet. Qed.

Lemma logger_error_within line error :
  respects (within T C E) (logger_error line error).
Proof. apply emit_quiet_within. split; simpl; tauto. Qed.

Lemma now_within : respects (within T C E) (now env).
Proof.
  unfold now. within by (apply emit_quiet_within; split; simpl; tauto).
Qed.

Lemma setTimeout_within ms : respects (within T C E) (setTimeout ms).
Proof. apply emit_quiet_within. split; simpl; tauto. Qed.

Lemma Database_query_within {A} stmt params (run : Sql A) :
  (∀ timestamp t, T t (run timestamp t).2) →
  respects (within T C E) (Database_query env stmt params run).
Proof.
  intros Hrun. unfold Database_query. within by first [ apply logger_error_within
          | apply emit_quiet_within; split; simpl; tauto
          | apply within_on_tables; [exact _..|apply Hrun] ].
Qed.

Lemma select_memories_reads rank uid kw timestamp t :
  (select_memories rank uid kw timestamp t).2 = t.
Proof. unfold select_memories. by destruct uid, kw. Qed.

Lemma saveMessageToHistory_within r text :
  respects (within T C E)
    (saveMessageToHistory env (user_ident (user context)) (channelId context) r text).
Proof.
  unfold saveMessageToHistory. within by first [ apply logger_error_within
          | apply Database_query_within; intros; apply T_append ].
Qed.

Lemma reply_within body : respects (within T C E) (reply env body).
Proof.
  unfold reply. within by (apply within_emit; first [exact _ | apply E_reply]).
Qed.

Lemma send_from_within normalizedMessages :
  ∀ i results,
    respects (within T C E) (send_from env context i normalizedMessages results).
Proof.
  induction normalizedMessages as [|entry rest IH]; intros i results; simpl.
  - within.
  - within by first [ apply setTimeout_within | apply reply_within
            | apply saveMessageToHistory_within | apply IH ].
Qed.

Lemma check_cooldown_within normalizedMessages :
  respects (within T C E)
    (check_cooldown env (user_ident (user context)) normalizedMessages).
Proof.
  unfold check_cooldown. within by first [ apply now_within
          | apply within_set_cooldown; first [exact _ | intros; apply C_reply] ].
Qed.

Lemma replyToUser_within args :
  respects (within T C E) (replyToUser env args context).
Proof.
  unfold replyToUser, deliver. within by first [ apply check_cooldown_within | apply send_from_within
          | apply setTimeout_within | apply logger_error_within ].
Qed.

Lemma getMemory_within args : respects (within T C E) (getMemory env args context).
Proof.
  unfold getMemory. within by first [ apply logger_error_within
          | apply Database_query_within; intros;
            rewrite select_memories_reads; reflexivity ].
Qed.

Lemma saveMemory_within args : respects (within T C E) (saveMemory env args context).
Proof.
  unfold saveMemory. within by first [ apply logger_error_within
          | apply Database_query_within; intros; apply T_memory ].
Qed.

Lemma getUserInfo_within args : respects (within T C E) (getUserInfo env args context).
Proof.
  unfold getUserInfo. within by first [ apply logger_error_within
          | apply emit_quiet_within; split; simpl; tauto ].
Qed.

Lemma getServerInfo_within : respects (within T C E) (getServerInfo env context).
Proof.
  unfold getServerInfo. within by first [ apply logger_error_within
          | apply emit_quiet_within; split; simpl; tauto ].
Qed.

Lemma getTime_within args : respects (within T C E) (getTime env args).
Proof.
  unfold getTime. within by first [ apply logger_error_within | apply now_within ].
Qed.

Lemma getWeather_within args : respects (within T C E) (getWeather env args).
Proof.
  unfold getWeather. within by first [ apply logger_error_within
          | apply emit_quiet_within; split; simpl; tauto ].
Qed.

Lemma clearHistory_within args :
  respects (within T C E) (clearHistory env args context).
Proof.
  unfold clearHistory. within by first [ apply logger_error_within
          | apply Database_query_within; intros; apply T_clear ].
Qed.

Lemma executeTool_within toolCall :
  respects (within T C E) (executeTool env toolCall context).
Proof.
  unfold executeTool. apply within_bind; try exact _; [apply within_lift; exact _|].
  intros parsedArgs.
  repeat case_decide;
    first [ apply replyToUser_within | apply getMemory_within
          | apply saveMemory_within | apply getUserInfo_within
          | apply getTime_within | apply getWeather_within
          | apply getServerInfo_within | apply clearHistory_within
          | apply within_throw; exact _ ].
Qed.

Lemma tool_loop_within original calls :
  ∀ messages, respects (within T C E) (tool_loop env original context messages calls).
Proof.
  induction calls as [|toolCall rest IH]; intros messages; simpl.
  - within.
  - unfold tool_step. within by first [ apply executeTool_within | apply logger_error_within | apply IH ].
Qed.

Lemma create_within request : respects (within T C E) (create env request).
Proof.
  unfold create. within by (apply within_emit; first [exact _ | apply E_chat]).
Qed.

Lemma generateResponse_within messages :
  respects (within T C E) (generateResponse env messages (Some context)).
Proof.
  unfold generateResponse. within by first [ apply create_within | apply tool_loop_within
          | apply logger_error_within ].
Qed.

End WithinOfMethods.

(** *** The relations the tools are held to *)

#[global] Instance other_pairs_kept_preorder u c : PreOrder (other_pairs_kept u c).
Proof.
  split; [by intros t u' c' _|].
  intros t1 t2 t3 H12 H23 u' c' Hother.
  by rewrite (H23 u' c' Hother), (H12 u' c' Hother).
Qed.

#[global] Instance memories_grow_preorder : PreOrder memories_grow.
Proof.
  split; [intros t; unfold memories_grow; reflexivity|].
  intros t1 t2 t3 H12 H23. unfold memories_grow in *. by etransitivity.
Qed.

#[global] Instance keeps_keys_preorder : PreOrder keeps_keys.
Proof.
  split; [by intros t|].
  intros t1 t2 t3 [Ha Hb] [Hc Hd]. split; auto.
Qed.

#[global] Instance other_keys_kept_preorder key : PreOrder (other_keys_kept key).
Proof.
  split; [by intros m k _|].
  intros m1 m2 m3 H12 H23 k Hk. by rewrite (H23 k Hk), (H12 k Hk).
Qed.

#[global] Instance same_history_preorder : PreOrder same_history.
Proof.
  split; [by intros t|].
  intros t1 t2 t3 [Ha Hb] [Hc Hd]. split; congruence.
Qed.

#[global] Instance same_memories_preorder : PreOrder same_memories.
Proof.
  split; [by intros t|].
  intros t1 t2 t3 [Ha Hb] [Hc Hd]. split; congruence.
Qed.

#[global] Instance anything_preorder {A} : PreOrder (λ _ _ : A, True).
Proof. by split. Qed.

Lemma insert_memory_history uid kw text timestamp t :
  same_history t (insert_memory uid kw text timestamp t).2.
Proof. unfold insert_memory. by destruct uid, kw, text. Qed.

Lemma insert_message_history_memories u c r text timestamp t :
  same_memories t (insert_message_history u c r text timestamp t).2.
Proof. unfold insert_message_history. by destruct text. Qed.

Lemma delete_message_history_memories u c timestamp t :
  same_memories t (delete_message_history u c timestamp t).2.
Proof. done. Qed.

Lemma filter_other_pair (u c u' c' : string) (rows : list MessageHistory) :
  (u', c') ≠ (u, c) →
  filter (same_pair u' c') (filter (λ r, ¬ same_pair u c r) rows) =
  filter (same_pair u' c') rows.
Proof.
  intros Hother. induction rows as [|row rows IH]; [done|].
  destruct (decide (same_pair u c row)) as [Hrow|Hrow].
  - rewrite (filter_cons_False (λ r, ¬ same_pair u c r)) by tauto.
    rewrite (filter_cons_False (same_pair u' c')); [done|].
    intros [Hu Hc]. destruct Hrow as [Hu' Hc']. apply Hother. congruence.
  - rewrite (filter_cons_True (λ r, ¬ same_pair u c r)) by done.
    destruct (decide (same_pair u' c' row)).
    + rewrite !(filter_cons_True (same_pair u' c')) by done. by rewrite IH.
    + by rewrite !(filter_cons_False (same_pair u' c')) by done.
Qed.

Lemma insert_keeps_other_pairs u c r text timestamp t :
  other_pairs_kept u c t (insert_message_history u c r text timestamp t).2.
Proof.
  intros u' c' Hother. unfold insert_message_history.
  destruct text as [text|]; [|done]. simpl. rewrite filter_app.
  rewrite (filter_cons_False (same_pair u' c')); [by rewrite filter_nil, app_nil_r|].
  intros [Hu Hc]. simpl in *. apply Hother. congruence.
Qed.

Lemma delete_keeps_other_pairs u c timestamp t :
  other_pairs_kept u c t (delete_message_history u c timestamp t).2.
Proof. intros u' c' Hother. simpl. by apply filter_other_pair. Qed.

Lemma insert_memory_keeps_other_pairs u c uid kw text timestamp t :
  other_pairs_kept u c t (insert_memory uid kw text timestamp t).2.
Proof.
  intros u' c' _. by destruct (insert_memory_history uid kw text timestamp t) as [-> _].
Qed.

Lemma insert_memory_grows uid kw text timestamp t :
  memories_grow t (insert_memory uid kw text timestamp t).2.
Proof.
  unfold memories_grow, insert_memory.
  destruct uid, kw, text; simpl; try done. by apply prefix_app_r.
Qed.

Lemma insert_memory_keeps_keys uid kw text timestamp t :
  keeps_keys t (insert_memory uid kw text timestamp t).2.
Proof.
  unfold insert_memory.
  destruct uid as [uid|], kw as [kw|], text as [text|]; try done.
  split; [done|]. intros [Hkey Hahead]. split; simpl.
  - rewrite fmap_app. simpl. apply NoDup_app. split; [done|].
    split; [|apply NoDup_singleton].
    intros i Hi ->%list_elem_of_singleton.
    apply list_elem_of_fmap in Hi as (m & Hid & Hm).
    rewrite Forall_forall in Hahead. specialize (Hahead m Hm). lia.
  - apply Forall_app. split.
    + eapply Forall_impl; [exact Hahead|]. simpl. intros m. lia.
    + constructor; [simpl; lia|constructor].
Qed.

Lemma insert_message_history_keeps_keys u c r text timestamp t :
  keeps_keys t (insert_message_history u c r text timestamp t).2.
Proof.
  split; [apply insert_keeps_key|]. unfold insert_message_history.
  by destruct text.
Qed.

Lemma delete_message_history_keeps_keys u c timestamp t :
  keeps_keys t (delete_message_history u c timestamp t).2.
Proof. split; [apply delete_keeps_key|done]. Qed.

Lemma insert_other_keys_kept key (entry : CooldownEntry) m :
  other_keys_kept key m (<[key := entry]> m).
Proof. intros k Hk. by rewrite lookup_insert_ne. Qed.

Lemma executeTool_cases (env : Env) (R : relation World) `{!Reflexive R}
    (toolCall : ToolCall) (context : ToolExecutionContext) :
  (name toolCall = "reply_to_user" → ∀ args, respects R (replyToUser env args context)) →
  (name toolCall = "get_memory" → ∀ args, respects R (getMemory env args context)) →
  (name toolCall = "save_memory" → ∀ args, respects R (saveMemory env args context)) →
  (name toolCall = "get_user_info" → ∀ args, respects R (getUserInfo env args context)) →
  (name toolCall = "get_time" → ∀ args, respects R (getTime env args)) →
  (name toolCall = "get_weather" → ∀ args, respects R (getWeather env args)) →
  (name toolCall = "get_server_info" → respects R (getServerInfo env context)) →
  (name toolCall = "clear_history" → ∀ args, respects R (clearHistory env args context)) →
  respects R (executeTool env toolCall context).
Proof.
  intros Hreply Hget Hsave Huser Htime Hweather Hserver Hclear w.
  unfold executeTool. rewrite run_lift_bind.
  destruct (JSON_parse env (arguments toolCall)) as [parsedArgs|error]; [|done].
  repeat case_decide;
    first [ by apply Hreply | by apply Hget | by apply Hsave | by apply Huser
          | by apply Htime | by apply Hweather | by apply Hserver
          | by apply Hclear | done ].
Qed.

(** ** Isolation *)

(** Whatever the model asks for and whatever fails, a tool call and a whole
    model cycle made for one user in one channel leave the stored history
    of every other (user, channel) pair exactly as it was. *)
Theorem other_histories_are_untouched
    (env : Env) (messages : list Turn) (toolCall : ToolCall)
    (context : ToolExecutionContext) (w : World) (u' c' : string) :
  (u', c') ≠ (user_ident (user context), channelId context) →
  filter (same_pair u' c')
    (message_history (tables (executeTool env toolCall context w).2)) =
  filter (same_pair u' c') (message_history (tables w)) ∧
  filter (same_pair u' c')
    (message_history (tables (generateResponse env messages (Some context) w).2)) =
  filter (same_pair u' c') (message_history (tables w)).
Proof.
  intros Hother.
  pose (T := other_pairs_kept (user_ident (user context)) (channelId context)).
  pose (C := λ _ _ : gmap string CooldownEntry, True).
  pose (E := λ _ : Event, True).
  split.
  - destruct (executeTool_within env T C E context) with (toolCall := toolCall) (w := w)
      as (Hkept & _); try done.
    + intros. apply insert_keeps_other_pairs.
    + intros. apply delete_keeps_other_pairs.
    + intros. apply insert_memory_keeps_other_pairs.
    + by apply Hkept.
  - destruct (generateResponse_within env T C E context) with (messages := messages) (w := w)
      as (Hkept & _); try done.
    + intros. apply insert_keeps_other_pairs.
    + intros. apply delete_keeps_other_pairs.
    + intros. apply insert_memory_keeps_other_pairs.
    + by apply Hkept.
Qed.

Lemma other_histories_are_untouched_witness :
  let env := Sample.env (Sample.asks (Some [mkToolCall "clear_history" Sample.confirm_true])) [] in
  let toolCall := mkToolCall "clear_history" Sample.confirm_true in
  ("7", "general") ≠ (user_ident (user Sample.alice), channelId Sample.alice) ∧
  filter (same_pair "7" "general")
    (message_history (tables (executeTool env toolCall Sample.alice two_conversations).2)) =
  filter (same_pair "7" "general") (message_history (tables two_conversations)) ∧
  filter (same_pair "7" "general")
    (message_history
       (tables (generateResponse env Sample.hello (Some Sample.alice) two_conversations).2)) =
  filter (same_pair "7" "general") (message_history (tables two_conversations)).
Proof.
  assert (Hother : ("7", "general") ≠
                   (user_ident (user Sample.alice), channelId Sample.alice))
    by (simpl; discriminate).
  split; [exact Hother|].
  exact (other_histories_are_untouched
           (Sample.env (Sample.asks (Some [mkToolCall "clear_history" Sample.confirm_true])) [])
           Sample.hello (mkToolCall "clear_history" Sample.confirm_true)
           Sample.alice two_conversations "7" "general" Hother).
Defined.

(** Whatever the model asks for and whatever fails, a tool call and a whole
    model cycle made for one user write no entry of the cooldown map but
    that user's [reply_] entry. *)
Theorem other_cooldowns_are_untouched
    (env : Env) (messages : list Turn) (toolCall : ToolCall)
    (context : ToolExecutionContext) (w : World) (key : string) :
  key ≠ cooldownKey (user_ident (user context)) →
  cooldowns (executeTool env toolCall context w).2 !! key = cooldowns w !! key ∧
  cooldowns (generateResponse env messages (Some context) w).2 !! key =
  cooldowns w !! key.
Proof.
  intros Hother.
  pose (T := λ _ _ : Tables, True).
  pose (C := other_keys_kept (cooldownKey (user_ident (user context)))).
  pose (E := λ _ : Event, True).
  split.
  - destruct (executeTool_within env T C E context) with (toolCall := toolCall) (w := w)
      as (_ & Hkept & _); try done.
    + intros. apply insert_other_keys_kept.
    + by apply Hkept.
  - destruct (generateResponse_within env T C E context) with (messages := messages) (w := w)
      as (_ & Hkept & _); try done.
    + intros. apply insert_other_keys_kept.
    + by apply Hkept.
Qed.

Lemma other_cooldowns_are_untouched_witness :
  let env := Sample.env (Sample.asks (Some [mkToolCall "reply_to_user" Sample.messages_abc])) [] in
  let toolCall := mkToolCall "reply_to_user" Sample.messages_abc in
  cooldownKey "7" ≠ cooldownKey (user_ident (user Sample.alice)) ∧
  cooldowns (executeTool env toolCall Sample.alice two_conversations).2 !! cooldownKey "7" =
  cooldowns two_conversations !! cooldownKey "7" ∧
  cooldowns (generateResponse env Sample.hello (Some Sample.alice) two_conversations).2
    !! cooldownKey "7" =
  cooldowns two_conversations !! cooldownKey "7".
Proof.
  assert (Hother : cooldownKey "7" ≠ cooldownKey (user_ident (user Sample.alice)))
    by (vm_compute; discriminate).
  split; [exact Hother|].
  exact (other_cooldowns_are_untouched
           (Sample.env (Sample.asks (Some [mkToolCall "reply_to_user" Sample.messages_abc])) [])
           Sample.hello (mkToolCall "reply_to_user" Sample.messages_abc)
           Sample.alice two_conversations (cooldownKey "7") Hother).
Defined.

(** No tool call and no model cycle deletes, rewrites or reorders a memory:
    the memories there were are a prefix of the memories there are. *)
Theorem memories_are_only_added
    (env : Env) (messages : list Turn) (toolCall : ToolCall)
    (context : ToolExecutionContext) (w : World) :
  memories (tables w) `prefix_of`
    memories (tables (executeTool env toolCall context w).2) ∧
  memories (tables w) `prefix_of`
    memories (tables (generateResponse env messages (Some context) w).2).
Proof.
  pose (C := λ _ _ : gmap string CooldownEntry, True).
  pose (E := λ _ : Event, True).
  assert (Happend : ∀ r text timestamp t,
            memories_grow t
              (insert_message_history (user_ident (user context)) (channelId context)
                 r text timestamp t).2).
  { intros. unfold memories_grow.
    by destruct (insert_message_history_memories
                   (user_ident (user context)) (channelId context)
                   r text timestamp t) as [-> _]. }
  assert (Hclear : ∀ timestamp t,
            memories_grow t
              (delete_message_history (user_ident (user context)) (channelId context)
                 timestamp t).2).
  { intros. unfold memories_grow. simpl. reflexivity. }
  split.
  - destruct (executeTool_within env memories_grow C E context)
      with (toolCall := toolCall) (w := w) as (Hkept & _); try done.
    intros. apply insert_memory_grows.
  - destruct (generateResponse_within env memories_grow C E context)
      with (messages := messages) (w := w) as (Hkept & _); try done.
    intros. apply insert_memory_grows.
Qed.

(** The keys hold: if ids are unique and behind their sequences in both
    tables, they are so after any tool call and after any model cycle. *)
Theorem keys_are_kept
    (env : Env) (messages : list Turn) (toolCall : ToolCall)
    (context : ToolExecutionContext) (w : World) :
  key_invariant (tables w) →
  memories_key_invariant (tables w) →
  (key_invariant (tables (executeTool env toolCall context w).2) ∧
   memories_key_invariant (tables (executeTool env toolCall context w).2)) ∧
  (key_invariant (tables (generateResponse env messages (Some context) w).2) ∧
   memories_key_invariant (tables (generateResponse env messages (Some context) w).2)).
Proof.
  intros Hhistory Hmemories.
  pose (C := λ _ _ : gmap string CooldownEntry, True).
  pose (E := λ _ : Event, True).
  split.
  - destruct (executeTool_within env keeps_keys C E context)
      with (toolCall := toolCall) (w := w) as ([Ha Hb] & _); try done; [..|by auto].
    + intros. apply insert_message_history_keeps_keys.
    + intros. apply delete_message_history_keeps_keys.
    + intros. apply insert_memory_keeps_keys.
  - destruct (generateResponse_within env keeps_keys C E context)
      with (messages := messages) (w := w) as ([Ha Hb] & _); try done; [..|by auto].
    + intros. apply insert_message_history_keeps_keys.
    + intros. apply delete_message_history_keeps_keys.
    + intros. apply insert_memory_keeps_keys.
Qed.

Lemma keys_are_kept_witness :
  let env := Sample.env (Sample.asks (Some [mkToolCall "clear_history" Sample.confirm_true])) [] in
  let toolCall := mkToolCall "clear_history" Sample.confirm_true in
  (key_invariant (tables two_conversations) ∧
   memories_key_invariant (tables two_conversations)) ∧
  (key_invariant (tables (executeTool env toolCall Sample.alice two_conversations).2) ∧
   memories_key_invariant
     (tables (executeTool env toolCall Sample.alice two_conversations).2)) ∧
  (key_invariant
     (tables (generateResponse env Sample.hello (Some Sample.alice) two_conversations).2) ∧
   memories_key_invariant
     (tables (generateResponse env Sample.hello (Some Sample.alice) two_conversations).2)).
Proof.
  assert (Hhistory : key_invariant (tables two_conversations))
    by (split; apply (bool_decide_unpack _); vm_compute; exact I).
  assert (Hmemories : memories_key_invariant (tables two_conversations))
    by (split; apply (bool_decide_unpack _); vm_compute; exact I).
  split; [exact (conj Hhistory Hmemories)|].
  exact (keys_are_kept
           (Sample.env (Sample.asks (Some [mkToolCall "clear_history" Sample.confirm_true])) [])
           Sample.hello (mkToolCall "clear_history" Sample.confirm_true)
           Sample.alice two_conversations Hhistory Hmemories).
Defined.

(** ** Which tool writes what *)

(** Only [reply_to_user] talks to the channel and writes the cooldown map:
    a call of any other name--known or not, with arguments well formed or
    not--leaves the map as it was and makes no attempt to reply, and no
    request to the model. *)
Theorem only_reply_to_user_replies
    (env : Env) (toolCall : ToolCall) (context : ToolExecutionContext) (w : World) :
  name toolCall ≠ "reply_to_user" →
  cooldowns (executeTool env toolCall context w).2 = cooldowns w ∧
  ∃ rest, trace (executeTool env toolCall context w).2 = trace w ++ rest ∧
          Forall quiet rest.
Proof.
  intros Hname.
  destruct (executeTool_cases env (within (λ _ _, True) eq quiet) toolCall context)
    with (w := w) as (_ & Hmap & Htrace); try done.
  - intros _ args. apply getMemory_within; try exact _; done.
  - intros _ args. apply saveMemory_within; try exact _; done.
  - intros _ args. apply getUserInfo_within; try exact _; done.
  - intros _ args. apply getTime_within; try exact _; done.
  - intros _ args. apply getWeather_within; try exact _; done.
  - intros _. apply getServerInfo_within; try exact _; done.
  - intros _ args. apply clearHistory_within; try exact _; done.
Qed.

Lemma only_reply_to_user_replies_witness :
  let env := Sample.env (Sample.asks None) [] in
  let toolCall := mkToolCall "clear_history" Sample.confirm_true in
  name toolCall ≠ "reply_to_user" ∧
  cooldowns (executeTool env toolCall Sample.alice two_conversations).2 =
  cooldowns two_conversations ∧
  ∃ rest, trace (executeTool env toolCall Sample.alice two_conversations).2 =
          trace two_conversations ++ rest ∧
          Forall quiet rest.
Proof.
  assert (Hname : name (mkToolCall "clear_history" Sample.confirm_true) ≠ "reply_to_user")
    by (simpl; discriminate).
  split; [exact Hname|].
  exact (only_reply_to_user_replies (Sample.env (Sample.asks None) [])
           (mkToolCall "clear_history" Sample.confirm_true)
           Sample.alice two_conversations Hname).
Defined.

(** Only [save_memory] writes the memories: a call of any other name
    leaves the table and its sequence as they were. *)
Theorem only_save_memory_writes_memories
    (env : Env) (toolCall : ToolCall) (context : ToolExecutionContext) (w : World) :
  name toolCall ≠ "save_memory" →
  memories (tables (executeTool env toolCall context w).2) = memories (tables w) ∧
  memories_id_seq (tables (executeTool env toolCall context w).2) =
  memories_id_seq (tables w).
Proof.
  intros Hname.
  destruct (executeTool_cases env (within same_memories (λ _ _, True) (λ _, True))
              toolCall context)
    with (w := w) as (Hsame & _); try done.
  - intros _ args. apply replyToUser_within; try exact _; try done.
    intros. apply insert_message_history_memories.
  - intros _ args. apply getMemory_within; try exact _; done.
  - intros _ args. apply getUserInfo_within; try exact _; done.
  - intros _ args. apply getTime_within; try exact _; done.
  - intros _ args. apply getWeather_within; try exact _; done.
  - intros _. apply getServerInfo_within; try exact _; done.
  - intros _ args. apply clearHistory_within; try exact _; done.
Qed.

Lemma only_save_memory_writes_memories_witness :
  let env := Sample.env (Sample.asks None) [] in
  let toolCall := mkToolCall "reply_to_user" Sample.messages_abc in
  name toolCall ≠ "save_memory" ∧
  memories (tables (executeTool env toolCall Sample.alice two_conversations).2) =
  memories (tables two_conversations) ∧
  memories_id_seq (tables (executeTool env toolCall Sample.alice two_conversations).2) =
  memories_id_seq (tables two_conversations).
Proof.
  assert (Hname : name (mkToolCall "reply_to_user" Sample.messages_abc) ≠ "save_memory")
    by (simpl; discriminate).
  split; [exact Hname|].
  exact (only_save_memory_writes_memories (Sample.env (Sample.asks None) [])
           (mkToolCall "reply_to_user" Sample.messages_abc)
           Sample.alice two_conversations Hname).
Defined.

(** Only [reply_to_user] and [clear_history] write the history: a call of
    any other name leaves the table and its sequence as they were. *)
Theorem only_two_tools_write_history
    (env : Env) (toolCall : ToolCall) (context : ToolExecutionContext) (w : World) :
  name toolCall ≠ "reply_to_user" →
  name toolCall ≠ "clear_history" →
  message_history (tables (executeTool env toolCall context w).2) =
  message_history (tables w) ∧
  message_history_id_seq (tables (executeTool env toolCall context w).2) =
  message_history_id_seq (tables w).
Proof.
  intros Hreply Hclear.
  destruct (executeTool_cases env (within same_history (λ _ _, True) (λ _, True))
              toolCall context)
    with (w := w) as (Hsame & _); try done.
  - intros _ args. apply getMemory_within; try exact _; done.
  - intros _ args. apply saveMemory_within; try exact _; try done.
    intros. apply insert_memory_history.
  - intros _ args. apply getUserInfo_within; try exact _; done.
  - intros _ args. apply getTime_within; try exact _; done.
  - intros _ args. apply getWeather_within; try exact _; done.
  - intros _. apply getServerInfo_within; try exact _; done.
Qed.

Lemma only_two_tools_write_history_witness :
  let env := Sample.env (Sample.asks None) [] in
  let toolCall := mkToolCall "get_server_info" Sample.empty_object in
  (name toolCall ≠ "reply_to_user" ∧ name toolCall ≠ "clear_history") ∧
  message_history (tables (executeTool env toolCall Sample.alice two_conversations).2) =
  message_history (tables two_conversations) ∧
  message_history_id_seq (tables (executeTool env toolCall Sample.alice two_conversations).2) =
  message_history_id_seq (tables two_conversations).
Proof.
  assert (Hreply : name (mkToolCall "get_server_info" Sample.empty_object) ≠ "reply_to_user")
    by (simpl; discriminate).
  assert (Hclear : name (mkToolCall "get_server_info" Sample.empty_object) ≠ "clear_history")
    by (simpl; discriminate).
  split; [exact (conj Hreply Hclear)|].
  exact (only_two_tools_write_history (Sample.env (Sample.asks None) [])
           (mkToolCall "get_server_info" Sample.empty_object)
           Sample.alice two_conversations Hreply Hclear).
Defined.

(** ** The payload of reply_to_user *)

Lemma normalize_entry_cases (msg : Json) (index : nat) :
  match msg with
  | JNull =>
      normalize_entry msg index =
      Thrown (TypeError "Cannot read properties of null (reading 'content')")
  | _ =>
      normalize_entry msg index =
      Ok (mkNormalized
            (match msg with JStr _ => Some msg | _ => get_prop msg "content" end)
            (js_or (get_prop msg "cooldown") (JNum (default_cooldown index))))
  end.
Proof. by destruct msg. Qed.

Lemma normalize_from_spec (items : list Json) :
  ∀ index,
    match normalize_from index items with
    | Ok entries =>
        (JNull ∉ items) ∧
        entries =
        imap (λ i msg,
                mkNormalized
                  (match msg with JStr _ => Some msg | _ => get_prop msg "content" end)
                  (js_or (get_prop msg "cooldown")
                         (JNum (default_cooldown (index + i)))))
             items
    | Thrown e =>
        JNull ∈ items ∧
        e = TypeError "Cannot read properties of null (reading 'content')"
    end.
Proof.
  induction items as [|msg rest IH]; intros index.
  - simpl. split; [apply not_elem_of_nil|done].
  - cbn [normalize_from]. pose proof (normalize_entry_cases msg index) as Hentry.
    assert (msg = JNull ∨ msg ≠ JNull) as [->|Hmsg]
      by (destruct msg; auto; right; discriminate).
    + rewrite Hentry. simpl. split; [left|done].
    + assert (normalize_entry msg index =
              Ok (mkNormalized
                    (match msg with JStr _ => Some msg | _ => get_prop msg "content" end)
                    (js_or (get_prop msg "cooldown") (JNum (default_cooldown index)))))
        as -> by (by destruct msg).
      specialize (IH (S index)). simpl.
      destruct (normalize_from (S index) rest) as [entries|e]; simpl.
      * destruct IH as [Hrest ->]. split.
        { rewrite not_elem_of_cons. done. }
        rewrite Nat.add_0_r. f_equal. apply imap_ext. intros i x _. simpl.
        by rewrite Nat.add_succ_r.
      * destruct IH as [Hrest ->]. split; [by right|done].
Qed.

(** An array of messages is accepted exactly when none of its entries is
    [null]. It then yields one message per entry, in order: the content is
    the entry itself for a string and its [content] otherwise, the delay is
    the entry's [cooldown] when that is truthy and the default otherwise,
    so that no message after the first has a falsy delay. An array with a
    [null] entry makes [reply_to_user] throw a TypeError before the gate
    and before any send. *)
Theorem normalize_array
    (env : Env) (items : list Json) (args : Json)
    (context : ToolExecutionContext) (w : World) :
  (is_ok (normalize (Some (JArr items))) = true ↔ JNull ∉ items) ∧
  (∀ entries, normalize (Some (JArr items)) = Ok entries →
     length entries = length items ∧
     ∀ i msg, items !! i = Some msg →
       ∃ entry, entries !! i = Some entry ∧
         msg_content entry =
           match msg with JStr _ => Some msg | _ => get_prop msg "content" end ∧
         cooldown entry =
           js_or (get_prop msg "cooldown") (JNum (default_cooldown i)) ∧
         ((0 < i)%nat → truthy (Some (cooldown entry)) = true)) ∧
  (get_prop args "messages" = Some (JArr items) → JNull ∈ items →
   replyToUser env args context w =
   (Thrown (TypeError "Cannot read properties of null (reading 'content')"), w)).
Proof.
  pose proof (normalize_from_spec items 0) as Hspec. cbn [normalize].
  destruct (normalize_from 0 items) as [entries|e] eqn:Hrun.
  - destruct Hspec as [Hnone ->]. split; [done|]. split.
    + intros entries [= <-]. rewrite length_imap. split; [done|].
      intros i msg Hi. eexists. rewrite list_lookup_imap, Hi. simpl.
      split; [done|]. split; [done|]. split; [done|].
      intros Hlater. unfold js_or, default_cooldown.
      rewrite decide_True by done.
      destruct (get_prop msg "cooldown") as [given|]; [|done].
      by destruct (truthy (Some given)) eqn:Hgiven.
    + intros _ Hnull. done.
  - destruct Hspec as [Hnull ->]. split.
    + split; [done|]. intros Hnone. done.
    + split; [done|]. intros Hmessages _.
      unfold replyToUser. rewrite run_lift_bind.
      assert (destructurable "messages" args = Ok tt) as ->
        by (destruct args; try done; discriminate Hmessages).
      rewrite Hmessages. cbn [normalize]. by rewrite run_lift_bind, Hrun.
Qed.

(** ** The memory store *)

#[global] Instance better_rank_transitive : Transitive better_rank.
Proof. intros a b c. unfold better_rank. lia. Qed.

#[global] Instance better_rank_total : Total better_rank.
Proof. intros a b. unfold better_rank. lia. Qed.

Lemma StronglySorted_fmap_elem {A B} (f : A → B) (R1 : relation A) (R2 : relation B)
    (l : list A) :
  (∀ x y, x ∈ l → y ∈ l → R1 x y → R2 (f x) (f y)) →
  StronglySorted R1 l → StronglySorted R2 (f <$> l).
Proof.
  intros Hf Hsorted. induction Hsorted as [|x l Hl IH Hx]; [constructor|].
  simpl. constructor.
  - apply IH. intros a b Ha Hb. apply Hf; by right.
  - apply Forall_fmap. rewrite Forall_forall in Hx. apply Forall_forall.
    intros y Hy. simpl. apply Hf; [left|by right|by apply Hx].
Qed.

Section SelectMemories.
Context (rank : string → string → option Z) (u q : string) (timestamp : Z) (t : Tables).

Let matching : list (Z * Memory) :=
  omap (λ m, if decide (memory_user_id m = u)
             then (λ r, (r, m)) <$> rank (keywords m) q else None)
       (memories t).

Let rows : list Memory := snd <$> take 5 (merge_sort better_rank matching).

Lemma select_memories_rows :
  select_memories rank (Some u) (Some q) timestamp t = (Ok rows, t).
Proof. reflexivity. Qed.

Lemma matching_elem (p : Z * Memory) :
  p ∈ matching ↔
  p.2 ∈ memories t ∧ memory_user_id p.2 = u ∧ rank (keywords p.2) q = Some p.1.
Proof.
  unfold matching. rewrite list_elem_of_omap. split.
  - intros (m & Hm & Hp). case_decide as Hu; [|done].
    destruct (rank (keywords m) q) as [r|] eqn:Hr; [|done].
    simpl in Hp. injection Hp as <-. done.
  - intros (Hm & Hu & Hr). exists p.2. split; [done|].
    rewrite decide_True by done. rewrite Hr. simpl. by destruct p.
Qed.

Lemma rows_length : (length rows ≤ 5)%nat.
Proof. unfold rows. rewrite length_fmap, length_take. lia. Qed.

Lemma rows_elem (m : Memory) :
  m ∈ rows →
  m ∈ memories t ∧ memory_user_id m = u ∧ is_Some (rank (keywords m) q).
Proof.
  unfold rows. intros (p & -> & Hp)%list_elem_of_fmap.
  apply subseteq_take in Hp. rewrite merge_sort_Permutation in Hp.
  apply matching_elem in Hp as (Hm & Hu & Hr). by rewrite Hr.
Qed.

Lemma rows_sorted : StronglySorted (no_worse rank q) rows.
Proof.
  unfold rows. apply (StronglySorted_fmap_elem snd better_rank).
  - intros a b Ha Hb Hab ra rb Hra Hrb.
    apply subseteq_take in Ha, Hb. rewrite merge_sort_Permutation in Ha, Hb.
    apply matching_elem in Ha as (_ & _ & Ha), Hb as (_ & _ & Hb).
    unfold better_rank in Hab. congruence.
  - pose proof (StronglySorted_merge_sort better_rank matching) as Hsorted.
    rewrite <- (take_drop 5 (merge_sort better_rank matching)) in Hsorted.
    by apply StronglySorted_app_1_l in Hsorted.
Qed.

Lemma rows_best (m : Memory) (r : Z) :
  m ∈ memories t → memory_user_id m = u → rank (keywords m) q = Some r →
  m ∈ rows ∨
  (length rows = 5%nat ∧
   ∀ m' r', m' ∈ rows → rank (keywords m') q = Some r' → r ≤ r').
Proof.
  intros Hm Hu Hr.
  assert (Hp : (r, m) ∈ merge_sort better_rank matching).
  { rewrite merge_sort_Permutation. by apply matching_elem. }
  rewrite <- (take_drop 5 (merge_sort better_rank matching)) in Hp.
  apply elem_of_app in Hp as [Hp|Hp].
  - left. unfold rows. apply list_elem_of_fmap. by exists (r, m).
  - right. split.
    + unfold rows. rewrite length_fmap, length_take.
      assert (length (drop 5 (merge_sort better_rank matching)) ≠ 0)%nat
        by (intros Hnil%nil_length_inv; rewrite Hnil in Hp; by apply elem_of_nil in Hp).
      rewrite length_drop in *. lia.
    + intros m' r' (p & -> & Hp')%list_elem_of_fmap Hr'.
      pose proof (StronglySorted_merge_sort better_rank matching) as Hsorted.
      rewrite <- (take_drop 5 (merge_sort better_rank matching)) in Hsorted.
      pose proof (StronglySorted_app_1_elem_of _ _ _ _ _ Hsorted Hp' Hp) as Hbetter.
      apply subseteq_take in Hp'. rewrite merge_sort_Permutation in Hp'.
      apply matching_elem in Hp' as (_ & _ & Hp').
      unfold better_rank in Hbetter. simpl in *. congruence.
Qed.

End SelectMemories.

(** When the store answers, [get_memory] returns at most five memories,
    all of them memories of the user asked for whose keywords match the
    query, best match first; a matching memory that is left out ranks no
    better than any that is returned, and the five places are taken.
    [found] says whether there is any. The tables are as they were. *)
Theorem getMemory_returns_the_best_matches
    (env : Env) (args : Json) (context : ToolExecutionContext) (w : World)
    (u q : string) :
  args ≠ JNull →
  store_answers env (length (trace w)) →
  pg_param env (user_id_or_current args context) = Some u →
  pg_param env (get_prop args "keywords") = Some q →
  ∃ rows,
    (getMemory env args context w).1 =
    Ok (object [("found", Some (JBool (bool_decide (0 < length rows)%nat)));
                ("memories", Some (JArr (memory_row env <$> rows)));
                ("search_keywords", get_prop args "keywords")]) ∧
    tables (getMemory env args context w).2 = tables w ∧
    (length rows ≤ 5)%nat ∧
    (∀ m, m ∈ rows →
       m ∈ memories (tables w) ∧ memory_user_id m = u ∧
       is_Some (ts_rank env (keywords m) q)) ∧
    StronglySorted (no_worse (ts_rank env) q) rows ∧
    (∀ m r, m ∈ memories (tables w) → memory_user_id m = u →
       ts_rank env (keywords m) q = Some r →
       m ∈ rows ∨
       (length rows = 5%nat ∧
        ∀ m' r', m' ∈ rows → ts_rank env (keywords m') q = Some r' → r ≤ r')).
Proof.
  intros Hargs [Hpool Hserver] Hu Hq.
  unfold getMemory. rewrite run_lift_bind.
  assert (destructurable "keywords" args = Ok tt) as -> by (by destruct args).
  rewrite run_try_catch, run_bind, run_Database_query_cases. cbv zeta.
  rewrite Hpool, Hserver, Hu, Hq.
  rewrite (select_memories_rows (ts_rank env) u q).
  eexists. split; [reflexivity|]. split; [done|].
  split; [apply rows_length|]. split; [apply rows_elem|].
  split; [apply rows_sorted|]. apply rows_best.
Qed.

Lemma getMemory_returns_the_best_matches_witness :
  let env := Sample.env (Sample.asks None) [] in
  let args := JObj [("keywords", JStr "birthday")] in
  ∃ rows,
    (getMemory env args Sample.alice two_conversations).1 =
    Ok (object [("found", Some (JBool (bool_decide (0 < length rows)%nat)));
                ("memories", Some (JArr (memory_row env <$> rows)));
                ("search_keywords", Some (JStr "birthday"))]) ∧
    (length rows ≤ 5)%nat.
Proof.
  destruct (getMemory_returns_the_best_matches
              (Sample.env (Sample.asks None) [])
              (JObj [("keywords", JStr "birthday")])
              Sample.alice two_conversations "42" "birthday")
    as (rows & Hresult & _ & Hlength & _).
  - discriminate.
  - split; reflexivity.
  - reflexivity.
  - reflexivity.
  - exists rows. split; [exact Hresult|exact Hlength].
Defined.

Lemma omap_nothing {A B} (f : A → option B) (l : list A) :
  (∀ x, x ∈ l → f x = None) → omap f l = [].
Proof.
  induction l as [|x l IH]; intros Hnone; [done|]. simpl.
  rewrite (Hnone x) by left. apply IH. intros y Hy. apply Hnone. by right.
Qed.

(** A memory saved under some keywords is what a search finds: when the
    store answers, and the query matches those keywords and none of the
    user's older memories, [get_memory] returns exactly the saved row, with
    the id [save_memory] reported. *)
Theorem saved_memory_is_found
    (env : Env) (args : Json) (context : ToolExecutionContext) (w : World)
    (kw text q : string) (r : Z) :
  let n := length (trace w) in
  let saved :=
    mkMemory (memories_id_seq (tables w)) (user_ident (user context)) kw text
      (CURRENT_TIMESTAMP env n) in
  get_prop args "keywords" = Some (JStr kw) →
  get_prop args "content" = Some (JStr text) →
  get_prop args "user_id" = None →
  store_answers env n →
  store_answers env (S n) →
  ts_rank env kw q = Some r →
  (∀ m, m ∈ memories (tables w) → memory_user_id m = user_ident (user context) →
        ts_rank env (keywords m) q = None) →
  (∃ result,
     (saveMemory env args context w).1 = Ok result ∧
     get_prop result "memory_id" = Some (JNum (memory_id saved))) ∧
  (getMemory env (JObj [("keywords", JStr q)]) context
     (saveMemory env args context w).2).1 =
  Ok (object [("found", Some (JBool true));
              ("memories", Some (JArr [memory_row env saved]));
              ("search_keywords", Some (JStr q))]).
Proof.
  intros n saved Hkw Htext Huser [Hpool Hserver] [Hpool' Hserver'] Hrank Hunrelated.
  assert (Hargs : destructurable "keywords" args = Ok tt)
    by (destruct args; try done; discriminate Hkw).
  assert (Hsave : saveMemory env args context w =
            (Ok (object [("success", Some (JBool true));
                         ("memory_id", Some (JNum (memories_id_seq (tables w))));
                         ("keywords", Some (JStr kw));
                         ("content_length", Some (JNum (Z.of_nat (String.length text))))]),
             mkWorld (cooldowns w)
               (mkTables (message_history (tables w)) (memories (tables w) ++ [saved])
                  (message_history_id_seq (tables w)) (memories_id_seq (tables w) + 1))
               (trace w ++ [EvQuery INSERT_INTO_memories
                              [Some (user_ident (user context)); Some kw; Some text]]))).
  { unfold saveMemory. rewrite run_lift_bind, Hargs.
    rewrite run_try_catch, run_bind, run_Database_query_cases. cbv zeta.
    fold n. rewrite Hpool, Hserver. unfold user_id_or_current.
    rewrite Huser, Hkw, Htext. reflexivity. }
  rewrite Hsave. split; [by eexists|]. cbn [fst snd].
  unfold getMemory. rewrite run_lift_bind. cbn [destructurable].
  rewrite run_try_catch, run_bind, run_Database_query_cases. cbv zeta.
  cbn [trace]. rewrite length_app. cbn [length]. rewrite Nat.add_1_r. fold n.
  rewrite Hpool', Hserver'. unfold user_id_or_current. cbn [get_prop assoc pg_param].
  rewrite decide_False by done. cbn [assoc decide]. rewrite decide_True by done.
  cbn [pg_param select_memories tables memories].
  rewrite omap_app, (omap_nothing _ (memories (tables w))).
  - subst saved. simpl. rewrite decide_True by done. rewrite Hrank. reflexivity.
  - intros m Hm. case_decide as Hu; [|done]. by rewrite (Hunrelated m Hm Hu).
Qed.

Lemma saved_memory_is_found_witness :
  let env := Sample.env (Sample.asks None) [] in
  let args := JObj [("keywords", JStr "dog"); ("content", JStr "Rex")] in
  let saved := mkMemory 2 "42" "dog" "Rex" 1700000000000 in
  (getMemory env (JObj [("keywords", JStr "dog")]) Sample.alice
     (saveMemory env args Sample.alice two_conversations).2).1 =
  Ok (object [("found", Some (JBool true));
              ("memories", Some (JArr [memory_row env saved]));
              ("search_keywords", Some (JStr "dog"))]).
Proof.
  refine (proj2 (saved_memory_is_found
                   (Sample.env (Sample.asks None) [])
                   (JObj [("keywords", JStr "dog"); ("content", JStr "Rex")])
                   Sample.alice two_conversations "dog" "Rex" "dog" 1
                   eq_refl eq_refl eq_refl (conj eq_refl eq_refl) (conj eq_refl eq_refl)
                   eq_refl _)).
  intros m Hm _. apply list_elem_of_singleton in Hm as ->. reflexivity.
Defined.

(** ** The weather request *)






(** ** When the model fails *)




(** * The message handler *)

(** ** Running a handler *)

Lemma run_handler_bind {A B} (m : Handler A) (f : A → Handler B) (p : Process) :
  (m ≫= f) p =
  match m p with
  | (Ok a, p') => f a p'
  | (Thrown e, p') => (Thrown e, p')
  end.
Proof. reflexivity. Qed.

Lemma run_attempt {A} (body : Handler A) (handler : Exn → Handler A) (p : Process) :
  attempt body handler p =
  match body p with
  | (Ok a, p') => (Ok a, p')
  | (Thrown e, p') => handler e p'
  end.
Proof. reflexivity. Qed.

Lemma run_inner {A} (m : M A) (p : Process) :
  inner m p = ((m (world p)).1,
               mkProcess (m (world p)).2 (active_channels p) (host_trace p)).
Proof. unfold inner. by destruct (m (world p)). Qed.

Lemma run_of_outcome_bind {A B} (o : Outcome A) (f : A → Handler B) (p : Process) :
  (of_outcome o ≫= f) p =
  match o with
  | Ok a => f a p
  | Thrown e => (Thrown e, p)
  end.
Proof. unfold mbind, Handler_bind, of_outcome. by destruct o. Qed.

(** ** What a handler may do to the world of the tools *)

Section Handles.
Context (R : relation World) `{!PreOrder R}.

Lemma handles_ret {A} (a : A) : handles R (mret a : Handler A).
Proof. intros p. simpl. reflexivity. Qed.

Lemma handles_raise {A} (e : Exn) : handles R (@raise A e).
Proof. intros p. simpl. reflexivity. Qed.

Lemma handles_of_outcome {A} (o : Outcome A) : handles R (of_outcome o).
Proof. intros p. simpl. reflexivity. Qed.

Lemma handles_position : handles R position.
Proof. intros p. simpl. reflexivity. Qed.

Lemma handles_host_emit (e : HostEvent) : handles R (host_emit e).
Proof. intros p. simpl. reflexivity. Qed.

Lemma handles_on_channels {A}
    (run : option (list (string * Z)) → Outcome A * option (list (string * Z))) :
  handles R (on_channels run).
Proof.
  intros p. unfold on_channels. destruct (run (active_channels p)). simpl.
  reflexivity.
Qed.

Lemma handles_inner {A} (m : M A) : respects R m → handles R (inner m).
Proof. intros Hm p. rewrite run_inner. apply Hm. Qed.

Lemma handles_bind {A B} (m : Handler A) (f : A → Handler B) :
  handles R m → (∀ a, handles R (f a)) → handles R (m ≫= f).
Proof.
  intros Hm Hf p. rewrite run_handler_bind. specialize (Hm p).
  destruct (m p) as [[a|e] p']; simpl in *; [|done].
  etransitivity; [exact Hm|apply Hf].
Qed.

Lemma handles_attempt {A} (body : Handler A) (handler : Exn → Handler A) :
  handles R body → (∀ e, handles R (handler e)) → handles R (attempt body handler).
Proof.
  intros Hm Hf p. rewrite run_attempt. specialize (Hm p).
  destruct (body p) as [[a|e] p']; simpl in *; [done|].
  etransitivity; [exact Hm|apply Hf].
Qed.

End Handles.

Ltac handles_step :=
  first
    [ match goal with
      | |- PreOrder _ => exact _
      end
    | apply handles_ret | apply handles_raise | apply handles_of_outcome
    | apply handles_position | apply handles_host_emit | apply handles_on_channels
    | apply handles_bind
    | apply handles_attempt
    | match goal with
      | |- handles _ (if ?b then _ else _) => destruct b
      | |- handles _ (match ?x with _ => _ end) => destruct x
      | |- ∀ _, _ => intro
      end ].

Tactic Notation "handles" "by" tactic3(known) :=
  repeat first [ known | handles_step ].

Section WithinOfHandlers.
Context (env : Env) (host : Host) (T : relation Tables)
  (C : relation (gmap string CooldownEntry)) (E : Event → Prop)
  `{!PreOrder T, !PreOrder C}.
Context (message : Message) (user : User).

Hypothesis E_quiet : ∀ e, quiet e → E e.
Hypothesis E_reply : ∀ body delivered, E (EvReply body delivered).
Hypothesis E_chat : ∀ request, E (EvChat request).
Hypothesis T_append : ∀ r text timestamp t,
  T t (insert_message_history (user_ident user) (message_channelId message)
         r text timestamp t).2.
Hypothesis T_clear : ∀ timestamp t,
  T t (delete_message_history (user_ident user) (message_channelId message)
         timestamp t).2.
Hypothesis T_prune : ∀ keepLast timestamp t,
  T t (delete_old_message_history (user_ident user) (message_channelId message)
         keepLast timestamp t).2.
Hypothesis T_memory : ∀ uid kw text timestamp t,
  T t (insert_memory uid kw text timestamp t).2.
Hypothesis C_reply : ∀ entry m, C m (<[cooldownKey (user_ident user) := entry]> m).

Lemma getMessageHistory_within u c limit :
  respects (within T C E) (getMessageHistory env u c limit).
Proof.
  unfold getMessageHistory.
  within by first [ apply logger_error_within; try exact _; exact E_quiet
                  | apply Database_query_within;
                    [exact _|exact _|exact E_quiet|intros; simpl; reflexivity] ].
Qed.

Lemma cleanOldHistory_within keepLast :
  respects (within T C E)
    (cleanOldHistory env (user_ident user) (message_channelId message) keepLast).
Proof.
  unfold cleanOldHistory.
  within by first [ apply logger_error_within; try exact _; exact E_quiet
                  | apply Database_query_within;
                    [exact _|exact _|exact E_quiet|intros; apply T_prune] ].
Qed.

Lemma Database_query_channels_handles {A} stmt params (run : ChannelSql A) :
  handles (within T C E) (Database_query_channels host stmt params run).
Proof.
  unfold Database_query_channels.
  handles by (apply handles_inner, logger_error_within; try exact _; exact E_quiet).
Qed.

Lemma markChannelActive_handles channel :
  handles (within T C E) (markChannelActive host channel).
Proof.
  unfold markChannelActive. handles by apply Database_query_channels_handles.
Qed.

Lemma isChannelActive_handles channel :
  handles (within T C E) (isChannelActive host channel).
Proof.
  unfold isChannelActive. handles by apply Database_query_channels_handles.
Qed.

Lemma respond_handles response :
  handles (within T C E) (respond env host message user response).
Proof.
  unfold respond.
  handles by
    (apply handles_inner;
     first [ apply (saveMessageToHistory_within env T C E
                      (mkContext user (message_channelId message)));
             try exact _; first [exact E_quiet|exact T_append]
           | apply reply_within; try exact _; exact E_reply
           | apply cleanOldHistory_within ]).
Qed.


Lemma handleMessage_handles :
  handles (within T C E) (handleMessage env host message user).
Proof.
  unfold handleMessage.
  handles by
    first
    [ apply respond_handles
    | apply handles_inner;
     first [ apply logger_error_within; try exact _; exact E_quiet
           | apply emit_quiet_within;
             [exact _|exact _|exact E_quiet|split; simpl; tauto]
           | apply (saveMessageToHistory_within env T C E
                      (mkContext user (message_channelId message)));
             try exact _; first [exact E_quiet|exact T_append]
           | apply getMessageHistory_within
           | apply (generateResponse_within env T C E
                      (mkContext user (message_channelId message)));
             try exact _;
             first [exact E_quiet|exact E_reply|exact E_chat|exact T_append
                   |exact T_clear|exact T_memory|exact C_reply]
           | apply reply_within; try exact _; exact E_reply ] ].
Qed.

End WithinOfHandlers.

Lemma messageCreate_handles (env : Env) (host : Host) (T : relation Tables)
    (C : relation (gmap string CooldownEntry)) (E : Event → Prop)
    `{!PreOrder T, !PreOrder C} (message : Message) :
  let u := user_ident (author message) in
  let c := message_channelId message in
  (∀ e, quiet e → E e) →
  (∀ body delivered, E (EvReply body delivered)) →
  (∀ request, E (EvChat request)) →
  (∀ r text timestamp t, T t (insert_message_history u c r text timestamp t).2) →
  (∀ timestamp t, T t (delete_message_history u c timestamp t).2) →
  (∀ keepLast timestamp t, T t (delete_old_message_history u c keepLast timestamp t).2) →
  (∀ uid kw text timestamp t, T t (insert_memory uid kw text timestamp t).2) →
  (∀ entry m, C m (<[cooldownKey u := entry]> m)) →
  handles (within T C E) (messageCreate env host message).
Proof.
  intros u c E_quiet E_reply E_chat T_append T_clear T_prune T_memory C_reply.
  unfold messageCreate.
  handles by
    first [ apply markChannelActive_handles; try exact _; exact E_quiet
          | apply isChannelActive_handles; try exact _; exact E_quiet
          | apply handleMessage_handles; try exact _; assumption
          | apply handles_inner, reply_within; try exact _; exact E_reply ].
Qed.

#[global] Instance own_conversation_preorder u c : PreOrder (own_conversation u c).
Proof.
  split.
  - intros t. split; [reflexivity|]. split; reflexivity.
  - intros t1 t2 t3 (Ha & Hb & Hc) (Ha' & Hb' & Hc').
    split; [by etransitivity|]. split; by etransitivity.
Qed.

Lemma filter_filter_implied {A} (P Q : A → Prop) `{∀ x, Decision (P x)}
    `{∀ x, Decision (Q x)} (l : list A) :
  (∀ x, P x → Q x) → filter P (filter Q l) = filter P l.
Proof.
  intros HPQ. induction l as [|x l IH]; [done|].
  destruct (decide (Q x)) as [HQ|HQ].
  - rewrite (filter_cons_True Q) by done.
    destruct (decide (P x)).
    + rewrite !(filter_cons_True P) by done. by rewrite IH.
    + by rewrite !(filter_cons_False P) by done.
  - rewrite (filter_cons_False Q) by done.
    rewrite (filter_cons_False P); [done|]. intros HP. by apply HQ, HPQ.
Qed.

Lemma insert_in_own_conversation u c r text timestamp t :
  own_conversation u c t (insert_message_history u c r text timestamp t).2.
Proof.
  split; [apply insert_keeps_other_pairs|]. split.
  - unfold memories_grow.
    by destruct (insert_message_history_memories u c r text timestamp t) as [-> _].
  - apply insert_message_history_keeps_keys.
Qed.

Lemma delete_in_own_conversation u c timestamp t :
  own_conversation u c t (delete_message_history u c timestamp t).2.
Proof.
  split; [apply delete_keeps_other_pairs|]. split.
  - unfold memories_grow. simpl. reflexivity.
  - apply delete_message_history_keeps_keys.
Qed.

Lemma delete_old_in_own_conversation u c keepLast timestamp t :
  own_conversation u c t (delete_old_message_history u c keepLast timestamp t).2.
Proof.
  split; [|split].
  - intros u' c' Hother. simpl. apply filter_filter_implied.
    intros row [Hu Hc] [[Hu' Hc'] _]. apply Hother. congruence.
  - unfold memories_grow. simpl. reflexivity.
  - split; [apply delete_old_keeps_key|done].
Qed.

Lemma insert_memory_in_own_conversation u c uid kw text timestamp t :
  own_conversation u c t (insert_memory uid kw text timestamp t).2.
Proof.
  split; [apply insert_memory_keeps_other_pairs|]. split.
  - apply insert_memory_grows.
  - apply insert_memory_keeps_keys.
Qed.

(** ** One conversation at a time *)

(** Whatever the platform, the model, the store and the regular
    expressions do, handling a message from one user in one channel leaves
    the history of every other (user, channel) pair and every other
    user's cooldown as they were, deletes and rewrites no memory, and keeps
    the ids of both tables unique and behind their sequences. *)
Theorem messageCreate_touches_only_its_conversation
    (env : Env) (host : Host) (message : Message) (p : Process) :
  let u := user_ident (author message) in
  let c := message_channelId message in
  let w := world p in
  let w' := world (messageCreate env host message p).2 in
  (∀ u' c', (u', c') ≠ (u, c) →
     filter (same_pair u' c') (message_history (tables w')) =
     filter (same_pair u' c') (message_history (tables w))) ∧
  (∀ key, key ≠ cooldownKey u → cooldowns w' !! key = cooldowns w !! key) ∧
  memories (tables w) `prefix_of` memories (tables w') ∧
  (key_invariant (tables w) → key_invariant (tables w')) ∧
  (memories_key_invariant (tables w) → memories_key_invariant (tables w')).
Proof.
  intros u c w w'.
  destruct (messageCreate_handles env host (own_conversation u c)
              (other_keys_kept (cooldownKey u)) (λ _, True) message)
    with (p := p) as ((Hpairs & Hmemories & Hkeys & Hkeys') & Hcooldowns & _);
    try done.
  - intros. apply insert_in_own_conversation.
  - intros. apply delete_in_own_conversation.
  - intros. apply delete_old_in_own_conversation.
  - intros. apply insert_memory_in_own_conversation.
  - intros. apply insert_other_keys_kept.
Qed.

(** ** What the model is asked *)






Lemma attempt_step {A B} (m : Handler A) (f : A → Handler B) (handler : Exn → Handler B)
    (p p' : Process) (a : A) :
  m p = (Ok a, p') → attempt (m ≫= f) handler p = attempt (f a) handler p'.
Proof. intros Hm. by rewrite !run_attempt, run_handler_bind, Hm. Qed.




(** ** When the handler fails *)




(** ** The active channels *)

Lemma run_Database_query_channels {A} (host : Host) (stmt : ChannelStatement)
    (params : list string) (run : ChannelSql A) (p : Process) :
  Database_query_channels host stmt params run p =
  let n := requests p in
  let asked := host_trace p ++ [(length (trace (world p)), HvChannelQuery stmt params)] in
  let logged error :=
    with_event (world p) (EvLog "Database query error:" (Some error)) in
  match channels_pool_connect host n with
  | Some error => (Thrown error, mkProcess (world p) (active_channels p) asked)
  | None =>
      match channels_client_query host n with
      | Some error => (Thrown error, mkProcess (logged error) (active_channels p) asked)
      | None =>
          match run (NOW host n) (active_channels p) with
          | (Ok a, t) => (Ok a, mkProcess (world p) t asked)
          | (Thrown error, t) => (Thrown error, mkProcess (logged error) t asked)
          end
      end
  end.
Proof.
  unfold Database_query_channels, requests.
  rewrite run_handler_bind. cbn [position]. rewrite run_handler_bind. cbn [host_emit].
  destruct (channels_pool_connect host _); [done|].
  rewrite run_attempt.
  destruct (channels_client_query host _); [done|].
  unfold on_channels. cbn [active_channels world host_trace].
  by destruct (run _ (active_channels p)) as [[a|error] t].
Qed.

Lemma run_query_answered {A} (host : Host) (stmt : ChannelStatement)
    (params : list string) (run : ChannelSql A) (p : Process) :
  channels_answer host (requests p) →
  Database_query_channels host stmt params run p =
  let asked := host_trace p ++ [(length (trace (world p)), HvChannelQuery stmt params)] in
  match run (NOW host (requests p)) (active_channels p) with
  | (Ok a, t) => (Ok a, mkProcess (world p) t asked)
  | (Thrown error, t) =>
      (Thrown error,
       mkProcess (with_event (world p) (EvLog "Database query error:" (Some error))) t asked)
  end.
Proof.
  intros [Hpool Hserver]. rewrite run_Database_query_channels. cbv zeta.
  by rewrite Hpool, Hserver.
Qed.

Lemma requests_after_query (p : Process) t (e : HostEvent) :
  requests (mkProcess (world p) t (host_trace p ++ [(length (trace (world p)), e)])) =
  S (requests p).
Proof. unfold requests. simpl. rewrite length_app. simpl. lia. Qed.

Lemma elem_of_length_pos {A} (l : list A) (x : A) : x ∈ l → (0 < length l)%nat.
Proof. destruct l; [by intros ?%elem_of_nil|simpl; lia]. Qed.

Lemma length_pos_elem_of {A} (l : list A) : (0 < length l)%nat → ∃ x, x ∈ l.
Proof. destruct l as [|x l]; [simpl; lia|]. exists x. left. Qed.

Lemma upsert_marks (varchar_20 : string → Outcome string) (channel : string) (now : Z)
    (rows : list (string * Z)) :
  (String.length channel ≤ 20)%nat →
  ∃ rows',
    upsert_active_channel varchar_20 channel now (Some rows) = (Ok tt, Some rows') ∧
    channel ∈ rows'.*1 ∧
    (∀ other, other ≠ channel → other ∈ rows'.*1 ↔ other ∈ rows.*1) ∧
    (∀ other when, other ≠ channel → (other, when) ∈ rows' ↔ (other, when) ∈ rows) ∧
    (NoDup rows.*1 → NoDup rows'.*1).
Proof.
  intros Hshort. unfold upsert_active_channel. rewrite decide_True by done.
  case_decide as Hthere.
  - eexists. split; [done|].
    assert (Hkeys : ((λ row : string * Z,
                        if decide (row.1 = channel) then (channel, now) else row)
                     <$> rows).*1 = rows.*1).
    { rewrite <- list_fmap_compose. apply list_fmap_ext. intros i [k v] _. simpl.
      by case_decide. }
    rewrite Hkeys. split; [done|]. split; [done|]. split; [|done].
    intros other when Hother. rewrite list_elem_of_fmap. split.
    + intros ([k v] & Heq & Hrow). simpl in Heq. case_decide; [congruence|].
      by rewrite Heq.
    + intros Hrow. exists (other, when). simpl. by rewrite decide_False.
  - eexists. split; [done|]. rewrite fmap_app. simpl.
    split; [apply elem_of_app; right; by left|]. split; [|split].
    + intros other Hother. rewrite elem_of_app, list_elem_of_singleton. tauto.
    + intros other when Hother. rewrite elem_of_app, list_elem_of_singleton.
      split; [intros [?|[= ? ?]]; [done|congruence]|by left].
    + intros Hkeys. apply NoDup_app. split; [done|]. split; [|apply NoDup_singleton].
      by intros k Hk ->%list_elem_of_singleton.
Qed.

(** Marking a channel and asking about it: when the store answers, a
    channel just marked is active, and the mark changes nothing for any
    other channel--neither whether it is marked nor when it last was; the
    channel ids stay unique. A channel never marked is not active. *)
Theorem marked_channel_is_active
    (host : Host) (channel : string) (p : Process) :
  let n := requests p in
  let p' := (markChannelActive host channel p).2 in
  (String.length channel ≤ 20)%nat →
  channels_answer host n →
  channels_answer host (S n) →
  channels_answer host (S (S n)) →
  channels_answer host (S (S (S n))) →
  (markChannelActive host channel p).1 = Ok tt ∧
  world p' = world p ∧
  (isChannelActive host channel p').1 = Ok true ∧
  (∀ other, other ≠ channel → other ∈ marked p' ↔ other ∈ marked p) ∧
  (∀ other when, other ≠ channel →
     (other, when) ∈ default [] (active_channels p') ↔
     (other, when) ∈ default [] (active_channels p)) ∧
  (NoDup (marked p) → NoDup (marked p')) ∧
  (channel ∉ marked p → (isChannelActive host channel p).1 = Ok false).
Proof.
  intros n p' Hshort H0 H1 H2 H3.
  destruct (upsert_marks (VARCHAR_20 host) channel (NOW host (S n))
              (default [] (active_channels p)) Hshort)
    as (rows' & Hupsert & Hmarked & Hothers & Hwhen & Hunique).
  assert (Hmark : markChannelActive host channel p =
            (Ok tt,
             mkProcess (world p) (Some rows')
               ((host_trace p ++
                 [(length (trace (world p)),
                   HvChannelQuery CREATE_TABLE_active_channels [])]) ++
                [(length (trace (world p)),
                  HvChannelQuery UPSERT_active_channels [channel])]))).
  { unfold markChannelActive. rewrite run_handler_bind.
    rewrite run_query_answered by done. cbn [create_active_channels].
    rewrite run_query_answered; rewrite requests_after_query; [|done].
    fold n. cbv zeta. cbn [active_channels world host_trace]. by rewrite Hupsert. }
  assert (Hask : ∀ q, channels_answer host (requests q) →
            channels_answer host (S (requests q)) →
            (isChannelActive host channel q).1 =
            Ok (bool_decide (0 < length (filter (λ row : string * Z, row.1 = channel)
                                           (default [] (active_channels q))))%nat)).
  { intros q Hq Hq'. unfold isChannelActive. rewrite run_handler_bind.
    rewrite run_query_answered by done. cbn [create_active_channels].
    rewrite run_handler_bind.
    rewrite run_query_answered; rewrite requests_after_query; [|done]. done. }
  unfold p'. rewrite Hmark. cbn [fst snd].
  split; [done|]. split; [done|]. split; [|split; [|split; [|split]]].
  - rewrite Hask.
    + cbn [active_channels default]. f_equal. apply bool_decide_eq_true.
      apply list_elem_of_fmap in Hmarked as (row & Hkey & Hrow).
      apply (elem_of_length_pos _ row). by apply list_elem_of_filter.
    + unfold requests. cbn [world host_trace]. rewrite !length_app. cbn [length].
      replace (length (trace (world p)) + (length (host_trace p) + 1 + 1))%nat
        with (S (S n)) by (unfold n, requests; lia). done.
    + unfold requests. cbn [world host_trace]. rewrite !length_app. cbn [length].
      replace (S (length (trace (world p)) + (length (host_trace p) + 1 + 1)))%nat
        with (S (S (S n))) by (unfold n, requests; lia). done.
  - exact Hothers.
  - exact Hwhen.
  - exact Hunique.
  - intros Hnever. rewrite Hask by done. f_equal. apply bool_decide_eq_false.
    intros Hsome. apply length_pos_elem_of in Hsome as [[k v] Hin].
    apply list_elem_of_filter in Hin as [Hk Hin]. simpl in Hk. subst k.
    destruct Hnever. unfold marked. apply list_elem_of_fmap. by exists (channel, v).
Qed.

Lemma marked_channel_is_active_witness :
  (markChannelActive sample_host "general" sample_process).1 = Ok tt ∧
  (isChannelActive sample_host "general"
     (markChannelActive sample_host "general" sample_process).2).1 = Ok true.
Proof.
  destruct (marked_channel_is_active sample_host "general" sample_process)
    as (Hmark & _ & Hactive & _).
  - simpl. lia.
  - split; reflexivity.
  - split; reflexivity.
  - split; reflexivity.
  - split; reflexivity.
  - split; [exact Hmark|exact Hactive].
Defined.

(** ** Messages that are not for the bot *)

Lemma isChannelActive_keeps_channels (host : Host) (channel : string) (p : Process) :
  default [] (active_channels (isChannelActive host channel p).2) =
  default [] (active_channels p).
Proof.
  unfold isChannelActive. rewrite run_handler_bind, run_Database_query_channels.
  cbv zeta.
  destruct (channels_pool_connect host (requests p)); [done|].
  destruct (channels_client_query host (requests p)); [done|].
  cbn [create_active_channels]. rewrite run_handler_bind, run_Database_query_channels.
  cbv zeta. cbn [active_channels world host_trace].
  destruct (channels_pool_connect host _); [done|].
  destruct (channels_client_query host _); [done|].
  done.
Qed.

(** A message written by a bot has no effect at all. A message that is not
    for the bot--no mention at its start, no reply to the bot, no mention
    of it--gets no reply, reaches neither the model nor the tables nor the
    cooldown map, marks no channel, and never makes the event handler
    throw, whatever the store does. *)
Theorem messageCreate_leaves_bystanders_alone
    (env : Env) (host : Host) (message : Message) (p : Process) :
  let run := messageCreate env host message p in
  (bot (author message) = true → run = (Ok tt, p)) ∧
  (bot (author message) = false → isToBot host message = Ok false →
   run.1 = Ok tt ∧
   tables (world run.2) = tables (world p) ∧
   cooldowns (world run.2) = cooldowns (world p) ∧
   (∃ rest, trace (world run.2) = trace (world p) ++ rest ∧ Forall quiet rest) ∧
   default [] (active_channels run.2) = default [] (active_channels p)).
Proof.
  intros run. unfold run, messageCreate. split.
  - by intros ->.
  - intros -> Hbystander. rewrite run_of_outcome_bind, Hbystander, run_attempt.
    rewrite run_handler_bind.
    pose proof (isChannelActive_keeps_channels host (message_channelId message) p)
      as Hchannels.
    pose proof (isChannelActive_handles host eq eq quiet (λ e He, He)
                  (message_channelId message) p) as (Htables & Hcooldowns & Htrace).
    destruct (isChannelActive host (message_channelId message) p) as [[active|error] p'];
      cbn [fst snd] in *; done.
Qed.

Lemma messageCreate_leaves_bystanders_alone_witness :
  let env := Sample.env (Sample.asks None) [] in
  let message := mkMessage "hello there" (user Sample.alice) "general" None None [] in
  (messageCreate env sample_host message sample_process).1 = Ok tt ∧
  tables (world (messageCreate env sample_host message sample_process).2) =
  tables (world sample_process).
Proof.
  destruct (proj2 (messageCreate_leaves_bystanders_alone
                     (Sample.env (Sample.asks None) []) sample_host
                     (mkMessage "hello there" (user Sample.alice) "general" None None [])
                     sample_process) eq_refl eq_refl)
    as (Hdone & Htables & _).
  split; [exact Hdone|exact Htables].
Defined.

(** ** The soft cap *)

#[global] Instance history_grows_preorder : PreOrder history_grows.
Proof.
  split.
  - intros t. split; [reflexivity|done].
  - intros t1 t2 t3 [Ha Hb] [Ha' Hb']. split; [by etransitivity|auto].
Qed.




(** ** The pauses of a reply *)

Lemma slept_with_event (w : World) (e : Event) :
  slept (trace (with_event w e)) =
  slept (trace w) ++ match e with EvSleep ms => [ms] | _ => [] end.
Proof. unfold slept. simpl. rewrite omap_app. simpl. by destruct e. Qed.

Lemma saveMessageToHistory_awake (env : Env) (u c : string) (r : Role)
    (text : JsValue) (w : World) :
  slept (trace (saveMessageToHistory env u c r text w).2) = slept (trace w).
Proof.
  unfold saveMessageToHistory.
  rewrite run_try_catch, run_Database_query_cases. cbv zeta. unfold slept.
  destruct (pool_connect env (length (trace w))); simpl.
  { rewrite !omap_app. simpl. by rewrite !app_nil_r. }
  destruct (client_query env (length (trace w))); simpl.
  { rewrite !omap_app. simpl. by rewrite !app_nil_r. }
  destruct (insert_message_history u c r (pg_param env text) _ (tables w))
    as [[[]|e] t]; simpl; rewrite !omap_app; simpl; by rewrite !app_nil_r.
Qed.

Lemma check_cooldown_awake (env : Env) (uid : string)
    (normalizedMessages : list NormalizedMessage) (w : World) :
  slept (trace (check_cooldown env uid normalizedMessages w).2) = slept (trace w).
Proof.
  unfold check_cooldown. case_decide as Hlen; [|done].
  rewrite run_bind. unfold get_cooldown. cbn beta iota. rewrite run_bind.
  destruct (cooldowns w !! cooldownKey uid) as [entry|].
  - rewrite run_bind, run_now. case_decide.
    + rewrite run_bind, run_now. cbn [throw snd].
      by rewrite !slept_with_event, !app_nil_r.
    + cbn [mret M_ret]. rewrite run_bind, run_now. cbn [set_cooldown snd trace].
      by rewrite !slept_with_event, !app_nil_r.
  - cbn [mret M_ret]. rewrite run_bind, run_now. cbn [set_cooldown snd trace].
    by rewrite !slept_with_event, !app_nil_r.
Qed.

Lemma send_from_pauses (env : Env) (context : ToolExecutionContext)
    (entries : list NormalizedMessage) :
  ∀ i results w,
    let due :=
      omap (λ e, if gt_zero env (Some (cooldown e)) then Some (Some (cooldown e)) else None)
           (if decide (0 < i)%nat then entries else tail entries) in
    ∃ k,
      slept (trace (send_from env context i entries results w).2) =
      slept (trace w) ++ take k due ∧
      (is_ok (send_from env context i entries results w).1 = true →
       take k due = due).
Proof.
  induction entries as [|entry rest IH]; intros i results w due.
  - exists 0%nat. unfold due. simpl. rewrite app_nil_r. split; [done|].
    intros _. by destruct (decide (0 < i)%nat).
  - cbn [send_from]. rewrite run_bind.
    set (pause := bool_decide (0 < i)%nat && gt_zero env (Some (cooldown entry))).
    set (w0 := if pause then with_event w (EvSleep (Some (cooldown entry))) else w).
    assert (Hpause : (if pause then setTimeout (cooldown entry) else mret tt) w = (Ok tt, w0))
      by (unfold w0; by destruct pause).
    rewrite Hpause.
    assert (Hw0 : slept (trace w0) =
                  slept (trace w) ++ (if pause then [Some (cooldown entry)] else []))
      by (unfold w0; destruct pause; [by rewrite slept_with_event|by rewrite app_nil_r]).
    assert (Hdue : due =
              (if pause then [Some (cooldown entry)] else []) ++
              omap (λ e, if gt_zero env (Some (cooldown e))
                         then Some (Some (cooldown e)) else None) rest).
    { unfold due, pause. case_decide as Hi.
      - rewrite bool_decide_eq_true_2 by done. simpl.
        by destruct (gt_zero env (Some (cooldown entry))).
      - rewrite bool_decide_eq_false_2 by done. done. }
    rewrite run_bind, run_reply.
    destruct (message_reply env (length (trace w0)) (msg_content entry)) as [error|].
    + exists (if pause then 1%nat else 0%nat). cbn [fst snd]. split; [|done].
      rewrite slept_with_event, app_nil_r, Hw0, Hdue. by destruct pause.
    + rewrite run_bind.
      pose proof (saveMessageToHistory_awake env (user_ident (user context))
                    (channelId context) assistant_role (msg_content entry)
                    (with_event w0 (EvReply (msg_content entry) true))) as Hawake.
      destruct (saveMessageToHistory_quiet env (user_ident (user context))
                  (channelId context) assistant_role (msg_content entry)
                  (with_event w0 (EvReply (msg_content entry) true)))
        as (Hsaved & _ & _).
      destruct (saveMessageToHistory env _ _ assistant_role (msg_content entry)
                  (with_event w0 (EvReply (msg_content entry) true)))
        as [saved w2]. cbn [fst snd] in Hsaved, Hawake. subst saved.
      destruct (IH (S i) (results ++ [sent_status env i (cooldown entry)]) w2)
        as (k & Hslept & Hall).
      rewrite decide_True in Hslept, Hall by lia.
      exists ((if pause then 1 else 0) + k)%nat. split.
      * rewrite Hslept, Hawake, slept_with_event, app_nil_r, Hw0, Hdue, <- app_assoc.
        f_equal. by destruct pause.
      * intros Hok. rewrite Hdue. specialize (Hall Hok).
        destruct pause; simpl; by rewrite Hall.
Qed.

(** The pauses of a reply, whatever the platform and the store do: the
    suspensions [reply_to_user] asks for are, in order, a prefix of its
    schedule--the leading [timeout] if it is more than 0, then the delay
    of each message after the first if it is more than 0--and the whole
    schedule when the call returns. The delay of the first message is never
    waited for. *)
Theorem replyToUser_pauses
    (env : Env) (args : Json) (context : ToolExecutionContext) (w : World)
    (entries : list NormalizedMessage) :
  let due := schedule env (default (JNum 0) (get_prop args "timeout")) entries in
  normalize (get_prop args "messages") = Ok entries →
  ∃ k,
    slept (trace (replyToUser env args context w).2) = slept (trace w) ++ take k due ∧
    (is_ok (replyToUser env args context w).1 = true → take k due = due).
Proof.
  intros due Hnormal. rewrite (run_replyToUser env args context _ w Hnormal).
  pose proof (check_cooldown_awake env (user_ident (user context)) entries w) as Hgate.
  destruct (check_cooldown env (user_ident (user context)) entries w)
    as [[[]|error] w1]; cbn [fst snd] in *.
  2: { exists 0%nat. rewrite Hgate. simpl. by rewrite app_nil_r. }
  unfold deliver. rewrite run_try_catch, run_bind.
  set (timeout := default (JNum 0) (get_prop args "timeout")) in *.
  set (w2 := if gt_zero env (Some timeout) then with_event w1 (EvSleep (Some timeout))
             else w1).
  assert (Hpause : (if gt_zero env (Some timeout) then setTimeout timeout else mret tt) w1
                   = (Ok tt, w2))
    by (unfold w2; by destruct (gt_zero env (Some timeout))).
  rewrite Hpause.
  assert (Hw2 : slept (trace w2) =
                slept (trace w) ++ (if gt_zero env (Some timeout) then [Some timeout] else []))
    by (unfold w2; destruct (gt_zero env (Some timeout));
        [by rewrite slept_with_event, Hgate|by rewrite app_nil_r]).
  rewrite run_bind.
  destruct (send_from_pauses env context entries 0 [] w2) as (k & Hslept & Hall).
  rewrite decide_False in Hslept, Hall by lia.
  destruct (send_from env context 0 entries [] w2) as [outcome w3].
  cbn [fst snd] in Hslept, Hall.
  exists ((if gt_zero env (Some timeout) then 1 else 0) + k)%nat.
  unfold due, schedule. fold timeout.
  assert (Hfinal : slept (trace w3) =
            slept (trace w) ++
            take ((if gt_zero env (Some timeout) then 1 else 0) + k)
              ((if gt_zero env (Some timeout) then [Some timeout] else []) ++
               omap (λ e, if gt_zero env (Some (cooldown e))
                          then Some (Some (cooldown e)) else None) (tail entries))).
  { rewrite Hslept, Hw2, <- app_assoc. by destruct (gt_zero env (Some timeout)). }
  destruct outcome as [statuses|error]; cbn [fst snd mret M_ret is_ok] in *.
  - split; [done|]. intros _. specialize (Hall eq_refl).
    destruct (gt_zero env (Some timeout)); simpl; by rewrite Hall.
  - rewrite run_bind. cbn [logger_error emit throw fst snd is_ok].
    rewrite slept_with_event, app_nil_r. done.
Qed.

Lemma replyToUser_pauses_witness :
  let env := Sample.env (Sample.asks None) [] in
  let args :=
    JObj [("messages", JArr [JObj [("content", JStr "a"); ("cooldown", JNum 500)];
                             JStr "b"])] in
  slept (trace (replyToUser env args Sample.alice Sample.start).2) = [Some (JNum 1000)].
Proof.
  destruct (replyToUser_pauses
              (Sample.env (Sample.asks None) [])
              (JObj [("messages", JArr [JObj [("content", JStr "a"); ("cooldown", JNum 500)];
                                        JStr "b"])])
              Sample.alice Sample.start
              [mkNormalized (Some (JStr "a")) (JNum 500);
               mkNormalized (Some (JStr "b")) (JNum 1000)] eq_refl)
    as (k & Hslept & Hall).
  cbv zeta. rewrite Hslept, (Hall eq_refl). reflexivity.
Defined.

(** ** A message answered *)

Lemma run_generateResponse_plain (env : Env) (messages : list Turn)
    (context : option ToolExecutionContext) (w : World)
    (response : ChatResponse) (original : ChatMessage) :
  chat_completions_create env (length (trace w))
    (mkChatRequest (model_name env) messages true) = Ok response →
  first_message response = Some original →
  tool_calls original = None →
  generateResponse env messages context w =
  (Ok (or_empty (message_content original)),
   with_event w (EvChat (mkChatRequest (model_name env) messages true))).
Proof.
  intros Hchat Hfirst Hnone. unfold generateResponse.
  by rewrite run_try_catch, run_bind, run_create, Hchat, Hfirst, Hnone.
Qed.

Lemma attempt_assoc {A B D} (m : Handler A) (f : A → Handler B) (g : B → Handler D)
    (handler : Exn → Handler D) (p : Process) :
  attempt ((m ≫= f) ≫= g) handler p = attempt (m ≫= λ a, f a ≫= g) handler p.
Proof.
  rewrite !run_attempt, !run_handler_bind. by destruct (m p) as [[a|e] p'].
Qed.

(** A message answered in plain text. When the guild, the mention pattern
    and the typing indicator succeed, the store and the platform answer,
    the model answers with a text and no tool call, and the draw is not
    below 0.1: the handler returns, the channel gets exactly one reply--the
    model's text followed by U+200B--and the history gains exactly two
    rows, the user's text and then the model's text, under the next two
    ids. Memories and cooldowns are as they were. *)
Theorem handleMessage_answers
    (env : Env) (host : Host) (message : Message) (user : User) (p : Process)
    (guild : option Guild) (clean answer : string) :
  let n := requests p in
  let before := length (trace (world p)) in
  let u := user_ident user in
  let c := message_channelId message in
  let text := string_or clean (inbound_content message) in
  let t := tables (world p) in
  let run := handleMessage env host message user p in
  awaited_guild host n = Ok guild →
  cleanMessageContent host message = Ok clean →
  channels_typing host (S n) = None →
  (∀ k, store_answers env k) →
  (∀ k request, ∃ response,
     chat_completions_create env k request = Ok response ∧
     first_message response = Some (mkChatMessage (Some answer) None)) →
  answer ≠ "" →
  (∀ k body, message_reply env k body = None) →
  (∀ k, below_a_tenth (Math_random host k) = false) →
  run.1 = Ok tt ∧
  sent (trace (world run.2)) =
  sent (trace (world p)) ++ [Some (JStr (answer +:+ zero_width_space))] ∧
  message_history (tables (world run.2)) =
  message_history t ++
  [mkMessageHistory (message_history_id_seq t) u c user_role text
     (CURRENT_TIMESTAMP env (S before));
   mkMessageHistory (message_history_id_seq t + 1) u c assistant_role answer
     (CURRENT_TIMESTAMP env (5 + before))] ∧
  memories (tables (world run.2)) = memories t ∧
  cooldowns (world run.2) = cooldowns (world p).
Proof.
  intros n before u c text t run Hguild Hclean Htyping Hstore Hmodel Hanswer Hreply Hdraw.
  unfold run, handleMessage.
  set (handler := λ error : Exn,
         inner (logger_error "Handle message error:" error);;
         inner (reply env (Some (JStr "my head hurts")))).
  set (context := mkContext user (message_channelId message)).
  set (w1 := with_event (world p) EvGuild).
  set (p1 := mkProcess w1 (active_channels p) (host_trace p)).
  set (typing := host_trace p ++ [(length (trace w1), HvTyping c)]).
  set (p2 := mkProcess w1 (active_channels p) typing).
  erewrite (attempt_step position _ handler p p); [|reflexivity].
  erewrite (attempt_step (inner (emit EvGuild)) _ handler p p1); [|reflexivity].
  fold (requests p). fold n. rewrite Hguild.
  erewrite (attempt_step (of_outcome (Ok guild)) _ handler p1 p1); [|reflexivity].
  rewrite Hclean.
  erewrite (attempt_step (of_outcome (Ok clean)) _ handler p1 p1); [|reflexivity].
  erewrite (attempt_step position _ handler p1 p1); [|reflexivity].
  erewrite (attempt_step (host_emit (HvTyping c)) _ handler p1 p2); [|reflexivity].
  assert (Hposition : (length (trace (world p1)) + length (host_trace p1))%nat = S n).
  { unfold p1, w1, n, requests. simpl. rewrite length_app. simpl. lia. }
  rewrite Hposition, Htyping.
  erewrite (attempt_step (mret tt) _ handler p2 p2); [|reflexivity].
  fold text u.
  (* the user's turn *)
  set (asked := mkMessageHistory (message_history_id_seq t) u c user_role text
                  (CURRENT_TIMESTAMP env (S before))).
  set (w2 := mkWorld (cooldowns (world p))
               (set_message_history t (message_history t ++ [asked])
                  (message_history_id_seq t + 1))
               (trace w1 ++ [insert_event u c (mkTurn user_role text)])).
  assert (Hlength1 : length (trace w1) = S before)
    by (unfold w1, before; simpl; rewrite length_app; simpl; lia).
  assert (Hrun2 : saveMessageToHistory env u c user_role (Some (JStr text)) w1 = (Ok tt, w2)).
  { pose proof (run_saveMessageToHistory env u c (mkTurn user_role text) w1
                  (Hstore _)) as Hrun.
    cbn [role content] in Hrun. rewrite Hrun.
    unfold w2, appended, asked. simpl.
    rewrite length_app, Z.add_0_r, Nat.add_0_r. simpl. by rewrite Nat.add_1_r. }
  set (p3 := mkProcess w2 (active_channels p) typing).
  erewrite (attempt_step (inner (saveMessageToHistory env u c user_role (Some (JStr text))))
              _ handler p2 p3);
    [|by rewrite run_inner; cbn [world p2]; rewrite Hrun2].
  (* the recent turns *)
  set (history := reverse (most_recent u c 8 (message_history (tables w2)))).
  set (w3 := with_event w2 (EvQuery SELECT_FROM_message_history
                              [Some u; Some c; Some (pretty 8%nat)])).
  set (p4 := mkProcess w3 (active_channels p) typing).
  erewrite (attempt_step (inner (getMessageHistory env u c 8)) _ handler p3 p4);
    [|by rewrite run_inner; cbn [world p3]; rewrite run_getMessageHistory].
  (* the model *)
  set (messages := conversation host message user guild text history).
  destruct (Hmodel (length (trace w3)) (mkChatRequest (model_name env) messages true))
    as (response & Hchat & Hfirst).
  set (w4 := with_event w3 (EvChat (mkChatRequest (model_name env) messages true))).
  set (p5 := mkProcess w4 (active_channels p) typing).
  erewrite (attempt_step (inner (generateResponse env messages (Some context)))
              _ handler p4 p5 answer);
    [|by rewrite run_inner; cbn [world p4];
         rewrite (run_generateResponse_plain env messages (Some context) w3 response
                    (mkChatMessage (Some answer) None))].
  (* the reply *)
  unfold respond. rewrite decide_False by done.
  set (w5 := with_event w4 (EvReply (Some (JStr (answer +:+ zero_width_space))) true)).
  set (p6 := mkProcess w5 (active_channels p) typing).
  rewrite attempt_assoc.
  erewrite (attempt_step (inner (reply env (Some (JStr (answer +:+ zero_width_space)))))
              _ handler p5 p6);
    [|by rewrite run_inner, run_reply, Hreply].
  set (said := mkMessageHistory (message_history_id_seq t + 1) u c assistant_role answer
                 (CURRENT_TIMESTAMP env (5 + before))).
  set (w6 := mkWorld (cooldowns w5)
               (set_message_history (tables w5) (message_history (tables w5) ++ [said])
                  (message_history_id_seq (tables w5) + 1))
               (trace w5 ++ [insert_event u c (mkTurn assistant_role answer)])).
  assert (Hlength5 : length (trace w5) = (5 + before)%nat).
  { unfold w5, w4, w3, w2, w1, before. simpl. rewrite !length_app. simpl. lia. }
  assert (Hrun6 : saveMessageToHistory env u c assistant_role (Some (JStr answer)) w5
                  = (Ok tt, w6)).
  { pose proof (run_saveMessageToHistory env u c (mkTurn assistant_role answer) w5
                  (Hstore _)) as Hrun.
    cbn [role content] in Hrun. rewrite Hrun.
    assert (Hseq : message_history_id_seq (tables w5) = message_history_id_seq t + 1)
      by done.
    unfold w6, appended, said. clearbody w5. simpl.
    by rewrite Hlength5, Hseq, Z.add_0_r, Nat.add_0_r. }
  set (p7 := mkProcess w6 (active_channels p) typing).
  erewrite (attempt_step (inner (saveMessageToHistory env u c assistant_role
                                   (Some (JStr answer)))) _ handler p6 p7);
    [|by rewrite run_inner; cbn [world p6]; rewrite Hrun6].
  erewrite (attempt_step position _ handler p7 p7); [|reflexivity].
  erewrite (attempt_step (host_emit HvRandom) _ handler p7); [|reflexivity].
  rewrite Hdraw. rewrite run_attempt. cbn [mret Handler_ret fst snd world].
  split; [done|]. split; [|split; [|done]].
  - unfold p7, w6, w5, w4, w3, w2, w1. cbn [world trace with_event].
    unfold sent, insert_event. rewrite !omap_app. simpl. by rewrite !app_nil_r.
  - unfold p7, w6, w5, w4, w3, w2. simpl. by rewrite <- app_assoc.
Qed.

Lemma handleMessage_answers_witness :
  let env := Sample.env (λ _, Ok (Sample.says "hi alice" None)) [] in
  let run := handleMessage env steady_host sample_message (user Sample.alice)
               sample_process in
  run.1 = Ok tt ∧
  sent (trace (world run.2)) = [Some (JStr ("hi alice" +:+ zero_width_space))] ∧
  message_history (tables (world run.2)) =
  message_history (tables two_conversations) ++
  [mkMessageHistory 3 "42" "general" user_role "hello" 1700000000001;
   mkMessageHistory 4 "42" "general" assistant_role "hi alice" 1700000000005].
Proof.
  destruct (handleMessage_answers
              (Sample.env (λ _, Ok (Sample.says "hi alice" None)) [])
              steady_host sample_message (user Sample.alice) sample_process
              None "hello" "hi alice")
    as (Hdone & Hsent & Hrows & _).
  - reflexivity.
  - reflexivity.
  - reflexivity.
  - intros k. split; reflexivity.
  - intros k request. exists (Sample.says "hi alice" None). split; reflexivity.
  - discriminate.
  - intros k body. reflexivity.
  - intros k. reflexivity.
  - split; [exact Hdone|]. split; [exact Hsent|exact Hrows].
Defined.

(** ** Under the cap *)

Lemma most_recent_all (u c : string) (limit : nat) (rows : list MessageHistory) :
  (length (filter (same_pair u c) rows) ≤ limit)%nat →
  most_recent u c limit rows ≡ₚ filter (same_pair u c) rows.
Proof.
  intros Hfew. unfold most_recent.
  rewrite take_ge by (by rewrite merge_sort_Permutation).
  apply merge_sort_Permutation.
Qed.

(** Pruning deletes nothing while the conversation is under the cap: when
    the (user, channel) pair has at most [keepLast] rows, the tables after
    [cleanOldHistory] are the tables before, whether the store answers or
    not. *)
Theorem cleanOldHistory_under_the_cap
    (env : Env) (u c : string) (keepLast : nat) (w : World) :
  (length (filter (same_pair u c) (message_history (tables w))) ≤ keepLast)%nat →
  tables (cleanOldHistory env u c keepLast w).2 = tables w.
Proof.
  intros Hfew. unfold cleanOldHistory.
  rewrite run_try_catch, run_Database_query_cases. cbv zeta.
  destruct (pool_connect env (length (trace w))); [done|].
  destruct (client_query env (length (trace w))); [done|].
  cbn [delete_old_message_history fst snd tables].
  rewrite filter_everything; [by destruct (tables w)|].
  apply Forall_forall. intros row Hrow [Hpair Hgone]. apply Hgone.
  apply list_elem_of_fmap. exists row. split; [done|].
  rewrite (most_recent_all u c keepLast _ Hfew). by apply list_elem_of_filter.
Qed.

Lemma cleanOldHistory_under_the_cap_witness :
  tables (cleanOldHistory (Sample.env (Sample.asks None) []) "42" "general" 20
            two_conversations).2 = tables two_conversations.
Proof.
  apply (cleanOldHistory_under_the_cap (Sample.env (Sample.asks None) [])
           "42" "general" 20 two_conversations).
  vm_compute. lia.
Defined.
